(** * OuteTTS, version v1: the interface layer ([outetts/version/v1/interface.py])

    A shallow embedding of the orchestration code of [InterfaceHF],
    [InterfaceGGUF] and [InterfaceEXL2], and the properties of it that the
    specification states.

    Conventions of the embedding.
    - A Python [str] is a list of Unicode code points ([pystr]).
    - A Python [int] is a [Z]; an optional argument is an [option].
    - The pretrained models, the tokenizer, the audio codec, whisper and the
      forced aligner live in other modules: they are the fields of the
      record [deps], over which every definition is parameterised.
    - Effects are explicit: a computation of the interface is a function of
      the [world] (the sampling state of the language model, the files, and
      the trace of observable events so far) that either returns or raises.
    - A generator is embedded by what its consumer does with each item it
      yields; the two threads of [generate_stream] are embedded by the
      interleavings of their steps.

    The definitions come first, the properties after them. *)

From Stdlib Require Import ZArith List Bool Lia String Ascii QArith DecimalString.
From stdpp Require Import gmap strings.
Import ListNotations.

Set Warnings "-register-all".
Local Open Scope Z_scope.

(** ** Python strings *)

Module PyStr.

Definition pystr := list Z.

(** The code points for which [str.isspace] holds: the ones [str.strip]
    removes when it is called without argument. *)
Definition isspace (c : Z) : bool :=
  ((9 <=? c) && (c <=? 13)) || ((28 <=? c) && (c <=? 32))
  || (c =? 133) || (c =? 160) || (c =? 5760)
  || ((8192 <=? c) && (c <=? 8202))
  || (c =? 8232) || (c =? 8233) || (c =? 8239) || (c =? 8287)
  || (c =? 12288).

Fixpoint lstrip (s : pystr) : pystr :=
  match s with
  | [] => []
  | c :: r => if isspace c then lstrip r else s
  end.

Fixpoint rstrip (s : pystr) : pystr :=
  match s with
  | [] => []
  | c :: r =>
      match rstrip r with
      | [] => if isspace c then [] else [c]
      | r' => c :: r'
      end
  end.

(** [s.strip()] *)
Definition strip (s : pystr) : pystr := rstrip (lstrip s).

(** [text.startswith(d)] *)
Fixpoint starts_with (d text : pystr) : bool :=
  match d, text with
  | [], _ => true
  | _ :: _, [] => false
  | x :: d', y :: text' => (x =? y) && starts_with d' text'
  end.

(** The alternation ['|'.join(map(re.escape, delimiters))] tried at the head
    of [text]: the regex engine takes the first alternative, in the order of
    the list, that matches there. Every alternative is a literal. An empty
    literal is skipped: the empty matches it would produce follow rules of
    [re.split] that this development does not need (no default delimiter is
    empty). *)
Definition first_match (alts : list pystr) (text : pystr) : option pystr :=
  find (fun d => negb (Nat.eqb (length d) 0) && starts_with d text) alts.

(** [re.split(pattern, text)] for such an alternation. [skip] counts the
    code points of the current match that are still to be consumed and
    [piece] is the text read since the end of the previous match. The piece
    after the last match is returned even when it is empty. *)
Fixpoint re_split_go (alts : list pystr) (text : pystr) (skip : nat)
    (piece : pystr) : list pystr :=
  match text with
  | [] => [piece]
  | c :: rest =>
      match skip with
      | S k => re_split_go alts rest k piece
      | O =>
          match first_match alts text with
          | Some d => piece :: re_split_go alts rest (length d - 1) []
          | None => re_split_go alts rest 0 (piece ++ [c])
          end
      end
  end.

Definition re_split (alts : list pystr) (text : pystr) : list pystr :=
  re_split_go alts text 0 [].

(** Python's slice [l[start:end]] on a list, with the negative indices
    counted from the end and both bounds clamped. *)
Definition clamp_index {A} (l : list A) (i : Z) : nat :=
  let n := Z.of_nat (length l) in
  Z.to_nat (Z.min n (Z.max 0 (if i <? 0 then i + n else i))).

Definition slice {A} (l : list A) (start stop : Z) : list A :=
  let a := clamp_index l start in
  let b := clamp_index l stop in
  firstn (b - a) (skipn a l).

(** [l[start:]] *)
Definition slice_from {A} (l : list A) (start : Z) : list A :=
  skipn (clamp_index l start) l.

(** The code points of an ASCII literal, to write the strings of the source
    readably. *)
Definition of_string (s : string) : pystr :=
  map (fun a => Z.of_N (N_of_ascii a)) (list_ascii_of_string s).

End PyStr.
Export PyStr.

(** ** Python values, exceptions and JSON documents *)

Module Py.

(** The values a speaker profile is made of. A [float] is finite and stands
    for its exact value; a [dict] is the list of its items in insertion
    order. *)
Inductive pyval :=
| PyNone
| PyBool (b : bool)
| PyInt (z : Z)
| PyFloat (q : Q)
| PyStr (s : pystr)
| PyList (items : list pyval)
| PyTuple (items : list pyval)
| PyDict (items : list (pyval * pyval)).

(** The exceptions of the code. [BackendError] stands for any other
    exception that derives from [Exception] and comes out of a dependency.
    [KeyboardInterrupt] and [SystemExit] derive from [BaseException] only:
    the interpreter raises them inside whatever code is running, a call of
    the backend for instance. *)
Inductive exn :=
| ValueError (msg : string)
| AttributeError (msg : string)
| ZeroDivisionError (msg : string)
| IndexError (msg : string)
| TypeError (msg : string)
| RuntimeError (msg : string)
| OSError (msg : string)
| BackendError (msg : string)
| KeyboardInterrupt
| SystemExit.

(** [isinstance(e, Exception)] *)
Definition is_exception (e : exn) : bool :=
  match e with
  | KeyboardInterrupt | SystemExit => false
  | _ => true
  end.

Inductive outcome (A : Type) :=
| Returns (a : A)
| Raises (e : exn).
Arguments Returns {A} a.
Arguments Raises {A} e.

(** [str(z)] for an [int] *)
Definition str_of_int (z : Z) : string :=
  NilZero.string_of_int (Z.to_int z).

(** A JSON document. An object keeps its members in the order they were
    written. *)
Inductive json :=
| JNull
| JBool (b : bool)
| JInt (z : Z)
| JReal (q : Q)
| JString (s : pystr)
| JArray (items : list json)
| JObject (members : list (pystr * json)).

(** [x == y] on the scalars that can be the key of a dict: numbers compare
    by value ([True == 1], [1 == 1.0]), a string only equals a string. Keys
    that are tuples do not occur in this development and compare unequal. *)
Definition num_of (v : pyval) : option Q :=
  match v with
  | PyBool b => Some (inject_Z (if b then 1 else 0))
  | PyInt z => Some (inject_Z z)
  | PyFloat q => Some q
  | _ => None
  end.

Definition pystr_eqb (a b : pystr) : bool :=
  bool_decide (a = b).

Definition key_eqb (a b : pyval) : bool :=
  match a, b with
  | PyNone, PyNone => true
  | PyStr s, PyStr t => pystr_eqb s t
  | _, _ =>
      match num_of a, num_of b with
      | Some p, Some q => Qeq_bool p q
      | _, _ => false
      end
  end.

(** [d[k] = v] on the items of a dict: the value of an existing key is
    replaced in place, a new key is appended. *)
Fixpoint dict_set (items : list (pyval * pyval)) (k v : pyval) :
    list (pyval * pyval) :=
  match items with
  | [] => [(k, v)]
  | (k', v') :: rest =>
      if key_eqb k' k then (k', v) :: rest
      else (k', v') :: dict_set rest k v
  end.

Fixpoint dict_get (items : list (pyval * pyval)) (k : pyval) :
    option pyval :=
  match items with
  | [] => None
  | (k', v') :: rest => if key_eqb k' k then Some v' else dict_get rest k
  end.


End Py.
Export Py.

(** ** The [json] module, on documents

    [json.dump] turns a value into a JSON document and writes its text;
    [json.load] parses the text back into a document and turns it into a
    value. A file is kept as the document its text denotes; the rendering
    with [indent=2] and the parsing are the library's own and inverse of
    each other on documents. What the model keeps is the conversion between
    Python values and JSON documents, which is where values can change or
    be refused:
    - a tuple is written as an array, and an array is read as a list;
    - a key that is no string is written as a string;
    - with [ensure_ascii], which is the default, every code point beyond
      ASCII is written as [\uXXXX] escapes, a surrogate as one escape and a
      code point beyond the basic plane as two; the decoder reads a high
      surrogate followed by a low one as the single code point they encode,
      so a string that holds such a pair as two code points denotes the
      string with one;
    - an [int] is written by [int.__repr__] and read by [int], which both
      refuse more than 4300 digits (the default of
      [sys.set_int_max_str_digits]). *)

Module Json.

Definition is_high_surrogate (c : Z) : bool := (55296 <=? c) && (c <=? 56319).

Definition is_low_surrogate (c : Z) : bool := (56320 <=? c) && (c <=? 57343).

(** The string that the escapes written for [s] denote. *)
Fixpoint join_surrogates (s : pystr) : pystr :=
  match s with
  | h :: ((l :: r) as t) =>
      if is_high_surrogate h && is_low_surrogate l then
        (65536 + (h - 55296) * 1024 + (l - 56320)) :: join_surrogates r
      else h :: join_surrogates t
  | _ => s
  end.

Arguments join_surrogates : simpl never.


Definition int_max_str_digits : Z := 4300.

(** [str(z)] and [int(text)] are allowed for [z]. *)
Definition int_converts (z : Z) : bool :=
  Z.abs z <? 10 ^ int_max_str_digits.

Arguments int_converts : simpl never.

Definition int_conversion_error : exn :=
  ValueError "Exceeds the limit (4300 digits) for integer string conversion".


(** A conversion applied to the items of a list, from left to right, up to
    the first one that raises. *)
Definition traverse {A C : Type} (f : A -> outcome C) :
    list A -> outcome (list C) :=
  fix go (l : list A) : outcome (list C) :=
    match l with
    | [] => Returns []
    | x :: r =>
        match f x with
        | Raises e => Raises e
        | Returns y =>
            match go r with
            | Raises e => Raises e
            | Returns ys => Returns (y :: ys)
            end
        end
    end.

Section Encoder.

(** [float.__repr__], used for a key that is a float. *)
Variable float_repr : Q -> pystr.



End Encoder.

(** The conversion table of [json.JSONDecoder]: an object is a dict, built
    member by member (a repeated name keeps its place and takes the last
    value), an array is a list. The document is read from left to right, up
    to the first number that [int] refuses. *)
Fixpoint of_json (j : json) : outcome pyval :=
  match j with
  | JNull => Returns PyNone
  | JBool b => Returns (PyBool b)
  | JInt z =>
      if int_converts z then Returns (PyInt z) else Raises int_conversion_error
  | JReal q => Returns (PyFloat q)
  | JString s => Returns (PyStr (join_surrogates s))
  | JArray items =>
      match traverse of_json items with
      | Raises e => Raises e
      | Returns vs => Returns (PyList vs)
      end
  | JObject members =>
      match
        traverse
          (fun m : pystr * json =>
             match of_json (snd m) with
             | Raises e => Raises e
             | Returns v => Returns (PyStr (join_surrogates (fst m)), v)
             end) members
      with
      | Raises e => Raises e
      | Returns items =>
          Returns
            (PyDict
               (fold_left
                  (fun acc (kv : pyval * pyval) =>
                     dict_set acc (fst kv) (snd kv))
                  items []))
      end
  end.

(** What a file holds: the text of a document, or text that is not one (what
    an interrupted [json.dump] leaves behind). *)
Inductive content :=
| Document (j : json)
| Truncated.

End Json.
Export Json.

(** ** The data of the interface *)

Module Data.

Definition token := Z.

(** A waveform: the samples of the single row of the [1 x T] tensor the
    audio codec produces. The interface only counts and slices them. *)
Definition audio := list Z.

(** A [ModelOutput] object, by the arguments [audio] and [og_sr] it was made
    from. The class belongs to another module of the package
    ([..playback]); the interface only constructs its objects and hands them
    on. *)
Record ModelOutput := {
  mo_audio : option audio;
  mo_sr : Z
}.

Record GenerationConfig := {
  gc_temperature : Q;
  gc_repetition_penalty : Q;
  gc_max_length : option Z;
  gc_additional_gen_config : pyval
}.

(** The fields of [HFModelConfig] that the interface reads after the models
    are loaded. The remaining ones ([model_path], [tokenizer_path], [dtype],
    [additional_model_config], [wavtokenizer_model_path] and, for
    [GGUFModelConfig], [n_gpu_layers]) only parameterise the constructors of
    the dependencies. *)
Record ModelConfig := {
  cfg_language : pystr;
  cfg_languages : list pystr;
  cfg_verbose : bool;
  cfg_device : option pystr;
  cfg_max_seq_length : Z
}.

Inductive runtime := HF | GGUF | EXL2.

(** [self]: the attributes the three constructors set. *)
Record interface := {
  runtime_of : runtime;
  config : ModelConfig;
  _device : option pystr;
  languages : list pystr;
  language : pystr;
  verbose : bool
}.

(** What [prepare_prompt] hands to the backend. *)
Inductive input_ids :=
| Tensor (ids : list token)
| Tokens (ids : list token)
| Prompt (text : pystr).

(** An item of the list [CTCForcedAlignment.align] returns. *)
Record aligned_word := {
  aw_word : pystr;
  aw_x1 : Z;
  aw_audio : audio
}.

Inductive level := INFO | WARNING | ERROR.

Inductive message :=
| InputTokens (n : Z)
| GeneratingAudio
| GenerationCompleted
| NoAudioTokens
| TranscribingWithWhisper
| ProcessingText (len : Z)
| SplitInto (n : Z) (avg : Q)
| ChunkSizeIgnored
| ProcessingSegment (i n : Z)
| Exception (e : exn).

(** The observable events: what is logged, the calls into the models, the
    operations on the playback queue and its thread, and the items a
    generator yields. *)
Inductive event :=
| Log (lv : level) (m : message)
| Generate (r : runtime) (input : input_ids) (cfg : GenerationConfig)
    (stream : bool) (dynamic : option pyval)
| Decode (codes : list Z)
| Transcribe (audio_path model : pystr) (dev : option pystr)
| Align (audio_path transcript lang : pystr)
| Encode (a : audio)
| QueueNew
| ThreadStart
| QueuePut (item : option ModelOutput)
| ThreadJoin
| QueueDel
| Yield (item : ModelOutput).

(** The modules the interface calls into. [B] is the hidden state of the
    language model's sampler: two calls with the same arguments need not
    produce the same tokens. A streamed generation is the list of the tokens
    it produces, followed by the exception that ends it, if any. *)
Record deps (B : Type) := {
  get_completion_prompt : pystr -> pystr -> option pyval -> pystr;
  tokenizer_encode : pystr -> list token;
  special_code_end : pystr;
  extract_audio_from_tokens : list token -> list Z;
  codec_decode : list Z -> audio;
  codec_sr : Z;
  model_generate :
    runtime -> B -> input_ids -> GenerationConfig -> option pyval ->
    outcome (list token) * B;
  model_stream :
    runtime -> B -> input_ids -> GenerationConfig ->
    (list token * option exn) * B;
  transcribe_once : pystr -> pystr -> option pystr -> pystr;
  ctc_align :
    list pystr -> option pystr -> pystr -> pystr -> pystr ->
    list aligned_word;
  ctc_sample_rate : Z;
  (** [int(round((x1 / ctc.sample_rate) * 75))], computed on doubles *)
  frame_index : Z -> Z;
  convert_audio_tensor : audio -> Z -> audio;
  codec_encode : audio -> list Z;
  (** [ModelOutput(None, sr)]: the exception the constructor raises when
      it is handed [None] in place of a tensor, if it raises one. *)
  model_output_none : option exn;
  float_repr : Q -> pystr;
  writable : pystr -> bool
}.

Arguments get_completion_prompt {B}.
Arguments tokenizer_encode {B}.
Arguments special_code_end {B}.
Arguments extract_audio_from_tokens {B}.
Arguments codec_decode {B}.
Arguments codec_sr {B}.
Arguments model_generate {B}.
Arguments model_stream {B}.
Arguments transcribe_once {B}.
Arguments ctc_align {B}.
Arguments ctc_sample_rate {B}.
Arguments frame_index {B}.
Arguments convert_audio_tensor {B}.
Arguments codec_encode {B}.
Arguments model_output_none {B}.
Arguments float_repr {B}.
Arguments writable {B}.

(** The state a computation runs in. A file is known by its path; two
    paths that name one file are outside this development. *)
Record world (B : Type) := {
  sampler : B;
  files : gmap pystr content;
  trace : list event
}.
Arguments sampler {B}.
Arguments files {B}.
Arguments trace {B}.

End Data.
Export Data.

(** ** The interface *)

Module Interface.

Section WithDeps.

Context {B : Type} (D : deps B).

(** *** Computations: state, trace and exceptions *)

Definition M (A : Type) : Type := world B -> outcome A * world B.

Definition ret {A : Type} (a : A) : M A := fun w => (Returns a, w).

Definition raise {A : Type} (e : exn) : M A := fun w => (Raises e, w).

Definition bind {A C : Type} (m : M A) (k : A -> M C) : M C :=
  fun w =>
    match m w with
    | (Returns a, w') => k a w'
    | (Raises e, w') => (Raises e, w')
    end.

#[global] Instance M_ret : MRet M := @ret.
#[global] Instance M_bind : MBind M := fun A C k m => bind m k.

(** The world after the events [t]. *)
Definition note (w : world B) (t : list event) : world B :=
  {| sampler := sampler w; files := files w; trace := trace w ++ t |}.

Definition emit (e : event) : M unit := fun w => (Returns tt, note w [e]).

Definition log (lv : level) (m : message) : M unit := emit (Log lv m).

Definition when (b : bool) (m : M unit) : M unit :=
  if b then m else ret tt.

(** [try: body except Exception as e: handler(e)]: an exception that does
    not derive from [Exception] goes through. *)
Definition try_except (body : M unit) (handler : exn -> M unit) : M unit :=
  fun w =>
    match body w with
    | (Returns a, w') => (Returns a, w')
    | (Raises e, w') =>
        if is_exception e then handler e w' else (Raises e, w')
    end.

(** *** Construction *)

(** The assignments the three [__init__] methods share. *)
Definition init (r : runtime) (config : ModelConfig) : interface :=
  {| runtime_of := r;
     config := config;
     _device := cfg_device config;
     languages := cfg_languages config;
     language := cfg_language config;
     verbose := cfg_verbose config |}.

Definition InterfaceHF (config : ModelConfig) : interface := init HF config.
Definition InterfaceGGUF (config : ModelConfig) : interface := init GGUF config.
Definition InterfaceEXL2 (config : ModelConfig) : interface := init EXL2 config.

(** *** Prompts and audio *)

Definition InterfaceHF_prepare_prompt (self : interface) (text : pystr)
    (speaker : option pyval) : input_ids :=
  let prompt := get_completion_prompt D text (language self) speaker in
  Tensor (tokenizer_encode D prompt).

Definition InterfaceGGUF_prepare_prompt (self : interface) (text : pystr)
    (speaker : option pyval) : input_ids :=
  let prompt := get_completion_prompt D text (language self) speaker in
  Tokens (tokenizer_encode D prompt).

Definition InterfaceEXL2_prepare_prompt (self : interface) (text : pystr)
    (speaker : option pyval) : input_ids :=
  Prompt (get_completion_prompt D text (language self) speaker).

(** [self.prepare_prompt(text, speaker)]: the method of the class of
    [self]. *)
Definition prepare_prompt (self : interface) (text : pystr)
    (speaker : option pyval) : input_ids :=
  match runtime_of self with
  | HF => InterfaceHF_prepare_prompt self text speaker
  | GGUF => InterfaceGGUF_prepare_prompt self text speaker
  | EXL2 => InterfaceEXL2_prepare_prompt self text speaker
  end.

(** [input_ids.size()[-1]] for the tensor, [len(input_ids)] otherwise. *)
Definition input_len (i : input_ids) : Z :=
  match i with
  | Tensor ids => Z.of_nat (length ids)
  | Tokens ids => Z.of_nat (length ids)
  | Prompt text => Z.of_nat (length text)
  end.

Definition get_audio (self : interface) (tokens : list token) :
    M (option audio) :=
  let output := extract_audio_from_tokens D tokens in
  match output with
  | [] => log WARNING NoAudioTokens;; ret None
  | _ => emit (Decode output);; ret (Some (codec_decode D output))
  end.

(** *** Generation *)

(** [ModelOutput(audio, sr)]. From a tensor the object is made; what the
    constructor does with [None] is the class's own. *)
Definition new_ModelOutput (audio : option audio) (sr : Z) : M ModelOutput :=
  match audio with
  | Some a => ret {| mo_audio := Some a; mo_sr := sr |}
  | None =>
      match model_output_none D with
      | Some e => raise e
      | None => ret {| mo_audio := None; mo_sr := sr |}
      end
  end.

Definition check_generation_max_length (self : interface)
    (max_length : option Z) : M unit :=
  match max_length with
  | None => raise (ValueError "max_length must be specified.")
  | Some n =>
      if cfg_max_seq_length (config self) <? n then
        raise (ValueError
                 ("Requested max_length (" +:+ str_of_int n
                  +:+ ") exceeds the current max_seq_length ("
                  +:+ str_of_int (cfg_max_seq_length (config self))
                  +:+ ")."))
      else ret tt
  end.

(** [self.model.generate(input_ids=..., config=...)], and with
    [additional_dynamic_generator_config=...] when [dynamic] is given. *)
Definition model_call (self : interface) (input : input_ids)
    (cfg : GenerationConfig) (dynamic : option pyval) : M (list token) :=
  fun w =>
    let '(r, b) :=
      model_generate D (runtime_of self) (sampler w) input cfg dynamic in
    (r, {| sampler := b; files := files w;
           trace := trace w
                    ++ [Generate (runtime_of self) input cfg false dynamic] |}).

(** [self.model.generate(input_ids=..., config=..., stream=True)] *)
Definition model_call_stream (self : interface) (input : input_ids)
    (cfg : GenerationConfig) : M (list token * option exn) :=
  fun w =>
    let '(r, b) := model_stream D (runtime_of self) (sampler w) input cfg in
    (Returns r,
     {| sampler := b; files := files w;
        trace := trace w
                 ++ [Generate (runtime_of self) input cfg true None] |}).

Definition InterfaceHF_generate (self : interface) (text : pystr)
    (speaker : option pyval) (temperature repetition_penalty : Q)
    (max_length : option Z) (additional_gen_config : pyval) :
    M ModelOutput :=
  let input_ids := prepare_prompt self text speaker in
  when (verbose self)
    (log INFO (InputTokens (input_len input_ids));;
     log INFO GeneratingAudio);;
  check_generation_max_length self max_length;;
  output ← model_call self input_ids
    {| gc_temperature := temperature;
       gc_repetition_penalty := repetition_penalty;
       gc_max_length := max_length;
       gc_additional_gen_config := additional_gen_config |} None;
  audio ← get_audio self (slice_from output (input_len input_ids));
  when (verbose self) (log INFO GenerationCompleted);;
  new_ModelOutput audio (codec_sr D).

Definition InterfaceGGUF_generate (self : interface) (text : pystr)
    (speaker : option pyval) (temperature repetition_penalty : Q)
    (max_length : option Z) (additional_gen_config : pyval) :
    M ModelOutput :=
  let input_ids := prepare_prompt self text speaker in
  when (verbose self)
    (log INFO (InputTokens (input_len input_ids));;
     log INFO GeneratingAudio);;
  check_generation_max_length self max_length;;
  output ← model_call self input_ids
    {| gc_temperature := temperature;
       gc_max_length := max_length;
       gc_repetition_penalty := repetition_penalty;
       gc_additional_gen_config := additional_gen_config |} None;
  audio ← get_audio self output;
  when (verbose self) (log INFO GenerationCompleted);;
  new_ModelOutput audio (codec_sr D).

Definition InterfaceEXL2_generate (self : interface) (text : pystr)
    (speaker : option pyval) (temperature repetition_penalty : Q)
    (max_length : option Z) (additional_gen_config : pyval)
    (additional_dynamic_generator_config : pyval) : M ModelOutput :=
  let input_ids := prepare_prompt self text speaker in
  when (verbose self)
    (log INFO (InputTokens (input_len input_ids));;
     log INFO GeneratingAudio);;
  check_generation_max_length self max_length;;
  output ← model_call self input_ids
    {| gc_temperature := temperature;
       gc_repetition_penalty := repetition_penalty;
       gc_max_length := max_length;
       gc_additional_gen_config := additional_gen_config |}
    (Some additional_dynamic_generator_config);
  audio ← get_audio self output;
  when (verbose self) (log INFO GenerationCompleted);;
  new_ModelOutput audio (codec_sr D).

(** [self.generate(...)]: the method of the class of [self]. Only
    [InterfaceEXL2.generate] has the last parameter. *)
Definition generate (self : interface) (text : pystr)
    (speaker : option pyval) (temperature repetition_penalty : Q)
    (max_length : option Z) (additional_gen_config : pyval)
    (additional_dynamic_generator_config : pyval) : M ModelOutput :=
  match runtime_of self with
  | HF =>
      InterfaceHF_generate self text speaker temperature repetition_penalty
        max_length additional_gen_config
  | GGUF =>
      InterfaceGGUF_generate self text speaker temperature
        repetition_penalty max_length additional_gen_config
  | EXL2 =>
      InterfaceEXL2_generate self text speaker temperature
        repetition_penalty max_length additional_gen_config
        additional_dynamic_generator_config
  end.

(** *** Streaming *)

Definition _create_audio_chunk (self : interface) (tokens : list token)
    (idx : Z) : M (ModelOutput * Z) :=
  audio ← get_audio self tokens;
  match audio with
  | None =>
      raise (AttributeError "'NoneType' object has no attribute 'size'")
  | Some a =>
      ret ({| mo_audio := Some (slice_from a idx); mo_sr := codec_sr D |},
           Z.of_nat (length a))
  end.

(** The local variables of [_generate_stream] that its loop updates. *)
Record stream_state := {
  audio_buffer : list token;
  start_index : Z;
  chunks : Z
}.

(** The body of the loop [for token in self.model.generate(...)], run over
    the tokens the backend streams. A generator is embedded by what its
    consumer does with each item: [yield_ output] stands for
    [yield output]. *)
Fixpoint stream_loop (self : interface) (code_end_token : token)
    (chunk_size : Z) (stream_segments : bool)
    (yield_ : ModelOutput -> M unit) (tokens : list token)
    (st : stream_state) : M stream_state :=
  match tokens with
  | [] => ret st
  | token :: rest =>
      let buffer := audio_buffer st ++ [token] in
      st' ←
        (if stream_segments then
           ret {| audio_buffer := buffer;
                  start_index := start_index st;
                  chunks := chunks st |}
         else
           let n :=
             if token =? code_end_token then chunks st + 1 else chunks st in
           if n =? chunk_size then
             '(output, size) ← _create_audio_chunk self buffer
                                 (start_index st);
             yield_ output;;
             ret {| audio_buffer := buffer;
                    start_index := size;
                    chunks := 0 |}
           else
             ret {| audio_buffer := buffer;
                    start_index := start_index st;
                    chunks := n |});
      stream_loop self code_end_token chunk_size stream_segments yield_
        rest st'
  end.

Definition _generate_stream (self : interface) (text : pystr)
    (speaker : option pyval) (temperature repetition_penalty : Q)
    (max_length : option Z) (additional_gen_config : pyval)
    (additional_dynamic_generator_config : pyval) (chunk_size : Z)
    (stream_segments : bool) (yield_ : ModelOutput -> M unit) : M unit :=
  if chunk_size <? 4 then
    raise (ValueError "chunk_size must be at least 4.")
  else
    check_generation_max_length self max_length;;
    code_end_token ←
      match tokenizer_encode D (special_code_end D) with
      | [] => raise (IndexError "list index out of range")
      | t :: _ => ret t
      end;
    let input_ids := prepare_prompt self text speaker in
    '(tokens, failure) ← model_call_stream self input_ids
      {| gc_temperature := temperature;
         gc_repetition_penalty := repetition_penalty;
         gc_max_length := max_length;
         gc_additional_gen_config := additional_gen_config |};
    st ← stream_loop self code_end_token chunk_size stream_segments yield_
           tokens
           {| audio_buffer := []; start_index := 0; chunks := 0 |};
    match failure with
    | Some e => raise e
    | None =>
        match audio_buffer st with
        | [] => ret tt
        | _ =>
            '(output, _) ← _create_audio_chunk self (audio_buffer st)
                             (start_index st);
            yield_ output
        end
    end.

Definition default_delimiters : list pystr :=
  [ [46]; [63]; [33];
    [59]; [58]; [10];
    [13; 10]; [13];
    [9];
    [12290]; [65311]; [65281];
    [8230] ].

Definition split_text (self : interface) (text : pystr)
    (delimiters : option (list pystr)) : list pystr :=
  let delimiters :=
    match delimiters with
    | None => default_delimiters
    | Some l => l
    end in
  let split_result := re_split delimiters text in
  let cleaned_sentences := map strip split_result in
  List.filter (fun s => negb (Nat.eqb (length s) 0)) cleaned_sentences.

(** [sum(len(s) for s in segments)] *)
Definition total_length (segments : list pystr) : Z :=
  fold_right (fun s acc => Z.of_nat (length s) + acc) 0 segments.

(** [for idx, segment in enumerate(segments)], from index [idx] on, every
    item of the generator being put on the queue. *)
Fixpoint segments_loop (self : interface) (speaker : option pyval)
    (temperature repetition_penalty : Q) (max_length : option Z)
    (additional_gen_config additional_dynamic_generator_config : pyval)
    (chunk_size : Z) (stream_segments : bool) (total : Z)
    (idx : Z) (segments : list pystr) : M unit :=
  match segments with
  | [] => ret tt
  | segment :: rest =>
      log INFO (ProcessingSegment (idx + 1) total);;
      _generate_stream self segment speaker temperature repetition_penalty
        max_length additional_gen_config
        additional_dynamic_generator_config chunk_size stream_segments
        (fun i => emit (QueuePut (Some i)));;
      segments_loop self speaker temperature repetition_penalty max_length
        additional_gen_config additional_dynamic_generator_config
        chunk_size stream_segments total (idx + 1) rest
  end.

Definition generate_stream (self : interface) (text : pystr)
    (speaker : option pyval) (temperature repetition_penalty : Q)
    (max_length : option Z) (additional_gen_config : pyval)
    (additional_dynamic_generator_config : pyval) (chunk_size : Z)
    (stream_segments : bool) : M unit :=
  emit QueueNew;;
  emit ThreadStart;;
  log INFO (ProcessingText (Z.of_nat (length text)));;
  let segments := split_text self text None in
  let n := Z.of_nat (length segments) in
  avg ←
    (if n =? 0 then raise (ZeroDivisionError "division by zero")
     else ret (Qmake (total_length segments) (Z.to_pos n)));
  log INFO (SplitInto n avg);;
  when stream_segments (log INFO ChunkSizeIgnored);;
  try_except
    (segments_loop self speaker temperature repetition_penalty max_length
       additional_gen_config additional_dynamic_generator_config
       chunk_size stream_segments n 0 segments)
    (fun e => log ERROR (Exception e));;
  emit (QueuePut None);;
  emit ThreadJoin;;
  emit QueueDel.

(** *** Speakers *)

(** [torch.cat(tensors, dim=1)] *)
Definition torch_cat (tensors : list audio) : M audio :=
  match tensors with
  | [] =>
      raise (RuntimeError "torch.cat(): expected a non-empty list of Tensors")
  | _ => ret (concat tensors)
  end.

(** [round(n / 75, 2)] for a length [n]: the multiple of [0.01] nearest to
    [n / 75]. No [n / 75] lies half-way between two of them. *)
Definition round_duration (n : Z) : Q := Qmake ((8 * n + 3) / 6) 100.

(** The loop of [create_speaker] that fills [data], from [start] on. *)
Fixpoint speaker_words (full_codes : list Z) (words : list aligned_word)
    (start : Z) : list pyval :=
  match words with
  | [] => []
  | i :: rest =>
      let end_ := frame_index D (aw_x1 i) in
      let word_tokens := slice full_codes start end_ in
      let word_tokens :=
        match word_tokens with
        | [] => [1]
        | _ => word_tokens
        end in
      PyDict
        [ (PyStr (of_string "word"), PyStr (aw_word i));
          (PyStr (of_string "duration"),
           PyFloat (round_duration (Z.of_nat (length word_tokens))));
          (PyStr (of_string "codes"), PyList (map PyInt word_tokens)) ]
      :: speaker_words full_codes rest end_
  end.

Definition create_speaker (self : interface) (audio_path : pystr)
    (transcript : option pystr) (whisper_model : pystr)
    (whisper_device : option pystr) : M pyval :=
  transcript ←
    match transcript with
    | None =>
        log INFO TranscribingWithWhisper;;
        emit (Transcribe audio_path whisper_model whisper_device);;
        ret (transcribe_once D audio_path whisper_model whisper_device)
    | Some t => ret t
    end;
  match transcript with
  | [] => raise (ValueError "Transcript text is empty")
  | _ =>
      emit (Align audio_path transcript (language self));;
      let words :=
        ctc_align D (languages self) (_device self) audio_path transcript
          (language self) in
      joined ← torch_cat (map aw_audio words);
      let converted := convert_audio_tensor D joined (ctc_sample_rate D) in
      emit (Encode converted);;
      let full_codes := codec_encode D converted in
      let data := speaker_words full_codes words 0 in
      ret (PyDict
             [ (PyStr (of_string "text"), PyStr transcript);
               (PyStr (of_string "words"), PyList data);
               (PyStr (of_string "language"), PyStr (language self)) ])
  end.


Definition load_speaker (self : interface) (path : pystr) : M pyval :=
  fun w =>
    match files w !! path with
    | None => (Raises (OSError "No such file or directory"), w)
    | Some Truncated => (Raises (ValueError "JSONDecodeError"), w)
    | Some (Document j) => (of_json j, w)
    end.

End WithDeps.

End Interface.
Export Interface.

(** ** The playback thread

    [generate_stream] starts one thread that runs [_audio_player] and talks
    to it through [self.audio_queue]. The two threads are modelled by the
    interleavings of their atomic steps: the calling thread performs, in
    order, the queue operations of its trace; the player takes an item when
    the queue has one ([Queue.get] blocks otherwise), plays it, and leaves
    its loop at the sentinel. [Thread.join] can only be passed once the
    player has ended. *)

Module Playback.

(** An operation of the calling thread on the queue or on the thread:
    [self.audio_queue.put(item)] and [audio_thread.join()]. *)
Inductive caller_op :=
| Put (item : option ModelOutput)
| Join.

(** The operations of the calling thread, read off a trace. *)
Fixpoint caller_ops (t : list event) : list caller_op :=
  match t with
  | [] => []
  | QueuePut item :: r => Put item :: caller_ops r
  | ThreadJoin :: r => Join :: caller_ops r
  | _ :: r => caller_ops r
  end.

(** Where the thread running [_audio_player] is: at
    [self.audio_queue.get()], in [chunk.play()], out of its loop after the
    [break], or ended by an exception of [chunk.play()]. *)
Inductive player :=
| Waiting
| Playing (chunk : ModelOutput)
| Stopped
| Crashed.

(** The two threads and the queue between them: what the calling thread
    still has to do, the items in the queue (the oldest first), where the
    player is, and the chunks whose [play()] has returned. *)
Record system := {
  pending : list caller_op;
  queue : list (option ModelOutput);
  consumer : player;
  played : list ModelOutput
}.

Inductive thread := Caller | Player.

(** One atomic step of one thread.
    - [step_put]: [self.audio_queue.put(item)]; the queue is unbounded, the
      call never blocks.
    - [step_join]: [audio_thread.join()], which returns only when the
      thread of the player has ended.
    - [step_get_chunk]: [chunk = self.audio_queue.get()] returns the oldest
      item, a chunk; on an empty queue the call blocks and there is no step.
    - [step_get_sentinel]: the same call returns [None], and the player
      leaves its loop.
    - [step_played]: [chunk.play()] returns, [task_done()] is called, and
      the player is back at [get()].
    - [step_play_raises]: [chunk.play()] raises, which ends the thread. *)
Inductive step : thread -> system -> system -> Prop :=
| step_put item ops q c pl :
    step Caller
      {| pending := Put item :: ops; queue := q; consumer := c;
         played := pl |}
      {| pending := ops; queue := q ++ [item]; consumer := c;
         played := pl |}
| step_join ops q c pl :
    c = Stopped \/ c = Crashed ->
    step Caller
      {| pending := Join :: ops; queue := q; consumer := c; played := pl |}
      {| pending := ops; queue := q; consumer := c; played := pl |}
| step_get_chunk chunk ops q pl :
    step Player
      {| pending := ops; queue := Some chunk :: q; consumer := Waiting;
         played := pl |}
      {| pending := ops; queue := q; consumer := Playing chunk;
         played := pl |}
| step_get_sentinel ops q pl :
    step Player
      {| pending := ops; queue := None :: q; consumer := Waiting;
         played := pl |}
      {| pending := ops; queue := q; consumer := Stopped; played := pl |}
| step_played chunk ops q pl :
    step Player
      {| pending := ops; queue := q; consumer := Playing chunk;
         played := pl |}
      {| pending := ops; queue := q; consumer := Waiting;
         played := pl ++ [chunk] |}
| step_play_raises chunk ops q pl :
    step Player
      {| pending := ops; queue := q; consumer := Playing chunk;
         played := pl |}
      {| pending := ops; queue := q; consumer := Crashed; played := pl |}.

Definition any_step (s s' : system) : Prop := exists t, step t s s'.

(** The system right after [audio_thread.start()]. *)
Definition started (ops : list caller_op) : system :=
  {| pending := ops; queue := []; consumer := Waiting; played := [] |}.

Definition reachable (ops : list caller_op) (s : system) : Prop :=
  rtc any_step (started ops) s.

(** What the calling thread does with the chunks of a stream: it puts them
    in order, puts the sentinel, and joins the player. *)
Definition put_chunks (chunks : list ModelOutput) : list caller_op :=
  map (fun c => Put (Some c)) chunks ++ [Put None; Join].

(** The items that the operations of a list put, in order. *)
Definition items_of (ops : list caller_op) : list (option ModelOutput) :=
  flat_map
    (fun op =>
       match op with
       | Put item => [item]
       | Join => []
       end) ops.

(** The item the player took last from the queue and has not played. *)
Inductive in_hand : player -> list (option ModelOutput) -> Prop :=
| hand_waiting : in_hand Waiting []
| hand_playing chunk : in_hand (Playing chunk) [Some chunk]
| hand_stopped : in_hand Stopped [None]
| hand_crashed chunk : in_hand Crashed [Some chunk].

(** The thread of the player has ended. *)
Definition ended (p : player) : Prop := p = Stopped \/ p = Crashed.

(** What holds in every state of the system: the chunks played, the item in
    the hand of the player, the queue and the items still to put make up, in
    this order, the chunks of the stream and the sentinel; and the calling
    thread is done only through its [join], which comes last. *)
Definition invariant (chunks : list ModelOutput) (s : system) : Prop :=
  (exists hand,
     in_hand (consumer s) hand
     /\ map Some (played s) ++ hand ++ queue s ++ items_of (pending s)
        = map Some chunks ++ [None])
  /\ ((pending s = [] /\ ended (consumer s))
      \/ exists before, pending s = before ++ [Join]).

Definition is_thread_start (e : event) : bool :=
  match e with
  | ThreadStart => true
  | _ => false
  end.

(** The state after the player has taken [item], the oldest of the queue:
    it plays a chunk, and it leaves its loop at the sentinel. *)
Definition taken (s : system) (item : option ModelOutput)
    (q : list (option ModelOutput)) : system :=
  {| pending := pending s;
     queue := q;
     consumer :=
       match item with
       | Some chunk => Playing chunk
       | None => Stopped
       end;
     played := played s |}.

(** The state after [chunk.play()] has returned. *)
Definition after_play (s : system) (chunk : ModelOutput) : system :=
  {| pending := pending s; queue := queue s; consumer := Waiting;
     played := played s ++ [chunk] |}.

(** The state in which everything is done: the chunks are played, the
    player has left its loop at the sentinel, and the calling thread has
    passed its [join]. *)
Definition finished (chunks : list ModelOutput) : system :=
  {| pending := []; queue := []; consumer := Stopped; played := chunks |}.

(** The discipline of the two threads, for the events [t] of a call and the
    chunks it produces: one playback thread is started; the calling thread
    puts the chunks, then the sentinel, and joins; and in every state the
    two threads can reach,
    - only the calling thread adds to the queue and only the player plays;
    - the chunks played are the first ones put, in the order in which they
      were put;
    - a player stopped at the sentinel has played all of them and plays
      nothing more;
    - the calling thread is done only when the thread of the player has
      ended;
    - a player that waits takes the oldest item as soon as the queue has
      one, to play it when it is a chunk and to leave its loop when it is
      the sentinel, and a chunk whose [play()] returns is played;
    - one of the two threads can go on, unless the calling thread has
      passed its [join];
    - when neither can go on, everything is [finished], unless a [play()]
      has raised and ended the thread of the player.
    The two threads come to an end, within three steps for each chunk and
    six more, and [finished] is reached when every [play()] returns. *)
Definition producer_consumer (t : list event) (chunks : list ModelOutput) :
    Prop :=
  List.filter is_thread_start t = [ThreadStart]
  /\ caller_ops t = put_chunks chunks
  /\ (forall s,
        reachable (caller_ops t) s ->
        (forall th s',
           step th s s' ->
           ((length (queue s) < length (queue s'))%nat -> th = Caller)
           /\ (played s' <> played s -> th = Player))
        /\ (exists rest, chunks = played s ++ rest)
        /\ (consumer s = Stopped ->
            played s = chunks
            /\ forall s',
                 rtc any_step s s' ->
                 consumer s' = Stopped /\ played s' = played s)
        /\ (pending s = [] -> ended (consumer s))
        /\ (forall item q,
              consumer s = Waiting -> queue s = item :: q ->
              step Player s (taken s item q))
        /\ (forall chunk,
              consumer s = Playing chunk ->
              step Player s (after_play s chunk))
        /\ (pending s = [] \/ exists th s', step th s s')
        /\ ((forall th s', ~ step th s s') ->
            s = finished chunks \/ (pending s = [] /\ consumer s = Crashed)))
  /\ (forall n s,
        nsteps any_step n (started (caller_ops t)) s ->
        (n <= 3 * (length chunks + 2))%nat)
  /\ reachable (caller_ops t) (finished chunks).

End Playback.
Export Playback.

(** ** The statements of the specification, as definitions *)

Module Spec.

(** [d[name]] for a string [name]. *)
Definition item (d : pyval) (name : string) : option pyval :=
  match d with
  | PyDict items => dict_get items (PyStr (of_string name))
  | _ => None
  end.

Section WithDeps.

Context {B : Type} (D : deps B).

(** The pipeline the three [generate] methods follow: build the completion
    prompt, validate [max_length], call the backend with the generation
    config, decode the audio tokens of its answer, return the
    [ModelOutput]. Its parameters are the three steps that belong to one
    runtime: the form in which the prompt is handed over, the part of the
    answer that is the completion, and the extra argument of the call. *)
Definition generate_pipeline (encode : pystr -> input_ids)
    (completion : input_ids -> list token -> list token)
    (dynamic : option pyval) (self : interface) (text : pystr)
    (speaker : option pyval) (temperature repetition_penalty : Q)
    (max_length : option Z) (additional_gen_config : pyval) :
    M (B := B) ModelOutput :=
  let prompt := get_completion_prompt D text (language self) speaker in
  let input_ids := encode prompt in
  when (verbose self)
    (log INFO (InputTokens (input_len input_ids));;
     log INFO GeneratingAudio);;
  check_generation_max_length self max_length;;
  output ← model_call D self input_ids
    {| gc_temperature := temperature;
       gc_repetition_penalty := repetition_penalty;
       gc_max_length := max_length;
       gc_additional_gen_config := additional_gen_config |} dynamic;
  audio ← get_audio D self (completion input_ids output);
  when (verbose self) (log INFO GenerationCompleted);;
  new_ModelOutput D audio (codec_sr D).

(** What [generate] ends with, for the codes it found in the completion:
    the [ModelOutput] of their audio, or whatever [ModelOutput(None, sr)]
    does when there is none. *)
Definition output_for (codes : list Z) : outcome ModelOutput :=
  match codes with
  | [] =>
      match model_output_none D with
      | Some e => Raises e
      | None => Returns {| mo_audio := None; mo_sr := codec_sr D |}
      end
  | _ =>
      Returns {| mo_audio := Some (codec_decode D codes);
                 mo_sr := codec_sr D |}
  end.

(** The slice of the codec's codes that belongs to each aligned word: from
    the frame where the previous word ends to the frame where it ends. *)
Fixpoint word_slices (full_codes : list Z) (words : list aligned_word)
    (start : Z) : list (list Z) :=
  match words with
  | [] => []
  | i :: rest =>
      slice full_codes start (frame_index D (aw_x1 i))
      :: word_slices full_codes rest (frame_index D (aw_x1 i))
  end.

(** The transcript [create_speaker] works with: the one passed in, or the
    one whisper produces when none is. *)
Definition effective_transcript (audio_path : pystr)
    (transcript : option pystr) (whisper_model : pystr)
    (whisper_device : option pystr) : pystr :=
  match transcript with
  | None => transcribe_once D audio_path whisper_model whisper_device
  | Some t => t
  end.

(** What [create_speaker] does to obtain it. *)
Definition transcription_events (audio_path : pystr)
    (transcript : option pystr) (whisper_model : pystr)
    (whisper_device : option pystr) : list event :=
  match transcript with
  | None =>
      [Log INFO TranscribingWithWhisper;
       Transcribe audio_path whisper_model whisper_device]
  | Some _ => []
  end.

(** The aligned words of a recording and the codes of their audio. *)
Definition aligned_words (self : interface) (audio_path t : pystr) :
    list aligned_word :=
  ctc_align D (languages self) (_device self) audio_path t (language self).

Definition codes_of_words (words : list aligned_word) : list Z :=
  codec_encode D
    (convert_audio_tensor D (concat (map aw_audio words))
       (ctc_sample_rate D)).

(** An entry of ["words"] for an aligned word whose slice of the codes is
    [sl]: it carries the word, the codes [codes_of sl] and the duration of
    these codes. *)
Definition entry_for (codes_of : list Z -> list Z) (word : aligned_word)
    (sl : list Z) (entry : pyval) : Prop :=
  item entry "word" = Some (PyStr (aw_word word))
  /\ item entry "codes" = Some (PyList (map PyInt (codes_of sl)))
  /\ item entry "duration"
     = Some (PyFloat (round_duration (Z.of_nat (length (codes_of sl))))).

(** A speaker profile for the transcript [t]: its text, the language of the
    interface, and one entry for each aligned word, in order. *)
Definition profile_for (codes_of : list Z -> list Z) (self : interface)
    (audio_path t : pystr) (d : pyval) : Prop :=
  item d "text" = Some (PyStr t)
  /\ item d "language" = Some (PyStr (language self))
  /\ exists entries,
       item d "words" = Some (PyList entries)
       /\ Forall2
            (fun ws entry => entry_for codes_of (fst ws) (snd ws) entry)
            (combine (aligned_words self audio_path t)
               (word_slices
                  (codes_of_words (aligned_words self audio_path t))
                  (aligned_words self audio_path t) 0))
            entries.

(** The chunks made from a list of buffers, as the events of the generator:
    each buffer is decoded whole, and the chunk is what follows the first
    [start] samples, [start] being the number of samples of the previous
    buffer. *)
Fixpoint chunk_events (buffers : list (list token)) (start : Z) :
    list event :=
  match buffers with
  | [] => []
  | b :: rest =>
      let codes := extract_audio_from_tokens D b in
      let a := codec_decode D codes in
      Decode codes
      :: Yield {| mo_audio := Some (slice_from a start);
                  mo_sr := codec_sr D |}
      :: chunk_events rest (Z.of_nat (length a))
  end.

(** The number of samples of the last of these buffers. *)
Fixpoint last_size (buffers : list (list token)) (start : Z) : Z :=
  match buffers with
  | [] => start
  | b :: rest =>
      last_size rest
        (Z.of_nat
           (length (codec_decode D (extract_audio_from_tokens D b))))
  end.

End WithDeps.

(** The number of occurrences of [code_end] in a list of tokens. *)
Definition count_code_end (code_end : token) (p : list token) : Z :=
  Z.of_nat (length (List.filter (Z.eqb code_end) p)).

(** A chunk is due after the tokens [p]: the last of them is [code_end], and
    with it [chunk_size] more occurrences of [code_end] have come since the
    previous chunk, that is, their number is a multiple of [chunk_size]. *)
Definition chunk_due (code_end : token) (chunk_size : Z) (p : list token) :
    bool :=
  match rev p with
  | [] => false
  | t :: _ =>
      (t =? code_end) && (count_code_end code_end p mod chunk_size =? 0)
  end.

(** The prefixes of [seen ++ rest] longer than [seen] after which a chunk
    is due, from the shortest to the longest. *)
Fixpoint due_buffers (code_end : token) (chunk_size : Z)
    (seen rest : list token) : list (list token) :=
  match rest with
  | [] => []
  | t :: r =>
      (if chunk_due code_end chunk_size (seen ++ [t]) then [seen ++ [t]]
       else [])
      ++ due_buffers code_end chunk_size (seen ++ [t]) r
  end.

(** The buffers a stream of tokens is cut into: the prefixes after which a
    chunk is due and, at the end, the whole stream when it has tokens. *)
Definition chunk_buffers (code_end : token) (chunk_size : Z)
    (tokens : list token) : list (list token) :=
  due_buffers code_end chunk_size [] tokens
  ++ match tokens with
     | [] => []
     | _ => [tokens]
     end.

(** The codes an entry carries for a slice: the slice itself, or the single
    code [1] when the slice is empty. *)
Definition codes_or_placeholder (sl : list Z) : list Z :=
  match sl with
  | [] => [1]
  | _ => sl
  end.


(** The strings of a list occur in a text one after the other, without
    overlap. *)
Inductive occur_in_order : list pystr -> pystr -> Prop :=
| occur_nil text : occur_in_order [] text
| occur_cons s rest before after :
    occur_in_order rest after ->
    occur_in_order (s :: rest) (before ++ s ++ after).

(** A code point of one of the default delimiters. *)
Definition is_delimiter_char (c : Z) : bool :=
  existsb (fun d => existsb (Z.eqb c) d) default_delimiters.

(** A text made of white space and of code points of the default
    delimiters only; the empty text is one. *)
Definition blank (text : pystr) : Prop :=
  Forall (fun c => isspace c = true \/ is_delimiter_char c = true) text.

(** [max_length] is missing or larger than the sequence length the
    interface was configured with. *)
Definition max_length_rejected (self : interface) (max_length : option Z) :
    Prop :=
  max_length = None
  \/ exists n, max_length = Some n /\ n > cfg_max_seq_length (config self).

(** A code point that occurs in no default delimiter. *)
Definition delimiter_free (c : Z) : Prop :=
  forall d, In d default_delimiters -> ~ In c d.

End Spec.
Export Spec.

(** ** Reading traces *)

Module Traces.

(** A computation only adds events to the trace, and all of them satisfy
    [P]. *)
Definition only_emits {B A : Type} (P : event -> Prop) (m : M (B := B) A) :
    Prop :=
  forall w, exists t, trace (snd (m w)) = trace w ++ t /\ Forall P t.

(** A call into the language model. *)
Definition is_generate (e : event) : bool :=
  match e with
  | Generate _ _ _ _ _ => true
  | _ => false
  end.

(** A forced alignment or an encoding by the audio codec. *)
Definition is_align_or_encode (e : event) : bool :=
  match e with
  | Align _ _ _ => true
  | Encode _ => true
  | _ => false
  end.

(** An event of the body of the [try] block of [generate_stream]: neither
    the sentinel nor an operation on the thread or on the queue as a
    whole. *)
Definition is_body_event (e : event) : bool :=
  match e with
  | QueuePut None => false
  | QueueNew | ThreadStart | ThreadJoin | QueueDel => false
  | _ => true
  end.

Definition body_event (e : event) : Prop := is_body_event e = true.

(** The world in which [generate_stream] enters its [try] block, when the
    text has segments: the queue exists, the thread runs, and the two
    messages about the text, and the one about [stream_segments], are
    logged. *)
Definition at_try {B : Type} (self : interface) (text : pystr)
    (stream_segments : bool) (w : world B) : world B :=
  let segments := split_text self text None in
  let n := Z.of_nat (length segments) in
  note w
    ([QueueNew; ThreadStart;
      Log INFO (ProcessingText (Z.of_nat (length text)));
      Log INFO (SplitInto n (Qmake (total_length segments) (Z.to_pos n)))]
     ++ if stream_segments then [Log INFO ChunkSizeIgnored] else []).

(** The body of the [try] block of [generate_stream], run from there. *)
Definition try_body {B : Type} (D : deps B) (self : interface)
    (text : pystr) (speaker : option pyval)
    (temperature repetition_penalty : Q) (max_length : option Z)
    (additional_gen_config additional_dynamic_generator_config : pyval)
    (chunk_size : Z) (stream_segments : bool) (w : world B) :
    outcome unit * world B :=
  let segments := split_text self text None in
  segments_loop D self speaker temperature repetition_penalty max_length
    additional_gen_config additional_dynamic_generator_config chunk_size
    stream_segments (Z.of_nat (length segments)) 0 segments
    (at_try self text stream_segments w).

(** What [generate_stream] does after its [try] block: it logs the
    exception, if one was caught, then puts the sentinel, joins the thread
    and deletes the queue. *)
Definition after_try (r : outcome unit) : list event :=
  match r with
  | Raises e => [Log ERROR (Exception e)]
  | Returns _ => []
  end ++ [QueuePut None; ThreadJoin; QueueDel].

(** The outcome of the [try] block is an exception that its [except] clause
    does not catch. *)
Definition escapes (r : outcome unit) : bool :=
  match r with
  | Raises e => negb (is_exception e)
  | Returns _ => false
  end.

End Traces.
Export Traces.

(** ** A small instance of the dependencies

    Concrete dependencies on which the interface can be run: a tokenizer
    with one token per code point, audio tokens from 1000 on (code [t - 1000]
    for the token [t]), a codec that renders every code as two samples, a
    language model that answers [reply] and streams [streamed], an aligner
    that returns [words], and a [ModelOutput] that fails on [None] as it
    does when it looks for the device of its tensor. *)

Module Demo.

Definition tokens_of (input : input_ids) : list token :=
  match input with
  | Tensor ids => ids
  | Tokens ids => ids
  | Prompt text => text
  end.

Definition demo (reply : list token) (streamed : list token * option exn)
    (words : list aligned_word) : deps unit :=
  {| get_completion_prompt := fun text _ _ => text;
     tokenizer_encode := fun prompt => prompt;
     special_code_end := [2];
     extract_audio_from_tokens :=
       fun tokens =>
         map (fun t => t - 1000) (List.filter (fun t => 1000 <=? t) tokens);
     codec_decode := fun codes => flat_map (fun c => [c; c]) codes;
     codec_sr := 24000;
     model_generate := fun _ b _ _ _ => (Returns reply, b);
     model_stream := fun _ b _ _ => (streamed, b);
     transcribe_once := fun _ _ _ => of_string "hello";
     ctc_align := fun _ _ _ _ _ => words;
     ctc_sample_rate := 16000;
     frame_index := fun x1 => (x1 * 75 + 8000) / 16000;
     convert_audio_tensor := fun a _ => a;
     codec_encode := fun a => a;
     model_output_none :=
       Some (AttributeError "'NoneType' object has no attribute 'device'");
     float_repr := fun _ => of_string "0.0";
     writable := fun _ => true |}.

Definition demo_config : ModelConfig :=
  {| cfg_language := of_string "en";
     cfg_languages := [of_string "en"];
     cfg_verbose := false;
     cfg_device := None;
     cfg_max_seq_length := 4096 |}.

(** Two aligned words that end in the same frame of the codec. *)
Definition two_words : list aligned_word :=
  [ {| aw_word := of_string "so"; aw_x1 := 320; aw_audio := [5; 6] |};
    {| aw_word := of_string "a"; aw_x1 := 400; aw_audio := [7] |} ].



(** A language model that streams one token, which is no audio token, and
    stops. *)
Definition demo_silent : deps unit := demo [] ([7], None) [].

(** A language model that streams two audio tokens around a [code_end]. *)
Definition demo_stream : deps unit := demo [] ([1001; 2; 1002], None) [].

(** Backends that follow their conventions: the answer of the Hugging Face
    model is the prompt followed by the completion, the answer of the two
    others is the completion. The completion is two audio tokens. *)
Definition demo_echo : deps unit :=
  {| get_completion_prompt := fun text _ _ => text;
     tokenizer_encode := fun prompt => prompt;
     special_code_end := [2];
     extract_audio_from_tokens :=
       fun tokens =>
         map (fun t => t - 1000) (List.filter (fun t => 1000 <=? t) tokens);
     codec_decode := fun codes => flat_map (fun c => [c; c]) codes;
     codec_sr := 24000;
     model_generate :=
       fun r b input _ _ =>
         (Returns
            (match r with
             | HF => tokens_of input ++ [1001; 1002]
             | _ => [1001; 1002]
             end), b);
     model_stream := fun _ b _ _ => (([], None), b);
     transcribe_once := fun _ _ _ => of_string "hello";
     ctc_align := fun _ _ _ _ _ => [];
     ctc_sample_rate := 16000;
     frame_index := fun x1 => (x1 * 75 + 8000) / 16000;
     convert_audio_tensor := fun a _ => a;
     codec_encode := fun a => a;
     model_output_none :=
       Some (AttributeError "'NoneType' object has no attribute 'device'");
     float_repr := fun _ => of_string "0.0";
     writable := fun _ => true |}.

(** A language model that streams one audio token and is interrupted from
    the keyboard. *)
Definition demo_interrupted : deps unit :=
  demo [] ([1001], Some KeyboardInterrupt) [].

Definition fresh : world unit :=
  {| sampler := tt; files := ∅; trace := [] |}.

End Demo.
Export Demo.

(** ** What a run shows *)

Module Observations.

(** The samples of the chunks a generator yields, one chunk after the
    other. *)
Definition yielded_audio (t : list event) : audio :=
  flat_map
    (fun e =>
       match e with
       | Yield {| mo_audio := Some a |} => a
       | _ => []
       end) t.

(** Each buffer of the list continues the one before it, and the first one
    continues [p]. *)
Fixpoint chain (p : list token) (buffers : list (list token)) : Prop :=
  match buffers with
  | [] => True
  | b :: rest => (exists q, b = p ++ q) /\ chain b rest
  end.

(** A codec and a prompt processor for which more tokens only add samples:
    the audio of a buffer is the beginning of the audio of every buffer that
    continues it. *)
Definition prefix_consistent {B : Type} (D : deps B) : Prop :=
  forall p q,
    exists more,
      codec_decode D (extract_audio_from_tokens D (p ++ q))
      = codec_decode D (extract_audio_from_tokens D p) ++ more.

(** The call of the backend that [_generate_stream] makes for a segment. *)
Definition segment_call {B : Type} (D : deps B) (self : interface)
    (speaker : option pyval) (temperature repetition_penalty : Q)
    (max_length : option Z) (additional_gen_config : pyval)
    (segment : pystr) : event :=
  Generate (runtime_of self) (prepare_prompt D self segment speaker)
    {| gc_temperature := temperature;
       gc_repetition_penalty := repetition_penalty;
       gc_max_length := max_length;
       gc_additional_gen_config := additional_gen_config |}
    true None.

(** The part of the answer of the backend that [generate] decodes: what
    follows the tokens of the prompt for the Hugging Face runtime, the whole
    answer for the two others. *)
Definition completion_of (self : interface) (input : input_ids)
    (output : list token) : list token :=
  match runtime_of self with
  | HF => slice_from output (input_len input)
  | _ => output
  end.

(** The last argument of the call of the backend in [generate]: only
    [InterfaceEXL2.generate] passes [additional_dynamic_generator_config]. *)
Definition dynamic_of (self : interface)
    (additional_dynamic_generator_config : pyval) : option pyval :=
  match runtime_of self with
  | EXL2 => Some additional_dynamic_generator_config
  | _ => None
  end.

(** What a verbose interface logs before it validates [max_length]. *)
Definition announce {B : Type} (D : deps B) (self : interface)
    (text : pystr) (speaker : option pyval) : list event :=
  if verbose self then
    [Log INFO (InputTokens (input_len (prepare_prompt D self text speaker)));
     Log INFO GeneratingAudio]
  else [].

(** The call of the backend that [generate] makes. *)
Definition generate_call {B : Type} (D : deps B) (self : interface)
    (text : pystr) (speaker : option pyval)
    (temperature repetition_penalty : Q) (max_length : option Z)
    (additional_gen_config additional_dynamic_generator_config : pyval) :
    event :=
  Generate (runtime_of self) (prepare_prompt D self text speaker)
    {| gc_temperature := temperature;
       gc_repetition_penalty := repetition_penalty;
       gc_max_length := max_length;
       gc_additional_gen_config := additional_gen_config |}
    false (dynamic_of self additional_dynamic_generator_config).

(** A language model that fails, with the other dependencies of [demo]. *)
Definition demo_failing : deps unit :=
  {| get_completion_prompt := fun text _ _ => text;
     tokenizer_encode := fun prompt => prompt;
     special_code_end := [2];
     extract_audio_from_tokens :=
       fun tokens =>
         map (fun t => t - 1000) (List.filter (fun t => 1000 <=? t) tokens);
     codec_decode := fun codes => flat_map (fun c => [c; c]) codes;
     codec_sr := 24000;
     model_generate :=
       fun _ b _ _ _ => (Raises (BackendError "out of memory"), b);
     model_stream :=
       fun _ b _ _ => (([1001], Some (BackendError "out of memory")), b);
     transcribe_once := fun _ _ _ => of_string "hello";
     ctc_align := fun _ _ _ _ _ => [];
     ctc_sample_rate := 16000;
     frame_index := fun x1 => (x1 * 75 + 8000) / 16000;
     convert_audio_tensor := fun a _ => a;
     codec_encode := fun a => a;
     model_output_none :=
       Some (AttributeError "'NoneType' object has no attribute 'device'");
     float_repr := fun _ => of_string "0.0";
     writable := fun path => negb (pystr_eqb path (of_string "/"));
   |}.

(** An event that is no call of the backend. *)
Definition quiet (e : event) : Prop := is_generate e = false.

(** An exception was logged. *)
Definition is_error_log (e : event) : bool :=
  match e with
  | Log ERROR (Exception _) => true
  | _ => false
  end.

(** A decoding by the audio codec. *)
Definition is_decode (e : event) : bool :=
  match e with
  | Decode _ => true
  | _ => false
  end.

(** The steps the two threads can still take, at most: three for every
    operation of the calling thread that is pending, two for every item in
    the queue, one for the chunk that is playing. *)
Definition steps_left (s : system) : nat :=
  3 * length (pending s) + 2 * length (queue s)
  + match consumer s with
    | Playing _ => 1
    | _ => 0
    end.

(** [d] occurs in [s]: [d in s] for two strings. *)
Definition occurs (d s : pystr) : Prop :=
  exists before after, s = before ++ d ++ after.

(** A language model that streams nine tokens: four occurrences of
    [code_end] (the token 2) among three audio tokens, then a fourth audio
    token, a fifth [code_end] and one token of text. *)
Definition demo_chunks : deps unit :=
  demo [] ([1001; 2; 1002; 2; 2; 2; 1003; 2; 7], None) [].



(** The integers of a list of integers. *)
Definition ints_of (v : pyval) : list Z :=
  match v with
  | PyList items =>
      flat_map
        (fun x =>
           match x with
           | PyInt z => [z]
           | _ => []
           end) items
  | _ => []
  end.

(** The codes an entry of ["words"] carries, and the codes of all the
    entries of a profile, one entry after the other. *)
Definition codes_of_entry (entry : pyval) : list Z :=
  match item entry "codes" with
  | Some v => ints_of v
  | None => []
  end.

Definition profile_codes (d : pyval) : list Z :=
  match item d "words" with
  | Some (PyList entries) => flat_map codes_of_entry entries
  | _ => []
  end.

(** Every word ends in a later frame than the word before it (than [start]
    for the first one), and none ends after the frame [limit]. *)
Fixpoint frames_increase {B : Type} (D : deps B)
    (words : list aligned_word) (start limit : Z) : Prop :=
  match words with
  | [] => True
  | i :: rest =>
      start < frame_index D (aw_x1 i) <= limit
      /\ frames_increase D rest (frame_index D (aw_x1 i)) limit
  end.

(** The frame in which the last word ends. *)
Fixpoint last_frame {B : Type} (D : deps B) (words : list aligned_word)
    (start : Z) : Z :=
  match words with
  | [] => start
  | i :: rest => last_frame D rest (frame_index D (aw_x1 i))
  end.

(** Two aligned words that end in different frames of the codec. *)
Definition spoken_words : list aligned_word :=
  [ {| aw_word := of_string "so"; aw_x1 := 320; aw_audio := [5; 6] |};
    {| aw_word := of_string "a"; aw_x1 := 640; aw_audio := [7; 8] |} ].

Definition is_transcribe (e : event) : bool :=
  match e with
  | Transcribe _ _ _ => true
  | _ => false
  end.

Definition is_align (e : event) : bool :=
  match e with
  | Align _ _ _ => true
  | _ => false
  end.

Definition is_encode (e : event) : bool :=
  match e with
  | Encode _ => true
  | _ => false
  end.

(** The interface with [verbose] set to [v]. *)
Definition with_verbose (self : interface) (v : bool) : interface :=
  {| runtime_of := runtime_of self;
     config := config self;
     _device := _device self;
     languages := languages self;
     language := language self;
     verbose := v |}.

(** Every event but the entries of the log at the level [INFO]. *)
Definition not_info (e : event) : bool :=
  match e with
  | Log INFO _ => false
  | _ => true
  end.

End Observations.
Export Observations.

(** ** The current language and the default speakers *)

Module DefaultSpeakers.

(** A string in the message of an exception: the bytes of its UTF-8
    encoding. *)
Definition byte (n : Z) : ascii := ascii_of_N (Z.to_N n).

Definition utf8 (c : Z) : list ascii :=
  if c <? 128 then [byte c]
  else if c <? 2048 then [byte (192 + c / 64); byte (128 + c mod 64)]
  else if c <? 65536 then
    [byte (224 + c / 4096); byte (128 + (c / 64) mod 64);
     byte (128 + c mod 64)]
  else
    [byte (240 + c / 262144); byte (128 + (c / 4096) mod 64);
     byte (128 + (c / 64) mod 64); byte (128 + c mod 64)].

Definition message_of (s : pystr) : string :=
  string_of_list_ascii (flat_map utf8 s).

(** [d[k]] and [k in d] for a dict whose keys are strings. *)
Fixpoint dict_lookup {A : Type} (d : list (pystr * A)) (k : pystr) :
    option A :=
  match d with
  | [] => None
  | (k', v) :: rest => if pystr_eqb k' k then Some v else dict_lookup rest k
  end.

Definition ascii_lower (c : Z) : Z :=
  if (65 <=? c) && (c <=? 90) then c + 32 else c.

Definition is_ascii (s : pystr) : bool :=
  forallb (fun c => (0 <=? c) && (c <? 128)) s.

Section WithPlatform.

(** [str.lower] on a string that has a code point beyond ASCII, where it
    follows the case mappings of Unicode. *)
Variable unicode_lower : pystr -> pystr.

(** [os.path.dirname(__file__)] and [os.path.join]. *)
Variable BASE_DIR : pystr.
Variable os_path_join : pystr -> pystr -> pystr.

(** [s.lower()]: on ASCII, the letters [A] to [Z] become [a] to [z]. *)
Definition lower (s : pystr) : pystr :=
  if is_ascii s then map ascii_lower s else unicode_lower s.

Definition DEFAULT_SPEAKERS_DIR : pystr :=
  os_path_join BASE_DIR (of_string "default_speakers").

Definition get_speaker_path (speaker_name : pystr) : pystr :=
  os_path_join DEFAULT_SPEAKERS_DIR (speaker_name ++ of_string ".json").

Definition _DEFAULT_SPEAKERS : list (pystr * list (pystr * pystr)) :=
  [ (of_string "en",
     [ (of_string "male_1", get_speaker_path (of_string "en_male_1"));
       (of_string "male_2", get_speaker_path (of_string "en_male_2"));
       (of_string "male_3", get_speaker_path (of_string "en_male_3"));
       (of_string "male_4", get_speaker_path (of_string "en_male_4"));
       (of_string "female_1", get_speaker_path (of_string "en_female_1"));
       (of_string "female_2", get_speaker_path (of_string "en_female_2")) ]);
    (of_string "ja",
     [ (of_string "male_1", get_speaker_path (of_string "ja_male_1"));
       (of_string "female_1", get_speaker_path (of_string "ja_female_1"));
       (of_string "female_2", get_speaker_path (of_string "ja_female_2"));
       (of_string "female_3", get_speaker_path (of_string "ja_female_3")) ]);
    (of_string "ko",
     [ (of_string "male_1", get_speaker_path (of_string "ko_male_1"));
       (of_string "male_2", get_speaker_path (of_string "ko_male_2"));
       (of_string "female_1", get_speaker_path (of_string "ko_female_1"));
       (of_string "female_2", get_speaker_path (of_string "ko_female_2")) ]);
    (of_string "zh",
     [ (of_string "male_1", get_speaker_path (of_string "zh_male_1"));
       (of_string "female_1", get_speaker_path (of_string "zh_female_1")) ])
  ].

Definition load_default_speaker {B : Type} (self : interface)
    (name : pystr) : M (B := B) pyval :=
  let name := strip (lower name) in
  let language := strip (lower (language self)) in
  match dict_lookup _DEFAULT_SPEAKERS language with
  | None =>
      raise
        (ValueError
           ("Speaker for language " +:+ message_of language
            +:+ " not found"))
  | Some speakers =>
      match dict_lookup speakers name with
      | None =>
          raise
            (ValueError
               ("Speaker " +:+ message_of name
                +:+ " not found for language " +:+ message_of language))
      | Some path => load_speaker self path
      end
  end.

(** [change_language] assigns [self.language]: it returns the interface with
    the new language. *)
Definition change_language (self : interface) (language : pystr) :
    outcome interface :=
  let language := strip (lower language) in
  if negb (existsb (pystr_eqb language) (languages self)) then
    Raises
      (ValueError
         ("Language " +:+ message_of language
          +:+ " is not supported by the current model"))
  else
    Returns
      {| runtime_of := runtime_of self;
         config := config self;
         _device := _device self;
         languages := languages self;
         language := language;
         verbose := verbose self |}.

End WithPlatform.

(** A platform to run examples on. *)
Definition posix_join (a b : pystr) : pystr := a ++ of_string "/" ++ b.

Definition upper_case_config : ModelConfig :=
  {| cfg_language := of_string "EN";
     cfg_languages := [of_string "EN"; of_string "JA"];
     cfg_verbose := false;
     cfg_device := None;
     cfg_max_seq_length := 4096 |}.

End DefaultSpeakers.
Export DefaultSpeakers.

(** * Properties *)

(** ** Strings *)

Module PyStrFacts.

Lemma lstrip_suffix (s : pystr) : exists pre, s = pre ++ lstrip s.
Proof.
  induction s as [|c r [pre IH]]; simpl.
  - exists []. reflexivity.
  - destruct (isspace c).
    + exists (c :: pre). simpl. congruence.
    + exists []. reflexivity.
Qed.

Lemma rstrip_prefix (s : pystr) : exists post, s = rstrip s ++ post.
Proof.
  induction s as [|c r [post IH]]; simpl.
  - exists []. reflexivity.
  - destruct (rstrip r) as [|x r'] eqn:E.
    + destruct (isspace c).
      * exists (c :: r). reflexivity.
      * exists post. simpl in *. congruence.
    + exists post. simpl in *. congruence.
Qed.

Lemma strip_infix (s : pystr) : exists pre post, s = pre ++ strip s ++ post.
Proof.
  unfold strip.
  destruct (lstrip_suffix s) as [pre Hpre].
  destruct (rstrip_prefix (lstrip s)) as [post Hpost].
  exists pre, post. congruence.
Qed.

Lemma lstrip_head (s : pystr) c r : lstrip s = c :: r -> isspace c = false.
Proof.
  induction s as [|x s IH]; simpl; [discriminate|].
  destruct (isspace x) eqn:E; [exact IH|].
  intros [= -> ->]. exact E.
Qed.

Lemma lstrip_fixed c r : isspace c = false -> lstrip (c :: r) = c :: r.
Proof. intros H. simpl. rewrite H. reflexivity. Qed.

Lemma rstrip_head c r :
  isspace c = false -> exists r', rstrip (c :: r) = c :: r'.
Proof.
  intros H. simpl. destruct (rstrip r) as [|x r'].
  - rewrite H. eauto.
  - eauto.
Qed.

Lemma rstrip_cons c r x r' :
  rstrip r = x :: r' -> rstrip (c :: r) = c :: x :: r'.
Proof. intros H. simpl. rewrite H. reflexivity. Qed.

Lemma rstrip_idem (s : pystr) : rstrip (rstrip s) = rstrip s.
Proof.
  induction s as [|c r IH]; simpl; [reflexivity|].
  destruct (rstrip r) as [|x r'] eqn:E.
  - destruct (isspace c) eqn:Hc; simpl; [reflexivity|].
    rewrite Hc. reflexivity.
  - apply rstrip_cons. exact IH.
Qed.

Lemma strip_idem (s : pystr) : strip (strip s) = strip s.
Proof.
  unfold strip. destruct (lstrip s) as [|c r] eqn:E; [reflexivity|].
  pose proof (lstrip_head _ _ _ E) as Hc.
  destruct (rstrip_head c r Hc) as [r' Hr]. rewrite Hr.
  rewrite (lstrip_fixed _ _ Hc). rewrite <- Hr. apply rstrip_idem.
Qed.

Lemma strip_incl (s : pystr) c : In c (strip s) -> In c s.
Proof.
  destruct (strip_infix s) as (pre & post & H). intros Hin.
  rewrite H. apply in_or_app. right. apply in_or_app. left. exact Hin.
Qed.

Lemma starts_with_app (d text : pystr) :
  starts_with d text = true -> exists rest, text = d ++ rest.
Proof.
  revert text. induction d as [|x d IH]; intros text H; simpl in *.
  - eauto.
  - destruct text as [|y text]; [discriminate|].
    apply andb_prop in H as [Hxy H]. apply Z.eqb_eq in Hxy. subst y.
    destruct (IH _ H) as [rest ->]. eauto.
Qed.

Lemma first_match_spec alts text d :
  first_match alts text = Some d ->
  In d alts /\ d <> [] /\ exists rest, text = d ++ rest.
Proof.
  unfold first_match. intros H. apply find_some in H as [Hin H].
  apply andb_prop in H as [Hne H]. repeat split; [exact Hin| |].
  - intros ->. discriminate.
  - apply starts_with_app. exact H.
Qed.

End PyStrFacts.

(** ** Splitting a text into segments *)

Module SplitText.
Import PyStrFacts.

Lemma occur_in_order_app_l (l : list pystr) (x text : pystr) :
  occur_in_order l text -> occur_in_order l (x ++ text).
Proof.
  intros H. destruct H as [text|s rest before after H].
  - constructor.
  - rewrite app_assoc. constructor. exact H.
Qed.

Lemma occur_in_order_strip (l : list pystr) (text : pystr) :
  occur_in_order l text -> occur_in_order (map strip l) text.
Proof.
  induction 1 as [text|s rest before after H IH]; simpl.
  - constructor.
  - destruct (strip_infix s) as (a & b & Hs).
    rewrite Hs at 2.
    replace (before ++ (a ++ strip s ++ b) ++ after)
      with ((before ++ a) ++ strip s ++ (b ++ after))
      by (rewrite <- !app_assoc; reflexivity).
    constructor. apply occur_in_order_app_l. exact IH.
Qed.

Lemma occur_in_order_filter (f : pystr -> bool) (l : list pystr)
    (text : pystr) :
  occur_in_order l text -> occur_in_order (List.filter f l) text.
Proof.
  induction 1 as [text|s rest before after H IH]; simpl.
  - constructor.
  - destruct (f s).
    + constructor. exact IH.
    + rewrite app_assoc. apply occur_in_order_app_l. exact IH.
Qed.

(** The pieces [re.split] returns lie in the text in the order of the
    list: the first one continues [piece] right after the [skip] code points
    that end the current match. *)
Lemma re_split_go_order alts text skip piece :
  exists q qs after,
    re_split_go alts text skip piece = (piece ++ q) :: qs
    /\ skipn skip text = q ++ after
    /\ occur_in_order qs after.
Proof.
  revert skip piece. induction text as [|c rest IH]; intros skip piece.
  - exists [], [], []. simpl. rewrite app_nil_r. rewrite skipn_nil.
    repeat split. constructor.
  - destruct skip as [|k]; simpl.
    + destruct (first_match alts (c :: rest)) as [d|] eqn:E.
      * destruct (IH (length d - 1)%nat []) as (q & qs & after & H1 & H2 & H3).
        exists [], (q :: qs), (c :: rest). rewrite app_nil_r, H1.
        repeat split.
        rewrite <- (firstn_skipn (length d - 1) rest), H2.
        change (occur_in_order (q :: qs)
                  ((c :: firstn (length d - 1) rest) ++ q ++ after)).
        constructor. exact H3.
      * destruct (IH 0%nat (piece ++ [c])) as (q & qs & after & H1 & H2 & H3).
        exists (c :: q), qs, after. rewrite H1, <- app_assoc.
        change (drop 0 rest) with rest in H2.
        split; [reflexivity|]. split; [simpl; congruence|exact H3].
    + destruct (IH k piece) as (q & qs & after & H1 & H2 & H3).
      exists q, qs, after. repeat split; assumption.
Qed.

Lemma re_split_order alts text : occur_in_order (re_split alts text) text.
Proof.
  unfold re_split.
  destruct (re_split_go_order alts text 0 []) as (q & qs & after & H1 & H2 & H3).
  rewrite H1. change (drop 0 text) with text in H2. rewrite H2.
  change (occur_in_order (q :: qs) ([] ++ q ++ after)).
  constructor. exact H3.
Qed.

(** A code point enters a piece only where no alternative matches. *)
Lemma re_split_go_pieces (Q P : Z -> Prop) alts :
  (forall c rest, Q c -> first_match alts (c :: rest) = None -> P c) ->
  forall text skip piece,
    Forall Q text ->
    Forall P piece ->
    Forall (Forall P) (re_split_go alts text skip piece).
Proof.
  intros HP. induction text as [|c rest IH];
    intros skip piece Htext Hpiece; simpl.
  - constructor; [exact Hpiece|constructor].
  - inversion Htext as [|? ? Hc Hrest]; subst. destruct skip as [|k].
    + destruct (first_match alts (c :: rest)) as [d|] eqn:E.
      * constructor; [exact Hpiece|]. apply IH; [exact Hrest|constructor].
      * apply IH; [exact Hrest|]. apply Forall_app. split; [exact Hpiece|].
        constructor; [|constructor]. eapply HP; [exact Hc|exact E].
    + apply IH; assumption.
Qed.

Lemma default_no_match c rest :
  first_match default_delimiters (c :: rest) = None -> delimiter_free c.
Proof.
  intros H d Hd Hc. unfold first_match in H.
  pose proof (find_none _ _ H) as Hn. clear H.
  assert (Hsingle : forall x, In [x] default_delimiters -> x <> c).
  { intros x Hx ->. specialize (Hn _ Hx). simpl in Hn.
    rewrite Z.eqb_refl in Hn. discriminate. }
  unfold default_delimiters in Hd, Hsingle. simpl in Hd.
  repeat (destruct Hd as [<-|Hd]); try contradiction;
    simpl in Hc;
    repeat (destruct Hc as [Hc|Hc]); try contradiction;
    (eapply Hsingle; [|exact Hc]); simpl; tauto.
Qed.

(** C8. For every input text, every string [split_text] returns with the
    default delimiters is non-empty, equals its own [strip], contains none
    of the code points of the delimiters, and the strings returned occur in
    the input text in the order of the list. *)
Theorem split_text_segments (self : interface) (text : pystr) :
  Forall
    (fun s =>
       s <> []
       /\ strip s = s
       /\ forall d, In d default_delimiters -> forall c, In c d -> ~ In c s)
    (split_text self text None)
  /\ occur_in_order (split_text self text None) text.
Proof.
  unfold split_text. split.
  - apply List.Forall_forall. intros s Hs.
    apply filter_In in Hs as [Hs Hne].
    apply in_map_iff in Hs as (r & <- & Hr).
    split; [|split].
    + intros E. rewrite E in Hne. discriminate.
    + apply strip_idem.
    + intros d Hd c Hc Hin. apply strip_incl in Hin.
      assert (Hclean : Forall (Forall delimiter_free)
                         (re_split default_delimiters text)).
      { apply (re_split_go_pieces (fun _ => True));
          [|apply List.Forall_forall; auto|constructor].
        intros c' rest _. apply default_no_match. }
      rewrite List.Forall_forall in Hclean. specialize (Hclean _ Hr).
      rewrite List.Forall_forall in Hclean. exact (Hclean _ Hin d Hd Hc).
  - apply occur_in_order_filter, occur_in_order_strip, re_split_order.
Qed.

Lemma strip_spaces (s : pystr) :
  Forall (fun c => isspace c = true) s -> strip s = [].
Proof.
  intros H. unfold strip.
  assert (E : lstrip s = []).
  { induction H as [|c r Hc _ IH]; simpl; [reflexivity|].
    rewrite Hc. exact IH. }
  rewrite E. reflexivity.
Qed.

Lemma delimiter_char_matches c rest :
  is_delimiter_char c = true ->
  first_match default_delimiters (c :: rest) <> None.
Proof.
  intros H Hnone. unfold is_delimiter_char in H.
  apply existsb_exists in H as (d & Hd & H).
  apply existsb_exists in H as (x & Hx & H).
  apply Z.eqb_eq in H. subst x.
  exact (default_no_match c rest Hnone d Hd Hx).
Qed.

(** A blank text has no segment: this is the case, among others, of the
    empty text and of a text of punctuation and white space. *)
Lemma split_text_blank (self : interface) (text : pystr) :
  blank text -> split_text self text None = [].
Proof.
  intros Hblank. unfold split_text.
  assert (Hpieces : Forall (Forall (fun c => isspace c = true))
                      (re_split default_delimiters text)).
  { apply (re_split_go_pieces
             (fun c => isspace c = true \/ is_delimiter_char c = true));
      [|exact Hblank|constructor].
    intros c rest [Hc|Hc] Hnone; [exact Hc|].
    destruct (delimiter_char_matches c rest Hc Hnone). }
  induction Hpieces as [|piece pieces Hp _ IH]; simpl; [reflexivity|].
  rewrite (strip_spaces piece Hp). simpl. exact IH.
Qed.

End SplitText.

(** ** Computations *)

(** Unfolds the operations of [M] in a run. *)
Ltac run := cbv [when mbind M_bind bind log emit ret raise try_except].

Module MonadFacts.

Section WithState.

Context {B : Type}.

Implicit Types w : world B.

Lemma bind_run {A C : Type} (m : M (B := B) A) (k : A -> M C) w :
  (m ≫= k) w =
  match m w with
  | (Returns a, w') => k a w'
  | (Raises e, w') => (Raises e, w')
  end.
Proof. reflexivity. Qed.

Lemma bind_returns {A C : Type} (m : M (B := B) A) (k : A -> M C) w a w' :
  m w = (Returns a, w') -> (m ≫= k) w = k a w'.
Proof. intros H. rewrite bind_run, H. reflexivity. Qed.

Lemma bind_raises {A C : Type} (m : M (B := B) A) (k : A -> M C) w e w' :
  m w = (Raises e, w') -> (m ≫= k) w = (Raises e, w').
Proof. intros H. rewrite bind_run, H. reflexivity. Qed.

Lemma note_note w (t t' : list event) : note (note w t) t' = note w (t ++ t').
Proof. unfold note. simpl. rewrite app_assoc. reflexivity. Qed.

Lemma note_nil w : note w [] = w.
Proof. unfold note. rewrite app_nil_r. destruct w. reflexivity. Qed.

Lemma only_emits_ret {A : Type} (P : event -> Prop) (a : A) :
  only_emits (B := B) P (ret a).
Proof. intros w. exists []. simpl. rewrite app_nil_r. auto. Qed.

Lemma only_emits_raise {A : Type} (P : event -> Prop) (e : exn) :
  only_emits (B := B) (A := A) P (raise e).
Proof. intros w. exists []. simpl. rewrite app_nil_r. auto. Qed.

Lemma only_emits_emit (P : event -> Prop) (e : event) :
  P e -> only_emits (B := B) P (emit e).
Proof. intros H w. exists [e]. simpl. auto. Qed.

Lemma only_emits_bind {A C : Type} (P : event -> Prop)
    (m : M (B := B) A) (k : A -> M C) :
  only_emits P m -> (forall a, only_emits P (k a)) ->
  only_emits P (m ≫= k).
Proof.
  intros Hm Hk w. rewrite bind_run.
  destruct (Hm w) as (t & Ht & HP). destruct (m w) as [[a|e] w']; simpl in *.
  - destruct (Hk a w') as (t' & Ht' & HP'). exists (t ++ t').
    rewrite Ht', Ht, app_assoc. split; [reflexivity|].
    apply Forall_app. auto.
  - exists t. auto.
Qed.

Lemma only_emits_when (P : event -> Prop) (b : bool) (m : M (B := B) unit) :
  only_emits P m -> only_emits P (when b m).
Proof. destruct b; simpl; [auto|]. intros _. apply only_emits_ret. Qed.

Lemma only_emits_try_except (P : event -> Prop) (m : M (B := B) unit)
    (h : exn -> M unit) :
  only_emits P m -> (forall e, only_emits P (h e)) ->
  only_emits P (try_except m h).
Proof.
  intros Hm Hh w. unfold try_except.
  destruct (Hm w) as (t & Ht & HP). destruct (m w) as [[a|e] w']; simpl in *.
  - exists t. auto.
  - destruct (is_exception e); [|exists t; auto].
    destruct (Hh e w') as (t' & Ht' & HP'). exists (t ++ t').
    rewrite Ht', Ht, app_assoc. split; [reflexivity|].
    apply Forall_app. auto.
Qed.

End WithState.

End MonadFacts.

(** ** Validation of [max_length] *)

Module Generation.
Import MonadFacts.
Section WithDeps.
Context {B : Type} (D : deps B).
Implicit Types w : world B.


Lemma check_rejected self max_length :
  max_length_rejected self max_length ->
  exists msg, forall w,
    check_generation_max_length (B := B) self max_length w
    = (Raises (ValueError msg), w).
Proof.
  intros [->|(n & -> & Hn)]; simpl.
  - eexists. intros w. reflexivity.
  - assert (E : (cfg_max_seq_length (config self) <? n) = true)
      by (apply Z.ltb_lt; lia).
    rewrite E. eexists. intros w. reflexivity.
Qed.

Lemma check_accepted self n w :
  n <= cfg_max_seq_length (config self) ->
  check_generation_max_length (B := B) self (Some n) w = (Returns tt, w).
Proof.
  intros Hn. simpl.
  assert (E : (cfg_max_seq_length (config self) <? n) = false)
    by (apply Z.ltb_ge; lia).
  rewrite E. reflexivity.
Qed.

Lemma check_raises_iff self max_length w :
  (exists msg,
     fst (check_generation_max_length (B := B) self max_length w)
     = Raises (ValueError msg))
  <-> max_length_rejected self max_length.
Proof.
  split.
  - intros [msg H]. destruct max_length as [n|]; [|left; reflexivity].
    right. exists n. split; [reflexivity|].
    destruct (Z_le_gt_dec n (cfg_max_seq_length (config self))) as [Hle|Hgt];
      [|exact Hgt].
    rewrite (check_accepted self n w Hle) in H. discriminate.
  - intros H. destruct (check_rejected self max_length H) as [msg Hmsg].
    exists msg. rewrite Hmsg. reflexivity.
Qed.

Lemma generate_rejected self text speaker temperature repetition_penalty
    max_length additional_gen_config additional_dynamic_generator_config :
  max_length_rejected self max_length ->
  exists msg, forall w,
    generate D self text speaker temperature repetition_penalty max_length
      additional_gen_config additional_dynamic_generator_config w
    = (Raises (ValueError msg),
       note w
         (if verbose self then
            [Log INFO
               (InputTokens (input_len (prepare_prompt D self text speaker)));
             Log INFO GeneratingAudio]
          else [])).
Proof.
  intros H. destruct (check_rejected self max_length H) as [msg Hmsg].
  exists msg. intros w.
  unfold generate, InterfaceHF_generate, InterfaceGGUF_generate,
    InterfaceEXL2_generate.
  destruct (runtime_of self), (verbose self); run; rewrite Hmsg;
    rewrite ?note_note, ?note_nil; reflexivity.
Qed.

Lemma _generate_stream_rejected self text speaker temperature
    repetition_penalty max_length additional_gen_config
    additional_dynamic_generator_config chunk_size stream_segments :
  max_length_rejected self max_length ->
  exists e, forall yield_ w,
    _generate_stream D self text speaker temperature repetition_penalty
      max_length additional_gen_config additional_dynamic_generator_config
      chunk_size stream_segments yield_ w
    = (Raises e, w).
Proof.
  intros H. destruct (check_rejected self max_length H) as [msg Hmsg].
  unfold _generate_stream. destruct (chunk_size <? 4).
  - eexists. intros yield_ w. reflexivity.
  - exists (ValueError msg). intros yield_ w. run. rewrite Hmsg. reflexivity.
Qed.

Lemma length_cons_nonzero {A : Type} (x : A) (l : list A) :
  (Z.of_nat (length (x :: l)) =? 0) = false.
Proof. apply Z.eqb_neq. simpl length. lia. Qed.

Lemma generate_stream_rejected self text speaker temperature
    repetition_penalty max_length additional_gen_config
    additional_dynamic_generator_config chunk_size stream_segments w :
  max_length_rejected self max_length ->
  exists r t,
    generate_stream D self text speaker temperature repetition_penalty
      max_length additional_gen_config additional_dynamic_generator_config
      chunk_size stream_segments w
    = (r, note w t)
    /\ Forall (fun e => is_generate e = false) t.
Proof.
  intros H.
  unfold generate_stream. run.
  destruct (split_text self text None) as [|segment rest] eqn:E.
  - simpl. do 2 eexists. rewrite !note_note. split; [reflexivity|].
    repeat constructor.
  - destruct (_generate_stream_rejected self segment speaker temperature
                repetition_penalty max_length additional_gen_config
                additional_dynamic_generator_config chunk_size
                stream_segments H) as [e He].
    rewrite length_cons_nonzero.
    simpl segments_loop. run.
    destruct stream_segments; rewrite He; destruct (is_exception e);
      do 2 eexists; rewrite !note_note;
      (split; [reflexivity|]); repeat constructor.
Qed.

(** C1. For every interface and every call to [generate] or
    [generate_stream], [check_generation_max_length] raises [ValueError] if
    and only if [max_length] is [None] or larger than
    [config.max_seq_length]; [max_length] equal to [max_seq_length] is
    accepted; and when it raises, the language model is not called: the
    call adds no [Generate] event and leaves the sampler as it was. *)
Theorem check_generation_max_length_guards (self : interface)
    (max_length : option Z) :
  (forall w,
     (exists msg,
        fst (check_generation_max_length (B := B) self max_length w)
        = Raises (ValueError msg))
     <-> max_length_rejected self max_length)
  /\ (forall w,
        check_generation_max_length (B := B) self
          (Some (cfg_max_seq_length (config self))) w
        = (Returns tt, w))
  /\ (max_length_rejected self max_length ->
      forall text speaker temperature repetition_penalty
             additional_gen_config additional_dynamic_generator_config w,
      exists msg t,
        generate D self text speaker temperature repetition_penalty
          max_length additional_gen_config
          additional_dynamic_generator_config w
        = (Raises (ValueError msg), note w t)
        /\ fst (check_generation_max_length (B := B) self max_length w)
           = Raises (ValueError msg)
        /\ Forall (fun e => is_generate e = false) t)
  /\ (max_length_rejected self max_length ->
      forall text speaker temperature repetition_penalty
             additional_gen_config additional_dynamic_generator_config
             chunk_size stream_segments w,
      exists r t,
        generate_stream D self text speaker temperature repetition_penalty
          max_length additional_gen_config
          additional_dynamic_generator_config chunk_size stream_segments w
        = (r, note w t)
        /\ Forall (fun e => is_generate e = false) t).
Proof.
  split; [|split; [|split]].
  - intros w. apply check_raises_iff.
  - intros w. apply check_accepted. lia.
  - intros H text speaker temperature repetition_penalty
      additional_gen_config additional_dynamic_generator_config w.
    destruct (check_rejected self max_length H) as [msg Hmsg].
    destruct (generate_rejected self text speaker temperature
                repetition_penalty max_length additional_gen_config
                additional_dynamic_generator_config H) as [msg' Hgen].
    assert (msg' = msg) as ->.
    { specialize (Hgen w). revert Hgen.
      unfold generate, InterfaceHF_generate, InterfaceGGUF_generate,
        InterfaceEXL2_generate.
      destruct (runtime_of self), (verbose self); run; rewrite Hmsg;
        congruence. }
    exists msg. eexists. split; [apply Hgen|]. split.
    + rewrite Hmsg. reflexivity.
    + destruct (verbose self); repeat constructor.
  - intros H text speaker temperature repetition_penalty
      additional_gen_config additional_dynamic_generator_config
      chunk_size stream_segments w.
    apply generate_stream_rejected. exact H.
Qed.

End WithDeps.

(** The theorem on a call of the Hugging Face interface that asks for 5000
    tokens when 4096 are configured. *)
Lemma check_generation_max_length_guards_witness :
  max_length_rejected (InterfaceHF demo_config) (Some 5000)
  /\ exists msg t,
       generate (demo [] ([], None) []) (InterfaceHF demo_config)
         (of_string "Hi") None 0.1%Q 1.1%Q (Some 5000) (PyDict []) (PyDict [])
         fresh
       = (Raises (ValueError msg), note fresh t)
       /\ fst (check_generation_max_length (InterfaceHF demo_config)
                 (Some 5000) fresh)
          = Raises (ValueError msg)
       /\ Forall (fun e => is_generate e = false) t.
Proof.
  assert (H : max_length_rejected (InterfaceHF demo_config) (Some 5000)).
  { right. exists 5000. split; [reflexivity|]. reflexivity. }
  split; [exact H|].
  exact (proj1 (proj2 (proj2
           (check_generation_max_length_guards (demo [] ([], None) [])
              (InterfaceHF demo_config) (Some 5000))))
           H (of_string "Hi") None 0.1%Q 1.1%Q (PyDict []) (PyDict []) fresh).
Defined.

End Generation.

(** ** Streaming to the playback queue *)

Module Streaming.
Import MonadFacts Generation.

Section WithDeps.

Context {B : Type} (D : deps B).

Implicit Types w : world B.

Lemma get_audio_emits self tokens :
  only_emits body_event (get_audio D self tokens).
Proof.
  unfold get_audio. destruct (extract_audio_from_tokens D tokens).
  - apply only_emits_bind; [apply only_emits_emit; reflexivity|].
    intros _. apply only_emits_ret.
  - apply only_emits_bind; [apply only_emits_emit; reflexivity|].
    intros _. apply only_emits_ret.
Qed.

Lemma _create_audio_chunk_emits self tokens idx :
  only_emits body_event (_create_audio_chunk D self tokens idx).
Proof.
  unfold _create_audio_chunk. apply only_emits_bind.
  - apply get_audio_emits.
  - intros [a|]; [apply only_emits_ret|apply only_emits_raise].
Qed.

Lemma model_call_stream_emits self input cfg :
  only_emits body_event (model_call_stream D self input cfg).
Proof.
  intros w. unfold model_call_stream.
  destruct (model_stream D (runtime_of self) (sampler w) input cfg) as [r b].
  eexists. simpl. split; [reflexivity|]. repeat constructor.
Qed.

Lemma stream_loop_emits self code_end_token chunk_size stream_segments
    yield_ tokens :
  (forall o, only_emits body_event (yield_ o)) ->
  forall st,
    only_emits body_event
      (stream_loop D self code_end_token chunk_size stream_segments yield_
         tokens st).
Proof.
  intros Hy. induction tokens as [|token rest IH]; intros st; simpl.
  - apply only_emits_ret.
  - apply only_emits_bind; [|intros st'; apply IH].
    destruct stream_segments; [apply only_emits_ret|].
    destruct (_ =? chunk_size); [|apply only_emits_ret].
    apply only_emits_bind; [apply _create_audio_chunk_emits|].
    intros [output size]. apply only_emits_bind; [apply Hy|].
    intros _. apply only_emits_ret.
Qed.

Lemma check_emits self max_length :
  only_emits (B := B) body_event
    (check_generation_max_length self max_length).
Proof.
  unfold check_generation_max_length. destruct max_length as [n|].
  - destruct (_ <? n); [apply only_emits_raise|apply only_emits_ret].
  - apply only_emits_raise.
Qed.

Lemma _generate_stream_emits self text speaker temperature
    repetition_penalty max_length additional_gen_config
    additional_dynamic_generator_config chunk_size stream_segments yield_ :
  (forall o, only_emits body_event (yield_ o)) ->
  only_emits body_event
    (_generate_stream D self text speaker temperature repetition_penalty
       max_length additional_gen_config additional_dynamic_generator_config
       chunk_size stream_segments yield_).
Proof.
  intros Hy. unfold _generate_stream.
  destruct (chunk_size <? 4); [apply only_emits_raise|].
  apply only_emits_bind; [apply check_emits|]. intros _.
  apply only_emits_bind.
  { destruct (tokenizer_encode D (special_code_end D));
      [apply only_emits_raise|apply only_emits_ret]. }
  intros code_end_token.
  apply only_emits_bind; [apply model_call_stream_emits|].
  intros [tokens failure].
  apply only_emits_bind; [apply stream_loop_emits; exact Hy|].
  intros st. destruct failure; [apply only_emits_raise|].
  destruct (audio_buffer st); [apply only_emits_ret|].
  apply only_emits_bind; [apply _create_audio_chunk_emits|].
  intros [output size]. apply Hy.
Qed.

Lemma segments_loop_emits self speaker temperature repetition_penalty
    max_length additional_gen_config additional_dynamic_generator_config
    chunk_size stream_segments total segments :
  forall idx,
    only_emits body_event
      (segments_loop D self speaker temperature repetition_penalty
         max_length additional_gen_config
         additional_dynamic_generator_config chunk_size stream_segments
         total idx segments).
Proof.
  induction segments as [|segment rest IH]; intros idx; simpl.
  - apply only_emits_ret.
  - apply only_emits_bind; [apply only_emits_emit; reflexivity|]. intros _.
    apply only_emits_bind; [|intros _; apply IH].
    apply _generate_stream_emits. intros o.
    apply only_emits_emit. reflexivity.
Qed.

(** The run of [generate_stream] on a text that has segments, from the run
    of the body of its [try] block: an exception of the body that the
    [except] clause does not catch ends the call there; otherwise the
    exception, if there is one, is logged, and the call goes on to the
    sentinel and the join. *)
Lemma generate_stream_run self text speaker temperature repetition_penalty
    max_length additional_gen_config additional_dynamic_generator_config
    chunk_size stream_segments w :
  split_text self text None <> [] ->
  generate_stream D self text speaker temperature repetition_penalty
    max_length additional_gen_config additional_dynamic_generator_config
    chunk_size stream_segments w
  = if escapes
         (fst (try_body D self text speaker temperature repetition_penalty
                 max_length additional_gen_config
                 additional_dynamic_generator_config chunk_size
                 stream_segments w))
    then
      try_body D self text speaker temperature repetition_penalty
        max_length additional_gen_config
        additional_dynamic_generator_config chunk_size stream_segments w
    else
      (Returns tt,
       note
         (snd (try_body D self text speaker temperature repetition_penalty
                 max_length additional_gen_config
                 additional_dynamic_generator_config chunk_size
                 stream_segments w))
         (after_try
            (fst (try_body D self text speaker temperature
                    repetition_penalty max_length additional_gen_config
                    additional_dynamic_generator_config chunk_size
                    stream_segments w)))).
Proof.
  intros Hne. unfold try_body, at_try.
  destruct (split_text self text None) as [|segment rest] eqn:E;
    [contradiction|].
  unfold generate_stream, after_try, escapes. run. rewrite E.
  rewrite length_cons_nonzero.
  destruct stream_segments; rewrite !note_note; cbn [app];
    match goal with
    | |- context [segments_loop ?d ?s ?sp ?t ?r ?m ?a ?b ?c ?ss ?n ?i ?l ?w0] =>
        destruct (segments_loop d s sp t r m a b c ss n i l w0)
          as [[[]|e] w1]
    end; cbn [fst snd app]; try destruct (is_exception e);
    cbn [negb]; rewrite ?note_note; reflexivity.
Qed.

(** The same run, when the [except] clause catches what the body raises. *)
Lemma generate_stream_caught self text speaker temperature
    repetition_penalty max_length additional_gen_config
    additional_dynamic_generator_config chunk_size stream_segments w :
  split_text self text None <> [] ->
  escapes
    (fst (try_body D self text speaker temperature repetition_penalty
            max_length additional_gen_config
            additional_dynamic_generator_config chunk_size
            stream_segments w))
  = false ->
  generate_stream D self text speaker temperature repetition_penalty
    max_length additional_gen_config additional_dynamic_generator_config
    chunk_size stream_segments w
  = (Returns tt,
     note
       (snd (try_body D self text speaker temperature repetition_penalty
               max_length additional_gen_config
               additional_dynamic_generator_config chunk_size
               stream_segments w))
       (after_try
          (fst (try_body D self text speaker temperature repetition_penalty
                  max_length additional_gen_config
                  additional_dynamic_generator_config chunk_size
                  stream_segments w)))).
Proof.
  intros Hne Hcaught. rewrite generate_stream_run by exact Hne.
  rewrite Hcaught. reflexivity.
Qed.

(** The body of the [try] block puts no sentinel and joins no thread. *)
Lemma try_body_emits self text speaker temperature repetition_penalty
    max_length additional_gen_config additional_dynamic_generator_config
    chunk_size stream_segments w :
  exists t,
    trace (snd (try_body D self text speaker temperature
                  repetition_penalty max_length additional_gen_config
                  additional_dynamic_generator_config chunk_size
                  stream_segments w))
    = trace (at_try self text stream_segments w) ++ t
    /\ Forall body_event t.
Proof. unfold try_body. apply segments_loop_emits. Qed.

(** C10. For every input text on which [split_text] returns an empty list,
    [generate_stream] fails with a division by zero in the computation of
    the average segment length, before any audio is generated. The failure
    is outside the [try] block: when it happens the playback thread has
    been started, no sentinel is put on the queue and the thread is not
    joined. *)
Theorem generate_stream_no_segments (self : interface) (text : pystr)
    (speaker : option pyval) (temperature repetition_penalty : Q)
    (max_length : option Z)
    (additional_gen_config additional_dynamic_generator_config : pyval)
    (chunk_size : Z) (stream_segments : bool) w :
  split_text self text None = [] ->
  generate_stream D self text speaker temperature repetition_penalty
    max_length additional_gen_config additional_dynamic_generator_config
    chunk_size stream_segments w
  = (Raises (ZeroDivisionError "division by zero"),
     note w [QueueNew; ThreadStart;
             Log INFO (ProcessingText (Z.of_nat (length text)))]).
Proof.
  intros H. unfold generate_stream. run. rewrite H. simpl.
  rewrite !note_note. reflexivity.
Qed.

(** C9, as amended. On a text that has segments, [generate_stream] does not
    propagate an exception that derives from [Exception] and is raised
    during the generation of the audio of a segment: whenever the body of
    the [try] block returns or raises such an exception, [generate_stream]
    returns; the exception, among them the [ValueError] for
    [chunk_size < 4] and the one for [max_length], is logged; and then the
    sentinel is put on the queue and the playback thread is joined. An
    exception that does not derive from [Exception] goes through to the
    caller, and then nothing is logged, no sentinel is put and the thread
    is not joined: the body itself puts no sentinel and joins no thread. *)
Theorem generate_stream_catches (self : interface) (text : pystr)
    (speaker : option pyval) (temperature repetition_penalty : Q)
    (max_length : option Z)
    (additional_gen_config additional_dynamic_generator_config : pyval)
    (chunk_size : Z) (stream_segments : bool) w :
  split_text self text None <> [] ->
  let body :=
    try_body D self text speaker temperature repetition_penalty max_length
      additional_gen_config additional_dynamic_generator_config chunk_size
      stream_segments w in
  ((forall e, fst body = Raises e -> is_exception e = true) ->
   generate_stream D self text speaker temperature repetition_penalty
     max_length additional_gen_config additional_dynamic_generator_config
     chunk_size stream_segments w
   = (Returns tt, note (snd body) (after_try (fst body))))
  /\ (forall e,
        fst body = Raises e -> is_exception e = false ->
        generate_stream D self text speaker temperature repetition_penalty
          max_length additional_gen_config
          additional_dynamic_generator_config chunk_size stream_segments w
        = (Raises e, snd body))
  /\ (chunk_size < 4 ->
      fst body = Raises (ValueError "chunk_size must be at least 4."))
  /\ (4 <= chunk_size -> max_length_rejected self max_length ->
      exists msg,
        fst body = Raises (ValueError msg)
        /\ fst (check_generation_max_length (B := B) self max_length w)
           = Raises (ValueError msg))
  /\ exists t,
      trace (snd body) = trace (at_try self text stream_segments w) ++ t
      /\ Forall body_event t.
Proof.
  intros Hne body.
  split; [|split].
  - intros Hall. apply generate_stream_caught; [exact Hne|].
    fold body. destruct (fst body) as [[]|e] eqn:E; [reflexivity|].
    simpl. rewrite (Hall e eq_refl). reflexivity.
  - intros e He Hout. rewrite generate_stream_run by exact Hne.
    fold body. rewrite He. simpl. rewrite Hout. simpl.
    rewrite <- He. destruct body. reflexivity.
  - split; [|split; [|apply try_body_emits]];
      unfold body, try_body, at_try;
      (destruct (split_text self text None) as [|segment rest] eqn:E;
         [contradiction|]).
    + intros Hc. simpl segments_loop. unfold _generate_stream.
      assert (Hlt : (chunk_size <? 4) = true) by (apply Z.ltb_lt; exact Hc).
      rewrite Hlt. reflexivity.
    + intros Hc Hrej. simpl segments_loop. unfold _generate_stream.
      assert (Hlt : (chunk_size <? 4) = false) by (apply Z.ltb_ge; exact Hc).
      rewrite Hlt.
      destruct (check_rejected (B := B) self max_length Hrej) as [msg Hmsg].
      exists msg. run. rewrite !Hmsg. split; reflexivity.
Qed.

End WithDeps.

(** The two theorems on the dependencies of [Demo]: a text without
    segments, and a call with [chunk_size = 2]. *)
Lemma generate_stream_no_segments_witness :
  split_text (InterfaceHF demo_config) (of_string ". !") None = []
  /\ generate_stream (demo [] ([], None) []) (InterfaceHF demo_config)
       (of_string ". !") None 0.1%Q 1.1%Q (Some 4096) (PyDict [])
       (PyDict []) 8 true fresh
     = (Raises (ZeroDivisionError "division by zero"),
        note fresh [QueueNew; ThreadStart; Log INFO (ProcessingText 3)]).
Proof.
  split; [reflexivity|].
  apply (generate_stream_no_segments (demo [] ([], None) [])
           (InterfaceHF demo_config) (of_string ". !")).
  reflexivity.
Defined.

Lemma generate_stream_catches_witness :
  split_text (InterfaceHF demo_config) (of_string "Hi. Ho") None <> []
  /\ generate_stream (demo [] ([], None) []) (InterfaceHF demo_config)
       (of_string "Hi. Ho") None 0.1%Q 1.1%Q (Some 4096) (PyDict [])
       (PyDict []) 2 false fresh
     = (Returns tt,
        note fresh
          [QueueNew; ThreadStart; Log INFO (ProcessingText 6);
           Log INFO (SplitInto 2 (4 # 2));
           Log INFO (ProcessingSegment 1 2);
           Log ERROR (Exception (ValueError "chunk_size must be at least 4."));
           QueuePut None; ThreadJoin; QueueDel]).
Proof.
  assert (H : split_text (InterfaceHF demo_config) (of_string "Hi. Ho") None
              <> []) by discriminate.
  split; [exact H|].
  apply (proj1 (generate_stream_catches (demo [] ([], None) [])
                  (InterfaceHF demo_config) (of_string "Hi. Ho") None
                  0.1%Q 1.1%Q (Some 4096) (PyDict []) (PyDict []) 2 false
                  fresh H)).
  intros e He. injection He as <-. reflexivity.
Defined.

(** C9, as stated, fails: a [KeyboardInterrupt] that comes while the backend
    streams the first segment is no [Exception]. It goes through
    [generate_stream] to the caller: the thread was started, and no
    sentinel is put and no thread is joined. *)
Lemma generate_stream_propagates_interrupt :
  generate_stream demo_interrupted (InterfaceHF demo_config)
    (of_string "Hi. Ho") None 0.1%Q 1.1%Q (Some 4096) (PyDict [])
    (PyDict []) 8 true fresh
  = (Raises KeyboardInterrupt,
     note fresh
       [QueueNew; ThreadStart; Log INFO (ProcessingText 6);
        Log INFO (SplitInto 2 (4 # 2));
        Log INFO ChunkSizeIgnored;
        Log INFO (ProcessingSegment 1 2);
        Generate HF (Tensor (of_string "Hi"))
          {| gc_temperature := 0.1; gc_repetition_penalty := 1.1;
             gc_max_length := Some 4096;
             gc_additional_gen_config := PyDict [] |} true None]).
Proof. reflexivity. Qed.

End Streaming.

(** ** Speaker profiles *)

Module Speakers.
Import MonadFacts.

Section WithDeps.

Context {B : Type} (D : deps B).

Implicit Types w : world B.

(** The run of [create_speaker], by cases on the transcript and on the
    words the aligner returns. *)
Lemma create_speaker_run self audio_path transcript whisper_model
    whisper_device w :
  create_speaker D self audio_path transcript whisper_model whisper_device w
  = let t :=
      effective_transcript D audio_path transcript whisper_model
        whisper_device in
    let before :=
      transcription_events audio_path transcript whisper_model
        whisper_device in
    let words := aligned_words D self audio_path t in
    match t with
    | [] => (Raises (ValueError "Transcript text is empty"), note w before)
    | _ =>
        match words with
        | [] =>
            (Raises
               (RuntimeError
                  "torch.cat(): expected a non-empty list of Tensors"),
             note w (before ++ [Align audio_path t (language self)]))
        | _ =>
            (Returns
               (PyDict
                  [ (PyStr (of_string "text"), PyStr t);
                    (PyStr (of_string "words"),
                     PyList
                       (speaker_words D (codes_of_words D words) words 0));
                    (PyStr (of_string "language"),
                     PyStr (language self)) ]),
             note w
               (before
                ++ [Align audio_path t (language self);
                    Encode
                      (convert_audio_tensor D (concat (map aw_audio words))
                         (ctc_sample_rate D))]))
        end
    end.
Proof.
  unfold create_speaker, effective_transcript, transcription_events,
    aligned_words, codes_of_words, torch_cat.
  destruct transcript as [t|]; run.
  - destruct t as [|c t]; [rewrite note_nil; reflexivity|].
    destruct (ctc_align D _ _ _ _ _) as [|word words]; simpl;
      rewrite ?note_note; reflexivity.
  - destruct (transcribe_once D _ _ _) as [|c t];
      [rewrite !note_note; reflexivity|].
    destruct (ctc_align D _ _ _ _ _) as [|word words]; simpl;
      rewrite ?note_note; reflexivity.
Qed.

(** C5. [create_speaker] raises [ValueError("Transcript text is empty")] if
    and only if the transcript, passed in or produced by whisper, is empty;
    and it raises before any forced alignment or audio encoding: the only
    events of such a call are those of the transcription. *)
Theorem create_speaker_empty_transcript (self : interface)
    (audio_path : pystr) (transcript : option pystr)
    (whisper_model : pystr) (whisper_device : option pystr) w :
  (fst (create_speaker D self audio_path transcript whisper_model
          whisper_device w)
   = Raises (ValueError "Transcript text is empty")
   <-> effective_transcript D audio_path transcript whisper_model
         whisper_device = [])
  /\ (effective_transcript D audio_path transcript whisper_model
        whisper_device = [] ->
      create_speaker D self audio_path transcript whisper_model
        whisper_device w
      = (Raises (ValueError "Transcript text is empty"),
         note w
           (transcription_events audio_path transcript whisper_model
              whisper_device))
      /\ Forall (fun e => is_align_or_encode e = false)
           (transcription_events audio_path transcript whisper_model
              whisper_device)).
Proof.
  rewrite create_speaker_run. cbv zeta.
  destruct (effective_transcript D audio_path transcript whisper_model
              whisper_device) as [|c t] eqn:Et.
  - split; [split; reflexivity|]. intros _. split; [reflexivity|].
    destruct transcript; repeat constructor.
  - split; [|discriminate]. split; [|discriminate].
    destruct (aligned_words D self audio_path (c :: t)); discriminate.
Qed.

Lemma speaker_words_entries full_codes words :
  forall start,
    Forall2
      (fun ws entry =>
         entry_for codes_or_placeholder (fst ws) (snd ws) entry)
      (combine words (word_slices D full_codes words start))
      (speaker_words D full_codes words start).
Proof.
  induction words as [|word words IH]; intros start; simpl.
  - constructor.
  - constructor; [|apply IH].
    unfold entry_for, codes_or_placeholder. simpl.
    destruct (slice full_codes start (frame_index D (aw_x1 word)));
      repeat split; reflexivity.
Qed.

(** C4, as amended. For every audio_path and transcript, the dict
    [create_speaker] returns has as ["text"] the transcript (the one passed
    in, or the transcription by whisper when none is), as ["language"] the
    current language of the interface, and as ["words"] a list with exactly
    one entry for each aligned word, in order; each entry carries the word,
    the codes of the word (its slice of the codes of the audio codec, or
    [[1]] when that slice is empty) and the duration
    [round(len(codes) / 75, 2)] of the codes it carries. And
    [create_speaker] does return a dict whenever the transcript is not
    empty and at least one word is aligned. *)
Theorem create_speaker_profile (self : interface) (audio_path : pystr)
    (transcript : option pystr) (whisper_model : pystr)
    (whisper_device : option pystr) w :
  (forall d w',
     create_speaker D self audio_path transcript whisper_model
       whisper_device w
     = (Returns d, w') ->
     profile_for D codes_or_placeholder self audio_path
       (effective_transcript D audio_path transcript whisper_model
          whisper_device) d)
  /\ (effective_transcript D audio_path transcript whisper_model
        whisper_device <> [] ->
      aligned_words D self audio_path
        (effective_transcript D audio_path transcript whisper_model
           whisper_device) <> [] ->
      exists d w',
        create_speaker D self audio_path transcript whisper_model
          whisper_device w
        = (Returns d, w')).
Proof.
  rewrite create_speaker_run. cbv zeta.
  destruct (effective_transcript D audio_path transcript whisper_model
              whisper_device) as [|c t].
  { split; [discriminate|]. intros Ht. contradiction. }
  destruct (aligned_words D self audio_path (c :: t)) as [|word words] eqn:E.
  { split; [discriminate|]. intros _ Hw. contradiction. }
  split; [|intros _ _; do 2 eexists; reflexivity].
  intros d w' [= <- _].
  unfold profile_for. rewrite E.
  split; [reflexivity|]. split; [reflexivity|].
  eexists. split; [reflexivity|]. apply speaker_words_entries.
Qed.

End WithDeps.

(** The theorem on a recording of two words. *)
Lemma create_speaker_profile_witness :
  exists d w',
    create_speaker (demo [] ([], None) two_words) (InterfaceHF demo_config)
      (of_string "a.wav") None (of_string "turbo") None fresh
    = (Returns d, w')
    /\ profile_for (demo [] ([], None) two_words) codes_or_placeholder
         (InterfaceHF demo_config) (of_string "a.wav") (of_string "hello")
         d.
Proof.
  destruct (proj2 (create_speaker_profile (demo [] ([], None) two_words)
                     (InterfaceHF demo_config) (of_string "a.wav") None
                     (of_string "turbo") None fresh))
    as (d & w' & E); [discriminate..|].
  exists d, w'. split; [exact E|].
  exact (proj1 (create_speaker_profile (demo [] ([], None) two_words)
                  (InterfaceHF demo_config) (of_string "a.wav") None
                  (of_string "turbo") None fresh) d w' E).
Defined.

(** C4, as stated, fails: the second of two words that end in the same
    frame has an empty slice of the codes, and its entry carries the code
    [1], which is no code of the recording. *)
Lemma create_speaker_placeholder_codes :
  exists d w',
    create_speaker (demo [] ([], None) two_words) (InterfaceHF demo_config)
      (of_string "a.wav") (Some (of_string "so a")) (of_string "turbo")
      None fresh
    = (Returns d, w')
    /\ ~ profile_for (demo [] ([], None) two_words) (fun sl => sl)
           (InterfaceHF demo_config) (of_string "a.wav")
           (of_string "so a") d.
Proof.
  rewrite create_speaker_run. do 2 eexists. split; [reflexivity|].
  intros (_ & _ & entries & Hwords & Hall).
  injection Hwords as <-.
  apply Forall2_cons_1 in Hall as [_ Hall].
  apply Forall2_cons_1 in Hall as [(_ & Hcodes & _) _].
  discriminate Hcodes.
Qed.

End Speakers.

(** ** Saving and loading a profile *)

Module Profiles.
Import MonadFacts Speakers.







Section WithDeps.

Context {B : Type} (D : deps B).

Implicit Types w : world B.




End WithDeps.



End Profiles.

(** ** The three runtimes *)

Module Runtimes.
Import MonadFacts Generation.

Section WithDeps.

Context {B : Type} (D : deps B).

Implicit Types w : world B.

(** A run of the pipeline, step by step: the messages of a verbose
    interface, the validation of [max_length], the call of the backend with
    the generation config made of the arguments, the decoding of the audio
    tokens of the completion, and the [ModelOutput] at the sampling rate of
    the codec. *)
Lemma generate_pipeline_run encode completion dynamic self text speaker
    temperature repetition_penalty max_length additional_gen_config w :
  generate_pipeline D encode completion dynamic self text speaker
    temperature repetition_penalty max_length additional_gen_config w
  = let input :=
      encode (get_completion_prompt D text (language self) speaker) in
    let cfg :=
      {| gc_temperature := temperature;
         gc_repetition_penalty := repetition_penalty;
         gc_max_length := max_length;
         gc_additional_gen_config := additional_gen_config |} in
    let logs :=
      if verbose self then
        [Log INFO (InputTokens (input_len input)); Log INFO GeneratingAudio]
      else [] in
    let call := Generate (runtime_of self) input cfg false dynamic in
    match check_generation_max_length self max_length w with
    | (Raises e, _) => (Raises e, note w logs)
    | (Returns _, _) =>
        match
          model_generate D (runtime_of self) (sampler w) input cfg dynamic
        with
        | (Raises e, b) =>
            (Raises e,
             {| sampler := b; files := files w;
                trace := trace w ++ logs ++ [call] |})
        | (Returns output, b) =>
            let codes :=
              extract_audio_from_tokens D (completion input output) in
            (output_for D codes,
             {| sampler := b; files := files w;
                trace :=
                  trace w ++ logs
                  ++ [call;
                      match codes with
                      | [] => Log WARNING NoAudioTokens
                      | _ => Decode codes
                      end]
                  ++ if verbose self then [Log INFO GenerationCompleted]
                     else [] |})
        end
    end.
Proof.
  unfold generate_pipeline. cbv zeta.
  set (input := encode (get_completion_prompt D text (language self) speaker)).
  set (cfg := {| gc_temperature := temperature;
                 gc_repetition_penalty := repetition_penalty;
                 gc_max_length := max_length;
                 gc_additional_gen_config := additional_gen_config |}).
  assert (Hcheck : forall w',
            check_generation_max_length (B := B) self max_length w'
            = (fst (check_generation_max_length (B := B) self max_length w),
               w')).
  { intros w'. unfold check_generation_max_length.
    destruct max_length as [n|]; [|reflexivity].
    destruct (_ <? n); reflexivity. }
  unfold model_call, get_audio, new_ModelOutput, output_for.
  destruct (verbose self); run; rewrite Hcheck;
    destruct (check_generation_max_length self max_length w) as [[[]|e] w0];
    cbn [fst snd]; rewrite ?note_note, ?note_nil; try reflexivity;
    unfold note; cbn [sampler files trace];
    destruct (model_generate D (runtime_of self) (sampler w) input cfg
                dynamic) as [[output|e] b];
    try (rewrite <- ?app_assoc, ?app_nil_r; reflexivity);
    destruct (extract_audio_from_tokens D (completion input output));
    try destruct (model_output_none D);
    cbn [sampler files trace]; rewrite <- ?app_assoc, ?app_nil_r;
    reflexivity.
Qed.

(** C3, as amended. The three [generate] methods follow one pipeline: build
    the completion prompt from the text, the current language and the
    speaker, validate [max_length], call the backend with a
    [GenerationConfig] carrying exactly [temperature], [repetition_penalty],
    [max_length] and [additional_gen_config], decode the audio tokens
    extracted from the completion, and return
    [ModelOutput(audio, audio_codec.sr)]. They differ in the backend called
    and in three steps around the call: the prompt is handed over as a
    tensor of tokens (HF), a list of tokens (GGUF) or the text itself
    (EXL2); HF drops the first [len(input_ids)] tokens of the answer, the
    two others keep it whole; and EXL2 takes one more argument,
    [additional_dynamic_generator_config], and forwards it. *)
Theorem generate_follows_pipeline (config : ModelConfig) (text : pystr)
    (speaker : option pyval) (temperature repetition_penalty : Q)
    (max_length : option Z)
    (additional_gen_config additional_dynamic_generator_config : pyval) :
  generate D (InterfaceHF config) text speaker temperature
    repetition_penalty max_length additional_gen_config
    additional_dynamic_generator_config
  = generate_pipeline D (fun prompt => Tensor (tokenizer_encode D prompt))
      (fun input output => slice_from output (input_len input)) None
      (InterfaceHF config) text speaker temperature repetition_penalty
      max_length additional_gen_config
  /\ generate D (InterfaceGGUF config) text speaker temperature
       repetition_penalty max_length additional_gen_config
       additional_dynamic_generator_config
     = generate_pipeline D (fun prompt => Tokens (tokenizer_encode D prompt))
         (fun _ output => output) None
         (InterfaceGGUF config) text speaker temperature repetition_penalty
         max_length additional_gen_config
  /\ generate D (InterfaceEXL2 config) text speaker temperature
       repetition_penalty max_length additional_gen_config
       additional_dynamic_generator_config
     = generate_pipeline D Prompt (fun _ output => output)
         (Some additional_dynamic_generator_config)
         (InterfaceEXL2 config) text speaker temperature repetition_penalty
         max_length additional_gen_config.
Proof.
  repeat split.
Qed.

End WithDeps.

(** C3, as stated, fails: no pipeline that is the same for the three
    runtimes, whatever its way to hand over the prompt, to cut the answer
    and to pass one more argument, is what the three [generate] methods do.
    On backends that follow their conventions and a prompt of two audio
    tokens, the three methods return the same audio; but the Hugging Face
    interface hands over a tensor, passes no further argument and decodes
    the answer without its first two tokens, and the EXL2 interface hands
    over the text, passes [additional_dynamic_generator_config] and decodes
    the answer whole. *)
Lemma generate_differs_beyond_backend :
  (~ exists encode completion dynamic,
       forall r,
         generate demo_echo (init r demo_config) [1005; 1006] None 0.1%Q
           1.1%Q (Some 4096) (PyDict []) (PyList []) fresh
         = generate_pipeline demo_echo encode completion dynamic
             (init r demo_config) [1005; 1006] None 0.1%Q 1.1%Q (Some 4096)
             (PyDict []) fresh)
  /\ generate demo_echo (InterfaceHF demo_config) [1005; 1006] None 0.1%Q
       1.1%Q (Some 4096) (PyDict []) (PyList []) fresh
     = (Returns {| mo_audio := Some [1; 1; 2; 2]; mo_sr := 24000 |},
        note fresh
          [Generate HF (Tensor [1005; 1006])
             {| gc_temperature := 0.1; gc_repetition_penalty := 1.1;
                gc_max_length := Some 4096;
                gc_additional_gen_config := PyDict [] |} false None;
           Decode [1; 2]])
  /\ generate demo_echo (InterfaceEXL2 demo_config) [1005; 1006] None 0.1%Q
       1.1%Q (Some 4096) (PyDict []) (PyList []) fresh
     = (Returns {| mo_audio := Some [1; 1; 2; 2]; mo_sr := 24000 |},
        note fresh
          [Generate EXL2 (Prompt [1005; 1006])
             {| gc_temperature := 0.1; gc_repetition_penalty := 1.1;
                gc_max_length := Some 4096;
                gc_additional_gen_config := PyDict [] |} false
             (Some (PyList []));
           Decode [1; 2]]).
Proof.
  split; [|split; reflexivity].
  intros (encode & completion & dynamic & H).
  pose proof (f_equal (fun x => hd_error (trace (snd x))) (H HF)) as Hhf.
  pose proof (f_equal (fun x => hd_error (trace (snd x))) (H EXL2)) as Hexl2.
  rewrite generate_pipeline_run in Hhf, Hexl2.
  cbv in Hhf, Hexl2.
  congruence.
Qed.

End Runtimes.

(** ** The chunks of a stream *)

Module Chunks.
Import MonadFacts Generation.

Lemma count_code_end_snoc code_end seen t :
  count_code_end code_end (seen ++ [t])
  = count_code_end code_end seen + (if t =? code_end then 1 else 0).
Proof.
  unfold count_code_end. rewrite List.filter_app, List.length_app.
  rewrite Nat2Z.inj_add. cbn [List.filter].
  rewrite (Z.eqb_sym code_end t). destruct (t =? code_end); reflexivity.
Qed.

Lemma chunk_due_snoc code_end chunk_size seen t :
  chunk_due code_end chunk_size (seen ++ [t])
  = (t =? code_end)
    && (count_code_end code_end (seen ++ [t]) mod chunk_size =? 0).
Proof. unfold chunk_due. rewrite rev_unit. reflexivity. Qed.

Section WithDeps.

Context {B : Type} (D : deps B).

Implicit Types w : world B.

Lemma chunk_events_app buffers buffers' start :
  chunk_events D (buffers ++ buffers') start
  = chunk_events D buffers start
    ++ chunk_events D buffers' (last_size D buffers start).
Proof.
  revert start. induction buffers as [|b rest IH]; intros start; simpl.
  - reflexivity.
  - rewrite IH. reflexivity.
Qed.

Lemma _create_audio_chunk_run self tokens idx w :
  extract_audio_from_tokens D tokens <> [] ->
  _create_audio_chunk D self tokens idx w
  = (Returns
       ({| mo_audio :=
             Some (slice_from
                     (codec_decode D (extract_audio_from_tokens D tokens))
                     idx);
           mo_sr := codec_sr D |},
        Z.of_nat
          (length (codec_decode D (extract_audio_from_tokens D tokens)))),
     note w [Decode (extract_audio_from_tokens D tokens)]).
Proof.
  intros H. unfold _create_audio_chunk, get_audio.
  destruct (extract_audio_from_tokens D tokens); [contradiction|].
  reflexivity.
Qed.

Lemma _create_audio_chunk_none self tokens idx w :
  extract_audio_from_tokens D tokens = [] ->
  _create_audio_chunk D self tokens idx w
  = (Raises (AttributeError "'NoneType' object has no attribute 'size'"),
     note w [Log WARNING NoAudioTokens]).
Proof.
  intros H. unfold _create_audio_chunk, get_audio. rewrite H. reflexivity.
Qed.

(** The loop of [_generate_stream], when no [stream_segments] is asked for:
    it yields one chunk for each prefix of the stream after which a chunk
    is due. [c] counts the occurrences of [code_end] since the previous
    chunk. *)
Lemma stream_loop_chunks self code_end chunk_size :
  4 <= chunk_size ->
  forall rest seen start c w,
    0 <= c < chunk_size ->
    c = count_code_end code_end seen mod chunk_size ->
    Forall (fun b => extract_audio_from_tokens D b <> [])
      (due_buffers code_end chunk_size seen rest) ->
    stream_loop D self code_end chunk_size false
      (fun o => emit (Yield o)) rest
      {| audio_buffer := seen; start_index := start; chunks := c |} w
    = (Returns
         {| audio_buffer := seen ++ rest;
            start_index :=
              last_size D (due_buffers code_end chunk_size seen rest) start;
            chunks :=
              count_code_end code_end (seen ++ rest) mod chunk_size |},
       note w
         (chunk_events D (due_buffers code_end chunk_size seen rest)
            start)).
Proof.
  intros Hsize.
  remember (fun o : ModelOutput => emit (B := B) (Yield o)) as y eqn:Hy.
  assert (Hyield : forall o w, y o w = (Returns tt, note w [Yield o]))
    by (subst y; reflexivity).
  clear Hy.
  induction rest as [|t r IH]; intros seen start c w Hc Hcount Hok.
  - simpl. rewrite app_nil_r, note_nil, <- Hcount. reflexivity.
  - simpl stream_loop. cbn [audio_buffer start_index chunks].
    simpl due_buffers in Hok |- *.
    rewrite chunk_due_snoc in Hok |- *.
    pose proof (count_code_end_snoc code_end seen t) as Hsnoc.
    replace (seen ++ t :: r) with ((seen ++ [t]) ++ r)
      by (rewrite <- app_assoc; reflexivity).
    destruct (t =? code_end) eqn:Et.
    + assert (Hmod : count_code_end code_end (seen ++ [t]) mod chunk_size
                     = (c + 1) mod chunk_size).
      { rewrite Hsnoc, Hcount, Z.add_mod_idemp_l by lia. reflexivity. }
      destruct (c + 1 =? chunk_size) eqn:En.
      * apply Z.eqb_eq in En.
        assert (Hz : count_code_end code_end (seen ++ [t]) mod chunk_size = 0).
        { rewrite Hmod, En. apply Z_mod_same_full. }
        rewrite Hz in Hok |- *. simpl in Hok |- *.
        inversion Hok as [|? ? Hb Hrest]; subst.
        run. rewrite (_create_audio_chunk_run self _ start w Hb), Hyield.
        rewrite (IH (seen ++ [t]) _ 0 _);
          [| lia | symmetry; exact Hz | exact Hrest].
        rewrite !note_note. reflexivity.
      * apply Z.eqb_neq in En.
        assert (Hz : count_code_end code_end (seen ++ [t]) mod chunk_size
                     = c + 1).
        { rewrite Hmod. apply Z.mod_small. lia. }
        rewrite Hz in Hok |- *.
        assert (Hnz : (c + 1 =? 0) = false) by (apply Z.eqb_neq; lia).
        rewrite Hnz in Hok |- *. simpl in Hok |- *.
        run.
        rewrite (IH (seen ++ [t]) start (c + 1) w);
          [reflexivity | lia | symmetry; exact Hz | exact Hok].
    + simpl in Hok |- *.
      assert (En : (c =? chunk_size) = false) by (apply Z.eqb_neq; lia).
      rewrite En. run.
      rewrite (IH (seen ++ [t]) start c w); [reflexivity | lia | | exact Hok].
      rewrite Hsnoc, Z.add_0_r. exact Hcount.
Qed.

(** [_generate_stream] refuses a [chunk_size] below 4 before anything
    else. *)
Lemma _generate_stream_small_chunk_size self text speaker temperature
    repetition_penalty max_length additional_gen_config
    additional_dynamic_generator_config chunk_size stream_segments yield_ w :
  chunk_size < 4 ->
  _generate_stream D self text speaker temperature repetition_penalty
    max_length additional_gen_config additional_dynamic_generator_config
    chunk_size stream_segments yield_ w
  = (Raises (ValueError "chunk_size must be at least 4."), w).
Proof.
  intros H. unfold _generate_stream.
  assert (Hlt : (chunk_size <? 4) = true) by (apply Z.ltb_lt; exact H).
  rewrite Hlt. reflexivity.
Qed.

(** On a run in which the backend streams [tokens] to the end and every
    buffer holds an audio token, [_generate_stream] without
    [stream_segments] calls the backend once and yields exactly one chunk
    for each buffer of [chunk_buffers]: one each time [chunk_size]
    occurrences of [code_end] have come since the previous chunk, and a
    last one for the whole stream. Each chunk starts where the samples of
    the previous buffer end. *)
Lemma _generate_stream_chunks self text speaker temperature
    repetition_penalty n additional_gen_config
    additional_dynamic_generator_config chunk_size code_end others tokens
    b w :
  4 <= chunk_size ->
  n <= cfg_max_seq_length (config self) ->
  tokenizer_encode D (special_code_end D) = code_end :: others ->
  model_stream D (runtime_of self) (sampler w)
    (prepare_prompt D self text speaker)
    {| gc_temperature := temperature;
       gc_repetition_penalty := repetition_penalty;
       gc_max_length := Some n;
       gc_additional_gen_config := additional_gen_config |}
  = ((tokens, None), b) ->
  Forall (fun buffer => extract_audio_from_tokens D buffer <> [])
    (chunk_buffers code_end chunk_size tokens) ->
  _generate_stream D self text speaker temperature repetition_penalty
    (Some n) additional_gen_config additional_dynamic_generator_config
    chunk_size false (fun o => emit (Yield o)) w
  = (Returns tt,
     {| sampler := b; files := files w;
        trace :=
          trace w
          ++ Generate (runtime_of self) (prepare_prompt D self text speaker)
               {| gc_temperature := temperature;
                  gc_repetition_penalty := repetition_penalty;
                  gc_max_length := Some n;
                  gc_additional_gen_config := additional_gen_config |}
               true None
             :: chunk_events D (chunk_buffers code_end chunk_size tokens)
                  0 |}).
Proof.
  intros Hsize Hn Hcode Hstream Hok.
  unfold _generate_stream, chunk_buffers in *.
  assert (Hlt : (chunk_size <? 4) = false) by (apply Z.ltb_ge; exact Hsize).
  rewrite Hlt, Hcode. apply Forall_app in Hok as [Hdue Hlast].
  unfold model_call_stream.
  remember (fun o : ModelOutput => emit (B := B) (Yield o)) as y eqn:Hy.
  run. rewrite (check_accepted self n w Hn), Hstream.
  subst y.
  rewrite (stream_loop_chunks self code_end chunk_size Hsize tokens [] 0 0);
    [| lia | rewrite Z.mod_0_l by lia; reflexivity | exact Hdue].
  cbn [audio_buffer start_index app]. rewrite chunk_events_app.
  destruct tokens as [|t r].
  - unfold note. simpl. rewrite <- app_assoc. reflexivity.
  - inversion Hlast as [|? ? Hb _]; subst.
    rewrite (_create_audio_chunk_run self _ _ _ Hb).
    unfold note. cbn [sampler files trace chunk_events].
    rewrite <- !app_assoc. reflexivity.
Qed.

End WithDeps.

(** C2, on a stream without audio tokens. The backend streams one token,
    which is no audio token, and stops: the buffer is not empty, a last
    chunk is due for it, and [_generate_stream] raises [AttributeError]
    without yielding any chunk, because [get_audio] returned [None]. *)
Theorem _generate_stream_without_audio_tokens :
  chunk_buffers 2 8 [7] = [[7]]
  /\ _generate_stream demo_silent (InterfaceHF demo_config) (of_string "Hi")
       None 0.1%Q 1.1%Q (Some 4096) (PyDict []) (PyDict []) 8 false
       (fun o => emit (Yield o)) fresh
     = (Raises (AttributeError "'NoneType' object has no attribute 'size'"),
        note fresh
          [Generate HF (Tensor [72; 105])
             {| gc_temperature := 0.1%Q;
                gc_repetition_penalty := 1.1%Q;
                gc_max_length := Some 4096;
                gc_additional_gen_config := PyDict [] |}
             true None;
           Log WARNING NoAudioTokens]).
Proof.
  split; reflexivity.
Qed.

End Chunks.

(** ** Playback *)

Module PlaybackFacts.
Import MonadFacts Streaming.

Lemma caller_ops_app (t t' : list event) :
  caller_ops (t ++ t') = caller_ops t ++ caller_ops t'.
Proof.
  induction t as [|e t IH]; simpl; [reflexivity|].
  destruct e as [| | | | | | | |[c|] | | |]; simpl; rewrite IH; reflexivity.
Qed.

Lemma caller_ops_body (t : list event) :
  Forall body_event t ->
  exists chunks, caller_ops t = map (fun c => Put (Some c)) chunks.
Proof.
  induction 1 as [|e t He _ [chunks IH]]; simpl.
  - exists []. reflexivity.
  - destruct e as [| | | | | | | |[c|] | | |]; try discriminate He;
      try (exists chunks; exact IH).
    exists (c :: chunks). simpl. rewrite IH. reflexivity.
Qed.

Lemma thread_start_body (t : list event) :
  Forall body_event t -> List.filter is_thread_start t = [].
Proof.
  induction 1 as [|e t He _ IH]; simpl; [reflexivity|].
  destruct e as [| | | | | | | |[c|] | | |]; try discriminate He; exact IH.
Qed.

Lemma items_of_app (ops ops' : list caller_op) :
  items_of (ops ++ ops') = items_of ops ++ items_of ops'.
Proof. unfold items_of. apply flat_map_app. Qed.

Lemma items_of_put_chunks (chunks : list ModelOutput) :
  items_of (put_chunks chunks) = map Some chunks ++ [None].
Proof.
  unfold put_chunks. rewrite items_of_app. f_equal.
  induction chunks as [|c chunks IH]; simpl; [reflexivity|].
  f_equal. exact IH.
Qed.

Lemma played_prefix (a b : list ModelOutput) x :
  map Some a ++ x = map Some b ++ [None] -> exists rest, b = a ++ rest.
Proof.
  revert b. induction a as [|c a IH]; intros b H.
  - exists b. reflexivity.
  - destruct b as [|c' b]; simpl in H; [discriminate|].
    injection H as -> H. destruct (IH b H) as [rest ->].
    exists rest. reflexivity.
Qed.

Lemma played_all (a b : list ModelOutput) x :
  map Some a ++ None :: x = map Some b ++ [None] -> a = b /\ x = [].
Proof.
  revert b. induction a as [|c a IH]; intros b H.
  - destruct b as [|c' b]; simpl in H; [|discriminate].
    injection H as ->. split; reflexivity.
  - destruct b as [|c' b]; simpl in H; [discriminate|].
    injection H as -> H. destruct (IH b H) as [-> ->].
    split; reflexivity.
Qed.

Lemma invariant_started (chunks : list ModelOutput) :
  invariant chunks (started (put_chunks chunks)).
Proof.
  split.
  - exists []. split; [constructor|]. simpl.
    apply items_of_put_chunks.
  - right. exists (map (fun c => Put (Some c)) chunks ++ [Put None]).
    unfold put_chunks. simpl. rewrite <- app_assoc. reflexivity.
Qed.

Lemma invariant_step (chunks : list ModelOutput) t s s' :
  step t s s' -> invariant chunks s -> invariant chunks s'.
Proof.
  intros Hstep [(hand & Hhand & Hflow) Hjoin].
  unfold invariant.
  destruct Hstep; cbn [pending queue consumer played] in *.
  - split.
    + exists hand. split; [exact Hhand|].
      rewrite <- Hflow, <- app_assoc. reflexivity.
    + right. destruct Hjoin as [[Hnil _]|[before Hb]]; [discriminate|].
      destruct before as [|op before]; simpl in Hb; [discriminate|].
      injection Hb as _ ->. exists before. reflexivity.
  - split.
    + exists hand. split; [exact Hhand|exact Hflow].
    + destruct Hjoin as [[Hnil _]|[before Hb]]; [discriminate|].
      destruct before as [|op before]; simpl in Hb.
      * injection Hb as ->. left. split; [reflexivity|assumption].
      * injection Hb as _ ->. right. exists before. reflexivity.
  - inversion Hhand; subst. split.
    + exists [Some chunk]. split; [constructor|exact Hflow].
    + destruct Hjoin as [[_ [Hc|Hc]]|Hb]; [discriminate..|right; exact Hb].
  - inversion Hhand; subst. split.
    + exists [None]. split; [constructor|exact Hflow].
    + destruct Hjoin as [[_ [Hc|Hc]]|Hb]; [discriminate..|right; exact Hb].
  - inversion Hhand; subst. split.
    + exists []. split; [constructor|].
      rewrite map_app, <- app_assoc. exact Hflow.
    + destruct Hjoin as [[_ [Hc|Hc]]|Hb]; [discriminate..|right; exact Hb].
  - inversion Hhand; subst. split.
    + exists [Some chunk]. split; [constructor|exact Hflow].
    + destruct Hjoin as [[_ [Hc|Hc]]|Hb]; [discriminate..|right; exact Hb].
Qed.

Lemma invariant_rtc (chunks : list ModelOutput) s s' :
  rtc any_step s s' -> invariant chunks s -> invariant chunks s'.
Proof.
  induction 1 as [|s s1 s' [t Hstep] _ IH]; intros Hinv; [exact Hinv|].
  apply IH. eapply invariant_step; eassumption.
Qed.

Lemma stopped_step t s s' :
  step t s s' -> consumer s = Stopped ->
  consumer s' = Stopped /\ played s' = played s.
Proof.
  intros Hstep Hc. destruct Hstep; simpl in *; try discriminate;
    split; first [assumption|reflexivity].
Qed.

Lemma stopped_rtc s s' :
  rtc any_step s s' -> consumer s = Stopped ->
  consumer s' = Stopped /\ played s' = played s.
Proof.
  induction 1 as [|s s1 s' [t Hstep] _ IH]; intros Hc; [auto|].
  destruct (stopped_step _ _ _ Hstep Hc) as [Hc1 Hp1].
  destruct (IH Hc1) as [Hc' Hp']. split; congruence.
Qed.

Lemma only_caller_puts t s s' :
  step t s s' -> (length (queue s) < length (queue s'))%nat -> t = Caller.
Proof.
  intros Hstep Hlen. destruct Hstep; simpl in *; try reflexivity; lia.
Qed.

Lemma only_player_plays t s s' :
  step t s s' -> played s' <> played s -> t = Player.
Proof.
  intros Hstep Hp. destruct Hstep; simpl in *; try reflexivity;
    contradiction.
Qed.

Lemma steps_left_decreases th s s' :
  step th s s' -> (steps_left s' < steps_left s)%nat.
Proof.
  intros Hstep. destruct Hstep; unfold steps_left; simpl;
    rewrite ?List.length_app; simpl; lia.
Qed.

Lemma steps_bound n s s' :
  nsteps any_step n s s' -> (n + steps_left s' <= steps_left s)%nat.
Proof.
  induction 1 as [|n s s1 s' [th Hstep] _ IH]; [lia|].
  pose proof (steps_left_decreases _ _ _ Hstep). lia.
Qed.

(** The calling thread only takes its operations off the list. *)
Lemma pending_suffix ops s :
  reachable ops s -> exists done, ops = done ++ pending s.
Proof.
  unfold reachable. intros H.
  apply rtc_ind_r with (P := fun s => exists done, ops = done ++ pending s)
    (x := started ops) in H; [exact H|exists []; reflexivity|].
  clear. intros s s' _ [th Hstep] [done Hdone].
  destruct Hstep; simpl in *; first
    [ exists done; exact Hdone
    | eexists (done ++ [_]); rewrite <- app_assoc; exact Hdone ].
Qed.

Lemma join_is_last (chunks : list ModelOutput) done ops :
  put_chunks chunks = done ++ Join :: ops -> ops = [].
Proof.
  unfold put_chunks. revert done.
  induction chunks as [|c chunks IH]; intros done H; simpl in H.
  - destruct done as [|x [|y done]]; simpl in H; [discriminate| |].
    + inversion H. reflexivity.
    + inversion H as [[Hx Hy Hrest]]. destruct done; discriminate.
  - destruct done as [|x done]; simpl in H; [discriminate|].
    injection H as _ H. exact (IH done H).
Qed.

Lemma sentinel_not_played (a b : list ModelOutput) :
  map Some a <> map Some b ++ [None].
Proof.
  intros H.
  assert (Hin : In None (map Some a)).
  { rewrite H. apply in_or_app. right. left. reflexivity. }
  apply in_map_iff in Hin as (x & Hx & _). discriminate.
Qed.

(** No state the two threads reach is a deadlock: as long as the calling
    thread has not passed its [join], one of the two can take a step. *)
Lemma progress (chunks : list ModelOutput) s :
  reachable (put_chunks chunks) s ->
  pending s = [] \/ exists th s', step th s s'.
Proof.
  intros Hreach.
  destruct (pending_suffix _ _ Hreach) as [done Hdone].
  pose proof (invariant_rtc chunks _ _ Hreach (invariant_started chunks))
    as [(hand & Hhand & Hflow) _].
  destruct s as [ops q c pl]. simpl in *.
  destruct ops as [|[item|] ops]; [left; reflexivity| |]; right.
  - eexists _, _. apply step_put.
  - apply join_is_last in Hdone. subst ops.
    destruct c as [|chunk| |].
    + inversion Hhand; subst. simpl in Hflow.
      destruct q as [|[chunk|] q].
      * rewrite !app_nil_r in Hflow.
        destruct (sentinel_not_played _ _ Hflow).
      * eexists _, _. apply step_get_chunk.
      * eexists _, _. apply step_get_sentinel.
    + eexists _, _. apply step_played.
    + eexists _, _. apply step_join. left. reflexivity.
    + eexists _, _. apply step_join. right. reflexivity.
Qed.

(** When every [play()] returns, the two threads get to the end. *)
Lemma run_to_the_end (chunks : list ModelOutput) :
  forall pl,
    rtc any_step
      {| pending := put_chunks chunks; queue := []; consumer := Waiting;
         played := pl |}
      {| pending := []; queue := []; consumer := Stopped;
         played := pl ++ chunks |}.
Proof.
  induction chunks as [|c chunks IH]; intros pl.
  - rewrite app_nil_r. unfold put_chunks. simpl.
    eapply rtc_l; [exists Caller; apply step_put|]. simpl.
    eapply rtc_l; [exists Player; apply step_get_sentinel|].
    eapply rtc_l; [exists Caller; apply step_join; left; reflexivity|].
    apply rtc_refl.
  - change (put_chunks (c :: chunks))
      with (Put (Some c) :: put_chunks chunks).
    eapply rtc_l; [exists Caller; apply step_put|]. simpl.
    eapply rtc_l; [exists Player; apply step_get_chunk|].
    eapply rtc_l; [exists Player; apply step_played|].
    replace (pl ++ c :: chunks) with ((pl ++ [c]) ++ chunks)
      by (rewrite <- app_assoc; reflexivity).
    apply IH.
Qed.

Section WithDeps.

Context {B : Type} (D : deps B).

Implicit Types w : world B.

(** The events of a call of [generate_stream] that returns: the thread is
    started once, and the calling thread puts the chunks of the segments,
    then the sentinel, and joins. *)
Lemma generate_stream_events self text speaker temperature
    repetition_penalty max_length additional_gen_config
    additional_dynamic_generator_config chunk_size stream_segments w w' :
  generate_stream D self text speaker temperature repetition_penalty
    max_length additional_gen_config additional_dynamic_generator_config
    chunk_size stream_segments w
  = (Returns tt, w') ->
  exists t chunks,
    trace w' = trace w ++ t
    /\ List.filter is_thread_start t = [ThreadStart]
    /\ caller_ops t = put_chunks chunks.
Proof.
  intros Hrun.
  assert (Hne : split_text self text None <> []).
  { intros E. revert Hrun. unfold generate_stream. run. rewrite E.
    discriminate. }
  rewrite (generate_stream_run D self text speaker temperature
             repetition_penalty max_length additional_gen_config
             additional_dynamic_generator_config chunk_size
             stream_segments w Hne) in Hrun.
  destruct (escapes _) eqn:Hesc in Hrun.
  { destruct (try_body D _ _ _ _ _ _ _ _ _ _ _) as [[[]|e] w1];
      [discriminate Hesc|discriminate Hrun]. }
  injection Hrun as <-.
  destruct (try_body_emits D self text speaker temperature
              repetition_penalty max_length additional_gen_config
              additional_dynamic_generator_config chunk_size
              stream_segments w) as (tb & Htb & Hbody).
  destruct (caller_ops_body tb Hbody) as [chunks Hchunks].
  pose proof (thread_start_body tb Hbody) as Hstart.
  set (body := try_body D self text speaker temperature repetition_penalty
                 max_length additional_gen_config
                 additional_dynamic_generator_config chunk_size
                 stream_segments w) in *.
  unfold at_try, note in Htb. cbn [trace] in Htb.
  eexists. exists chunks. split.
  - unfold note. cbn [trace]. rewrite Htb, <- !app_assoc. reflexivity.
  - split.
    + rewrite !List.filter_app, Hstart.
      unfold after_try. rewrite List.filter_app.
      destruct stream_segments, (fst body); reflexivity.
    + rewrite !caller_ops_app, Hchunks. unfold after_try.
      rewrite caller_ops_app.
      destruct stream_segments, (fst body); reflexivity.
Qed.

(** C7. [generate_stream] is a single producer and a single consumer over
    a queue: every call that returns follows the discipline
    [producer_consumer]. The calling thread is the only one that puts
    chunks, the one thread running [_audio_player] takes them off the queue
    and plays them in the order in which they were put, the player stops at
    the first sentinel and plays nothing after it, and the calling thread
    joins the player before it returns: the two threads cannot block each
    other, they come to an end under every schedule, and they end with
    every chunk played unless a [play()] raises. *)
Theorem playback_producer_consumer (self : interface) (text : pystr)
    (speaker : option pyval) (temperature repetition_penalty : Q)
    (max_length : option Z)
    (additional_gen_config additional_dynamic_generator_config : pyval)
    (chunk_size : Z) (stream_segments : bool) w w' :
  generate_stream D self text speaker temperature repetition_penalty
    max_length additional_gen_config additional_dynamic_generator_config
    chunk_size stream_segments w
  = (Returns tt, w') ->
  exists t chunks,
    trace w' = trace w ++ t /\ producer_consumer t chunks.
Proof.
  intros Hrun.
  destruct (generate_stream_events self text speaker temperature
              repetition_penalty max_length additional_gen_config
              additional_dynamic_generator_config chunk_size
              stream_segments w w' Hrun) as (t & chunks & Ht & Hone & Hops).
  exists t, chunks. split; [assumption|].
  unfold producer_consumer. repeat (split; [assumption|]).
  rewrite Hops. split; [|split].
  - intros s Hreach.
    pose proof (progress chunks s Hreach) as Hprogress.
    unfold reachable in Hreach.
    pose proof (invariant_rtc chunks _ _ Hreach (invariant_started chunks))
      as [(hand & Hhand & Hflow) Hjoin].
    assert (Hdone : pending s = [] -> ended (consumer s)).
    { intros Hnil. destruct Hjoin as [[_ He]|[before Hb]]; [exact He|].
      rewrite Hnil in Hb. destruct before; discriminate. }
    repeat split.
    + apply (only_caller_puts _ _ _ H).
    + apply (only_player_plays _ _ _ H).
    + eapply played_prefix. exact Hflow.
    + rewrite H in Hhand. inversion Hhand; subst.
      simpl in Hflow. apply played_all in Hflow as [Hall _]. exact Hall.
    + apply (stopped_rtc _ _ H0 H).
    + apply (stopped_rtc _ _ H0 H).
    + exact Hdone.
    + intros item q Hc Hq. destruct s as [ops q0 c pl]. simpl in *.
      subst c q0. unfold taken. simpl.
      destruct item; [apply step_get_chunk|apply step_get_sentinel].
    + intros chunk Hc. destruct s as [ops q0 c pl]. simpl in *.
      subst c. unfold after_play. simpl. apply step_played.
    + exact Hprogress.
    + intros Hstuck.
      destruct Hprogress as [Hnil|(th & s' & Hstep)];
        [|destruct (Hstuck th s' Hstep)].
      destruct (Hdone Hnil) as [Hc|Hc]; [left|right; split; assumption].
      rewrite Hc in Hhand. inversion Hhand; subst.
      rewrite Hnil in Hflow. simpl in Hflow.
      apply played_all in Hflow as [Hall Hq].
      rewrite app_nil_r in Hq.
      destruct s as [ops q0 c pl]. simpl in *. subst. reflexivity.
  - intros n s Hsteps. apply steps_bound in Hsteps.
    unfold steps_left, started, put_chunks in Hsteps.
    cbn [pending queue consumer] in Hsteps.
    rewrite List.length_app, length_map in Hsteps. simpl in Hsteps. lia.
  - exact (run_to_the_end chunks []).
Qed.

End WithDeps.

(** The theorem on a call that streams two segments. *)
Lemma playback_producer_consumer_witness :
  generate_stream demo_stream (InterfaceHF demo_config) (of_string "Hi. Ho")
    None 0.1%Q 1.1%Q (Some 4096) (PyDict []) (PyDict []) 8 true fresh
  = (Returns tt,
     snd (generate_stream demo_stream (InterfaceHF demo_config)
            (of_string "Hi. Ho") None 0.1%Q 1.1%Q (Some 4096) (PyDict [])
            (PyDict []) 8 true fresh))
  /\ exists t chunks,
       trace (snd (generate_stream demo_stream (InterfaceHF demo_config)
                     (of_string "Hi. Ho") None 0.1%Q 1.1%Q (Some 4096)
                     (PyDict []) (PyDict []) 8 true fresh))
       = trace fresh ++ t
       /\ producer_consumer t chunks.
Proof.
  assert (H : generate_stream demo_stream (InterfaceHF demo_config)
                (of_string "Hi. Ho") None 0.1%Q 1.1%Q (Some 4096)
                (PyDict []) (PyDict []) 8 true fresh
              = (Returns tt,
                 snd (generate_stream demo_stream (InterfaceHF demo_config)
                        (of_string "Hi. Ho") None 0.1%Q 1.1%Q (Some 4096)
                        (PyDict []) (PyDict []) 8 true fresh)))
    by reflexivity.
  split; [exact H|].
  exact (playback_producer_consumer demo_stream (InterfaceHF demo_config)
           (of_string "Hi. Ho") None 0.1%Q 1.1%Q (Some 4096) (PyDict [])
           (PyDict []) 8 true fresh _ H).
Defined.

End PlaybackFacts.

(** ** More on the chunks of a stream *)

Module ChunkFacts.
Import MonadFacts Generation Chunks.

Lemma chain_weaken (p q : list token) (buffers : list (list token)) :
  chain (p ++ q) buffers -> chain p buffers.
Proof.
  destruct buffers as [|b rest]; simpl; [auto|].
  intros [[q' ->] H]. split; [|exact H].
  exists (q ++ q'). rewrite app_assoc. reflexivity.
Qed.

(** The buffers a stream is cut into continue one another, up to the whole
    stream. *)
Lemma due_buffers_chain code_end chunk_size rest :
  forall seen,
    chain seen (due_buffers code_end chunk_size seen rest ++ [seen ++ rest]).
Proof.
  induction rest as [|t r IH]; intros seen; simpl.
  - split; [exists []; reflexivity|exact I].
  - specialize (IH (seen ++ [t])). rewrite <- app_assoc in IH. simpl in IH.
    destruct (chunk_due code_end chunk_size (seen ++ [t])); simpl.
    + split; [exists [t]; reflexivity|exact IH].
    + apply chain_weaken with (q := [t]). exact IH.
Qed.

Lemma slice_from_app {A : Type} (a more : list A) :
  slice_from (a ++ more) (Z.of_nat (length a)) = more.
Proof.
  unfold slice_from, clamp_index.
  assert (E : (Z.of_nat (length a) <? 0) = false) by (apply Z.ltb_ge; lia).
  rewrite E, List.length_app.
  replace (Z.to_nat _) with (length a) by lia.
  apply drop_app_length.
Qed.

Lemma last_any {A : Type} (l : list A) (x d d' : A) :
  List.last (x :: l) d = List.last (x :: l) d'.
Proof.
  revert x. induction l as [|y l IH]; intros x; [reflexivity|].
  change (List.last (y :: l) d = List.last (y :: l) d'). apply IH.
Qed.

Lemma slice_from_zero {A : Type} (a : list A) : slice_from a 0 = a.
Proof. exact (slice_from_app [] a). Qed.

Section WithDeps.

Context {B : Type} (D : deps B).

Implicit Types w : world B.

(** The chunks made from buffers that continue one another, put end to end
    after the audio [before] that precedes them, are the audio of the last
    buffer. *)
Lemma chain_audio :
  prefix_consistent D ->
  forall buffers p before,
    chain p buffers ->
    buffers <> [] ->
    (forall q,
       exists more,
         codec_decode D (extract_audio_from_tokens D (p ++ q))
         = before ++ more) ->
    before
    ++ yielded_audio (chunk_events D buffers (Z.of_nat (length before)))
    = codec_decode D (extract_audio_from_tokens D (List.last buffers p)).
Proof.
  intros Hpc. induction buffers as [|b rest IH];
    intros p before Hchain Hne Hbefore; [contradiction|].
  destruct Hchain as [[q ->] Hchain].
  destruct (Hbefore q) as [more Hmore].
  cbn [chunk_events yielded_audio flat_map app].
  rewrite Hmore, slice_from_app, <- Hmore.
  destruct rest as [|b' rest'].
  - simpl. rewrite app_nil_r. rewrite Hmore. reflexivity.
  - rewrite app_assoc, <- Hmore.
    change (flat_map _ (chunk_events D (b' :: rest') ?x))
      with (yielded_audio (chunk_events D (b' :: rest') x)).
    rewrite (IH (p ++ q) _ Hchain); [|discriminate|apply Hpc].
    change (List.last ((p ++ q) :: b' :: rest') p)
      with (List.last (b' :: rest') p).
    rewrite (last_any rest' b' (p ++ q) p). reflexivity.
Qed.

(** The run of [_generate_stream] without [stream_segments] on a stream
    that ends normally and whose buffers all hold an audio token. *)
Lemma stream_run self text speaker temperature repetition_penalty n
    additional_gen_config additional_dynamic_generator_config chunk_size
    code_end others tokens b w :
  4 <= chunk_size ->
  n <= cfg_max_seq_length (config self) ->
  tokenizer_encode D (special_code_end D) = code_end :: others ->
  model_stream D (runtime_of self) (sampler w)
    (prepare_prompt D self text speaker)
    {| gc_temperature := temperature;
       gc_repetition_penalty := repetition_penalty;
       gc_max_length := Some n;
       gc_additional_gen_config := additional_gen_config |}
  = ((tokens, None), b) ->
  Forall (fun buffer => extract_audio_from_tokens D buffer <> [])
    (chunk_buffers code_end chunk_size tokens) ->
  _generate_stream D self text speaker temperature repetition_penalty
    (Some n) additional_gen_config additional_dynamic_generator_config
    chunk_size false (fun o => emit (Yield o)) w
  = (Returns tt,
     {| sampler := b; files := files w;
        trace :=
          trace w
          ++ Generate (runtime_of self) (prepare_prompt D self text speaker)
               {| gc_temperature := temperature;
                  gc_repetition_penalty := repetition_penalty;
                  gc_max_length := Some n;
                  gc_additional_gen_config := additional_gen_config |}
               true None
             :: chunk_events D (chunk_buffers code_end chunk_size tokens)
                  0 |}).
Proof.
  intros Hsize Hn Hcode Hstream Hok.
  unfold _generate_stream, chunk_buffers in *.
  assert (Hlt : (chunk_size <? 4) = false) by (apply Z.ltb_ge; exact Hsize).
  rewrite Hlt, Hcode. apply Forall_app in Hok as [Hdue Hlast].
  unfold model_call_stream.
  remember (fun o : ModelOutput => emit (B := B) (Yield o)) as y eqn:Hy.
  run. rewrite (check_accepted self n w Hn), Hstream.
  subst y.
  rewrite (stream_loop_chunks D self code_end chunk_size Hsize tokens [] 0 0);
    [| lia | rewrite Z.mod_0_l by lia; reflexivity | exact Hdue].
  cbn [audio_buffer start_index app]. rewrite chunk_events_app.
  destruct tokens as [|t r].
  - unfold note. simpl. rewrite <- app_assoc. reflexivity.
  - inversion Hlast as [|? ? Hb _]; subst.
    rewrite (_create_audio_chunk_run D self _ _ _ Hb).
    unfold note. cbn [sampler files trace chunk_events].
    rewrite <- !app_assoc. reflexivity.
Qed.

(** With a codec for which more tokens only add samples, streaming loses
    and repeats nothing: the chunks [_generate_stream] yields, put end to
    end, are the audio of the whole stream. *)
Theorem streamed_audio_is_whole (self : interface) (text : pystr)
    (speaker : option pyval) (temperature repetition_penalty : Q) (n : Z)
    (additional_gen_config additional_dynamic_generator_config : pyval)
    (chunk_size : Z) (code_end : token) (others tokens : list token)
    (b : B) w :
  prefix_consistent D ->
  4 <= chunk_size ->
  n <= cfg_max_seq_length (config self) ->
  tokenizer_encode D (special_code_end D) = code_end :: others ->
  model_stream D (runtime_of self) (sampler w)
    (prepare_prompt D self text speaker)
    {| gc_temperature := temperature;
       gc_repetition_penalty := repetition_penalty;
       gc_max_length := Some n;
       gc_additional_gen_config := additional_gen_config |}
  = ((tokens, None), b) ->
  tokens <> [] ->
  Forall (fun buffer => extract_audio_from_tokens D buffer <> [])
    (chunk_buffers code_end chunk_size tokens) ->
  exists t,
    _generate_stream D self text speaker temperature repetition_penalty
      (Some n) additional_gen_config additional_dynamic_generator_config
      chunk_size false (fun o => emit (Yield o)) w
    = (Returns tt,
       {| sampler := b; files := files w; trace := trace w ++ t |})
    /\ yielded_audio t
       = codec_decode D (extract_audio_from_tokens D tokens).
Proof.
  intros Hpc Hsize Hn Hcode Hstream Hne Hok.
  eexists. split.
  - apply (stream_run self text speaker temperature repetition_penalty n
             additional_gen_config additional_dynamic_generator_config
             chunk_size code_end others tokens b w); assumption.
  - change (yielded_audio (?e :: ?l)) with (yielded_audio l).
    unfold chunk_buffers. destruct tokens as [|t0 r]; [contradiction|].
    pose proof (chain_audio Hpc
                  (due_buffers code_end chunk_size [] (t0 :: r)
                   ++ [t0 :: r]) [] []) as H.
    rewrite last_last in H. apply H.
    + exact (due_buffers_chain code_end chunk_size (t0 :: r) []).
    + intros E. apply app_eq_nil in E as [_ E]. discriminate.
    + intros q. eexists. reflexivity.
Qed.

Lemma stream_loop_segments self code_end chunk_size yield_ tokens :
  forall st w,
    stream_loop D self code_end chunk_size true yield_ tokens st w
    = (Returns
         {| audio_buffer := audio_buffer st ++ tokens;
            start_index := start_index st;
            chunks := chunks st |}, w).
Proof.
  induction tokens as [|t r IH]; intros st w; simpl.
  - rewrite app_nil_r. destruct st. reflexivity.
  - run. rewrite IH. cbn [audio_buffer start_index chunks].
    rewrite <- app_assoc. reflexivity.
Qed.

(** With [stream_segments], [_generate_stream] yields no chunk while the
    backend streams and, at the end, one chunk with the whole audio of the
    stream; it yields none for a stream without token. [chunk_size] plays
    no part once it has passed the check. *)
Theorem _generate_stream_whole_segment (self : interface) (text : pystr)
    (speaker : option pyval) (temperature repetition_penalty : Q) (n : Z)
    (additional_gen_config additional_dynamic_generator_config : pyval)
    (chunk_size : Z) (code_end : token) (others tokens : list token)
    (b : B) w :
  4 <= chunk_size ->
  n <= cfg_max_seq_length (config self) ->
  tokenizer_encode D (special_code_end D) = code_end :: others ->
  model_stream D (runtime_of self) (sampler w)
    (prepare_prompt D self text speaker)
    {| gc_temperature := temperature;
       gc_repetition_penalty := repetition_penalty;
       gc_max_length := Some n;
       gc_additional_gen_config := additional_gen_config |}
  = ((tokens, None), b) ->
  (tokens <> [] -> extract_audio_from_tokens D tokens <> []) ->
  _generate_stream D self text speaker temperature repetition_penalty
    (Some n) additional_gen_config additional_dynamic_generator_config
    chunk_size true (fun o => emit (Yield o)) w
  = (Returns tt,
     {| sampler := b; files := files w;
        trace :=
          trace w
          ++ Generate (runtime_of self) (prepare_prompt D self text speaker)
               {| gc_temperature := temperature;
                  gc_repetition_penalty := repetition_penalty;
                  gc_max_length := Some n;
                  gc_additional_gen_config := additional_gen_config |}
               true None
             :: match tokens with
                | [] => []
                | _ =>
                    [Decode (extract_audio_from_tokens D tokens);
                     Yield
                       {| mo_audio :=
                            Some (codec_decode D
                                    (extract_audio_from_tokens D tokens));
                          mo_sr := codec_sr D |}]
                end |}).
Proof.
  intros Hsize Hn Hcode Hstream Hok.
  unfold _generate_stream.
  assert (Hlt : (chunk_size <? 4) = false) by (apply Z.ltb_ge; exact Hsize).
  rewrite Hlt, Hcode. unfold model_call_stream.
  remember (fun o : ModelOutput => emit (B := B) (Yield o)) as y eqn:Hy.
  run. rewrite (check_accepted self n w Hn), Hstream.
  rewrite stream_loop_segments. cbn [audio_buffer start_index app].
  subst y. destruct tokens as [|t r]; [reflexivity|].
  rewrite (_create_audio_chunk_run D self _ _ _ (Hok ltac:(discriminate))).
  rewrite slice_from_zero. unfold note.
  cbn [sampler files trace]. rewrite <- !app_assoc. reflexivity.
Qed.

End WithDeps.

Lemma demo_prefix_consistent reply streamed words :
  prefix_consistent (demo reply streamed words).
Proof.
  intros p q. simpl.
  exists (flat_map (fun c => [c; c])
            (map (fun t => t - 1000) (List.filter (fun t => 1000 <=? t) q))).
  rewrite List.filter_app, map_app, flat_map_app. reflexivity.
Qed.

(** The chunks of a stream of nine tokens cut every four [code_end]. *)
Lemma _generate_stream_chunks_witness :
  _generate_stream demo_chunks (InterfaceHF demo_config) (of_string "Hi")
    None 0.1%Q 1.1%Q (Some 4096) (PyDict []) (PyDict []) 4 false
    (fun o => emit (Yield o)) fresh
  = (Returns tt,
     {| sampler := tt; files := files fresh;
        trace :=
          trace fresh
          ++ Generate HF (Tensor [72; 105])
               {| gc_temperature := 0.1%Q;
                  gc_repetition_penalty := 1.1%Q;
                  gc_max_length := Some 4096;
                  gc_additional_gen_config := PyDict [] |}
               true None
             :: chunk_events demo_chunks
                  (chunk_buffers 2 4 [1001; 2; 1002; 2; 2; 2; 1003; 2; 7])
                  0 |}).
Proof.
  apply (_generate_stream_chunks demo_chunks (InterfaceHF demo_config)
           (of_string "Hi") None 0.1%Q 1.1%Q 4096 (PyDict []) (PyDict []) 4
           2 [] [1001; 2; 1002; 2; 2; 2; 1003; 2; 7] tt fresh).
  - lia.
  - simpl. lia.
  - reflexivity.
  - reflexivity.
  - repeat constructor; discriminate.
Defined.

Lemma streamed_audio_is_whole_witness :
  exists t,
    _generate_stream demo_chunks (InterfaceHF demo_config) (of_string "Hi")
      None 0.1%Q 1.1%Q (Some 4096) (PyDict []) (PyDict []) 4 false
      (fun o => emit (Yield o)) fresh
    = (Returns tt,
       {| sampler := tt; files := files fresh; trace := trace fresh ++ t |})
    /\ yielded_audio t = [1; 1; 2; 2; 3; 3].
Proof.
  apply (streamed_audio_is_whole demo_chunks (InterfaceHF demo_config)
           (of_string "Hi") None 0.1%Q 1.1%Q 4096 (PyDict []) (PyDict []) 4
           2 [] [1001; 2; 1002; 2; 2; 2; 1003; 2; 7] tt fresh).
  - apply demo_prefix_consistent.
  - lia.
  - simpl. lia.
  - reflexivity.
  - reflexivity.
  - discriminate.
  - repeat constructor; discriminate.
Defined.

Lemma _generate_stream_whole_segment_witness :
  _generate_stream demo_chunks (InterfaceGGUF demo_config) (of_string "Hi")
    None 0.1%Q 1.1%Q (Some 4096) (PyDict []) (PyDict []) 4 true
    (fun o => emit (Yield o)) fresh
  = (Returns tt,
     {| sampler := tt; files := files fresh;
        trace :=
          trace fresh
          ++ [Generate GGUF (Tokens [72; 105])
                {| gc_temperature := 0.1%Q;
                   gc_repetition_penalty := 1.1%Q;
                   gc_max_length := Some 4096;
                   gc_additional_gen_config := PyDict [] |}
                true None;
              Decode [1; 2; 3];
              Yield {| mo_audio := Some [1; 1; 2; 2; 3; 3];
                       mo_sr := 24000 |}] |}).
Proof.
  apply (_generate_stream_whole_segment demo_chunks
           (InterfaceGGUF demo_config) (of_string "Hi") None 0.1%Q 1.1%Q
           4096 (PyDict []) (PyDict []) 4 2 []
           [1001; 2; 1002; 2; 2; 2; 1003; 2; 7] tt fresh).
  - lia.
  - simpl. lia.
  - reflexivity.
  - reflexivity.
  - discriminate.
Defined.

End ChunkFacts.

(** ** The calls of the backend while streaming *)

Module SegmentFacts.
Import MonadFacts Generation Streaming.

Lemma quiet_filter (t : list event) :
  Forall quiet t -> List.filter is_generate t = [].
Proof.
  induction 1 as [|e t He _ IH]; simpl; [reflexivity|].
  unfold quiet in He. rewrite He. exact IH.
Qed.

Section WithDeps.

Context {B : Type} (D : deps B).

Implicit Types w : world B.

Lemma get_audio_quiet self tokens : only_emits quiet (get_audio D self tokens).
Proof.
  unfold get_audio. destruct (extract_audio_from_tokens D tokens);
    (apply only_emits_bind; [apply only_emits_emit; reflexivity|]);
    intros _; apply only_emits_ret.
Qed.

Lemma _create_audio_chunk_quiet self tokens idx :
  only_emits quiet (_create_audio_chunk D self tokens idx).
Proof.
  unfold _create_audio_chunk. apply only_emits_bind.
  - apply get_audio_quiet.
  - intros [a|]; [apply only_emits_ret|apply only_emits_raise].
Qed.

Lemma stream_loop_quiet self code_end_token chunk_size stream_segments
    yield_ tokens :
  (forall o, only_emits quiet (yield_ o)) ->
  forall st,
    only_emits quiet
      (stream_loop D self code_end_token chunk_size stream_segments yield_
         tokens st).
Proof.
  intros Hy. induction tokens as [|token rest IH]; intros st; simpl.
  - apply only_emits_ret.
  - apply only_emits_bind; [|intros st'; apply IH].
    destruct stream_segments; [apply only_emits_ret|].
    destruct (_ =? chunk_size); [|apply only_emits_ret].
    apply only_emits_bind; [apply _create_audio_chunk_quiet|].
    intros [output size]. apply only_emits_bind; [apply Hy|].
    intros _. apply only_emits_ret.
Qed.

(** [_generate_stream] calls the backend at most once, with the prompt of
    its text, and it has called it when it returns. *)
Lemma _generate_stream_calls self text speaker temperature
    repetition_penalty max_length additional_gen_config
    additional_dynamic_generator_config chunk_size stream_segments yield_ w :
  (forall o, only_emits quiet (yield_ o)) ->
  exists t,
    trace (snd (_generate_stream D self text speaker temperature
                  repetition_penalty max_length additional_gen_config
                  additional_dynamic_generator_config chunk_size
                  stream_segments yield_ w))
    = trace w ++ t
    /\ ((List.filter is_generate t = []
         /\ exists e,
              fst (_generate_stream D self text speaker temperature
                     repetition_penalty max_length additional_gen_config
                     additional_dynamic_generator_config chunk_size
                     stream_segments yield_ w)
              = Raises e)
        \/ List.filter is_generate t
           = [segment_call D self speaker temperature repetition_penalty
                max_length additional_gen_config text]).
Proof.
  intros Hy. unfold _generate_stream.
  destruct (chunk_size <? 4).
  { exists []. rewrite app_nil_r. split; [reflexivity|]. left. eauto. }
  rewrite bind_run.
  destruct (check_generation_max_length self max_length w) as [[[]|e] w0] eqn:Ec.
  2:{ assert (w0 = w) as ->.
      { revert Ec. unfold check_generation_max_length.
        destruct max_length as [n|]; [destruct (_ <? n)|]; intros [= _ <-];
          reflexivity. }
      exists []. rewrite app_nil_r. split; [reflexivity|]. left. eauto. }
  assert (w0 = w) as ->.
  { revert Ec. unfold check_generation_max_length.
    destruct max_length as [n|]; [destruct (_ <? n)|]; intros [= <-];
      reflexivity. }
  rewrite bind_run.
  destruct (tokenizer_encode D (special_code_end D)) as [|code_end others].
  { exists []. rewrite app_nil_r. split; [reflexivity|]. left. eauto. }
  cbv zeta. change (ret code_end w) with (Returns code_end, w). cbv iota beta.
  rewrite bind_run. unfold model_call_stream at 1.
  destruct (model_stream D (runtime_of self) (sampler w)
              (prepare_prompt D self text speaker) _) as [[tokens failure] b].
  match goal with
  | |- context [(?m ≫= ?k) ?w1] =>
      assert (Htail : only_emits quiet (m ≫= k))
  end.
  { apply only_emits_bind; [apply stream_loop_quiet; exact Hy|].
    intros st. destruct failure; [apply only_emits_raise|].
    destruct (audio_buffer st); [apply only_emits_ret|].
    apply only_emits_bind; [apply _create_audio_chunk_quiet|].
    intros [output size]. apply Hy. }
  match goal with
  | |- context [(?m ≫= ?k) ?w1] =>
      destruct (Htail w1) as (t & Ht & Hq)
  end.
  cbn [trace] in Ht. rewrite Ht.
  eexists. rewrite <- app_assoc. split; [reflexivity|].
  right. simpl. rewrite (quiet_filter t Hq). reflexivity.
Qed.

Lemma segments_loop_calls self speaker temperature repetition_penalty
    max_length additional_gen_config additional_dynamic_generator_config
    chunk_size stream_segments total segments :
  forall idx w,
    exists t rest,
      trace (snd (segments_loop D self speaker temperature
                    repetition_penalty max_length additional_gen_config
                    additional_dynamic_generator_config chunk_size
                    stream_segments total idx segments w))
      = trace w ++ t
      /\ map (segment_call D self speaker temperature repetition_penalty
                max_length additional_gen_config) segments
         = List.filter is_generate t ++ rest
      /\ (fst (segments_loop D self speaker temperature repetition_penalty
                 max_length additional_gen_config
                 additional_dynamic_generator_config chunk_size
                 stream_segments total idx segments w)
          = Returns tt -> rest = []).
Proof.
  induction segments as [|segment more IH]; intros idx w.
  - exists [], []. simpl. rewrite app_nil_r. auto.
  - simpl segments_loop. rewrite bind_run.
    change (log INFO (ProcessingSegment (idx + 1) total) w)
      with (Returns tt, note w [Log INFO (ProcessingSegment (idx + 1) total)]).
    cbv iota beta. rewrite bind_run.
    destruct (_generate_stream_calls self segment speaker temperature
                repetition_penalty max_length additional_gen_config
                additional_dynamic_generator_config chunk_size
                stream_segments (fun i => emit (QueuePut (Some i)))
                (note w [Log INFO (ProcessingSegment (idx + 1) total)]))
      as (t1 & Ht1 & Hcases).
    { intros o. apply only_emits_emit. reflexivity. }
    destruct (_generate_stream D self segment speaker temperature
                repetition_penalty max_length additional_gen_config
                additional_dynamic_generator_config chunk_size
                stream_segments (fun i => emit (QueuePut (Some i)))
                (note w [Log INFO (ProcessingSegment (idx + 1) total)]))
      as [[[]|e] w1]; cbn [fst snd] in *.
    + destruct Hcases as [[_ [e He]]|Hcall]; [discriminate|].
      destruct (IH (idx + 1) w1) as (t2 & rest & Ht2 & Hmap & Hret).
      exists (Log INFO (ProcessingSegment (idx + 1) total) :: t1 ++ t2), rest.
      split; [|split].
      * rewrite Ht2, Ht1. unfold note. cbn [trace].
        rewrite <- !app_assoc. reflexivity.
      * cbn [List.filter is_generate map]. rewrite List.filter_app, Hcall, Hmap.
        reflexivity.
      * exact Hret.
    + assert (Htrace : trace w1
                       = trace w
                         ++ Log INFO (ProcessingSegment (idx + 1) total) :: t1).
      { rewrite Ht1. unfold note. cbn [trace]. rewrite <- app_assoc.
        reflexivity. }
      destruct Hcases as [[Hnone _]|Hcall].
      * exists (Log INFO (ProcessingSegment (idx + 1) total) :: t1),
          (map (segment_call D self speaker temperature repetition_penalty
                  max_length additional_gen_config) (segment :: more)).
        split; [exact Htrace|]. split; [|discriminate].
        cbn [List.filter is_generate]. rewrite Hnone. reflexivity.
      * exists (Log INFO (ProcessingSegment (idx + 1) total) :: t1),
          (map (segment_call D self speaker temperature repetition_penalty
                  max_length additional_gen_config) more).
        split; [exact Htrace|]. split; [|discriminate].
        cbn [List.filter is_generate]. rewrite Hcall. reflexivity.
Qed.

(** [generate_stream] calls the backend once for each segment of the text,
    in the order of the text and with the prompt of the segment, up to the
    segment that fails, if one does; every call is a streaming call without
    [additional_dynamic_generator_config]. When no exception is logged,
    every segment has had its call, unless an exception that does not
    derive from [Exception] has ended [generate_stream]. *)
Theorem generate_stream_calls (self : interface) (text : pystr)
    (speaker : option pyval) (temperature repetition_penalty : Q)
    (max_length : option Z)
    (additional_gen_config additional_dynamic_generator_config : pyval)
    (chunk_size : Z) (stream_segments : bool) w :
  exists t rest,
    trace (snd (generate_stream D self text speaker temperature
                  repetition_penalty max_length additional_gen_config
                  additional_dynamic_generator_config chunk_size
                  stream_segments w))
    = trace w ++ t
    /\ map (segment_call D self speaker temperature repetition_penalty
              max_length additional_gen_config)
         (split_text self text None)
       = List.filter is_generate t ++ rest
    /\ (List.filter is_error_log t = [] ->
        rest = []
        \/ exists e,
             fst (generate_stream D self text speaker temperature
                    repetition_penalty max_length additional_gen_config
                    additional_dynamic_generator_config chunk_size
                    stream_segments w)
             = Raises e
             /\ is_exception e = false).
Proof.
  destruct (split_text self text None) as [|segment more] eqn:E.
  - exists [QueueNew; ThreadStart;
            Log INFO (ProcessingText (Z.of_nat (length text)))], [].
    split; [|split; [reflexivity|auto]].
    unfold generate_stream. run. rewrite E. simpl. rewrite <- !app_assoc.
    reflexivity.
  - assert (Hne : split_text self text None <> []) by (rewrite E; discriminate).
    rewrite (generate_stream_run D self text speaker temperature
               repetition_penalty max_length additional_gen_config
               additional_dynamic_generator_config chunk_size
               stream_segments w Hne).
    unfold try_body. rewrite E.
    destruct (segments_loop_calls self speaker temperature
                repetition_penalty max_length additional_gen_config
                additional_dynamic_generator_config chunk_size
                stream_segments (Z.of_nat (length (segment :: more)))
                (segment :: more) 0 (at_try self text stream_segments w))
      as (tb & rest & Htb & Hmap & Hret).
    destruct (segments_loop D self speaker temperature repetition_penalty
                max_length additional_gen_config
                additional_dynamic_generator_config chunk_size
                stream_segments (Z.of_nat (length (segment :: more))) 0
                (segment :: more) (at_try self text stream_segments w))
      as [r wb]; cbn [fst snd] in *.
    unfold at_try, note in Htb. cbn [trace] in Htb.
    match type of Htb with
    | _ = (_ ++ ?P) ++ _ => set (pre := P) in *
    end.
    assert (Hpre : List.filter is_generate pre = []
                   /\ List.filter is_error_log pre = [])
      by (subst pre; destruct stream_segments; split; reflexivity).
    assert (Hpost : List.filter is_generate (after_try r) = [])
      by (destruct r; reflexivity).
    destruct (escapes r) eqn:Hesc; cbn [fst snd].
    + exists (pre ++ tb), rest. split; [|split].
      * rewrite Htb, <- !app_assoc. reflexivity.
      * rewrite !List.filter_app, (proj1 Hpre). exact Hmap.
      * intros _. right. destruct r as [[]|e]; [discriminate|].
        exists e. split; [reflexivity|].
        simpl in Hesc. destruct (is_exception e); [discriminate|reflexivity].
    + exists (pre ++ tb ++ after_try r), rest. split; [|split].
      * unfold note. cbn [trace]. rewrite Htb, <- !app_assoc. reflexivity.
      * rewrite !List.filter_app, Hpost, (proj1 Hpre), app_nil_r. exact Hmap.
      * intros Hquiet. left. apply Hret.
        rewrite !List.filter_app in Hquiet.
        apply app_eq_nil in Hquiet as [_ Hquiet].
        apply app_eq_nil in Hquiet as [_ Hquiet].
        destruct r as [[]|e]; [reflexivity|discriminate].
Qed.

End WithDeps.
End SegmentFacts.

(** ** One call of [generate] *)

Module GenerateFacts.
Import MonadFacts Generation Runtimes.

Section WithDeps.

Context {B : Type} (D : deps B).

Implicit Types w : world B.

(** [generate], for whatever runtime, is the pipeline with the steps of
    that runtime. *)
Lemma generate_as_pipeline self text speaker temperature repetition_penalty
    max_length additional_gen_config additional_dynamic_generator_config :
  generate D self text speaker temperature repetition_penalty max_length
    additional_gen_config additional_dynamic_generator_config
  = generate_pipeline D
      (fun prompt =>
         match runtime_of self with
         | HF => Tensor (tokenizer_encode D prompt)
         | GGUF => Tokens (tokenizer_encode D prompt)
         | EXL2 => Prompt prompt
         end)
      (completion_of self)
      (dynamic_of self additional_dynamic_generator_config)
      self text speaker temperature repetition_penalty max_length
      additional_gen_config.
Proof.
  unfold generate, generate_pipeline, completion_of, dynamic_of,
    InterfaceHF_generate, InterfaceGGUF_generate, InterfaceEXL2_generate,
    prepare_prompt, InterfaceHF_prepare_prompt, InterfaceGGUF_prepare_prompt,
    InterfaceEXL2_prepare_prompt.
  destruct (runtime_of self); reflexivity.
Qed.

Lemma encoded_prompt self text speaker :
  match runtime_of self with
  | HF =>
      Tensor (tokenizer_encode D
                (get_completion_prompt D text (language self) speaker))
  | GGUF =>
      Tokens (tokenizer_encode D
                (get_completion_prompt D text (language self) speaker))
  | EXL2 => Prompt (get_completion_prompt D text (language self) speaker)
  end
  = prepare_prompt D self text speaker.
Proof.
  unfold prepare_prompt, InterfaceHF_prepare_prompt,
    InterfaceGGUF_prepare_prompt, InterfaceEXL2_prepare_prompt.
  destruct (runtime_of self); reflexivity.
Qed.

(** A failure of the backend goes through [generate] as it is: the call was
    made once and nothing is decoded. *)
Theorem generate_backend_failure (self : interface) (text : pystr)
    (speaker : option pyval) (temperature repetition_penalty : Q) (n : Z)
    (additional_gen_config additional_dynamic_generator_config : pyval)
    (e : exn) (b : B) w :
  n <= cfg_max_seq_length (config self) ->
  model_generate D (runtime_of self) (sampler w)
    (prepare_prompt D self text speaker)
    {| gc_temperature := temperature;
       gc_repetition_penalty := repetition_penalty;
       gc_max_length := Some n;
       gc_additional_gen_config := additional_gen_config |}
    (dynamic_of self additional_dynamic_generator_config)
  = (Raises e, b) ->
  generate D self text speaker temperature repetition_penalty (Some n)
    additional_gen_config additional_dynamic_generator_config w
  = (Raises e,
     {| sampler := b; files := files w;
        trace :=
          trace w ++ announce D self text speaker
          ++ [generate_call D self text speaker temperature
                repetition_penalty (Some n) additional_gen_config
                additional_dynamic_generator_config] |}).
Proof.
  intros Hn Hmodel.
  rewrite generate_as_pipeline, generate_pipeline_run. cbv zeta.
  rewrite (check_accepted self n w Hn), encoded_prompt, Hmodel.
  reflexivity.
Qed.

(** When the answer of the backend holds no audio token, [generate] logs a
    warning, calls no codec, and hands [None] to the constructor of
    [ModelOutput]: it ends as [ModelOutput(None, sr)] does, with the
    exception of the constructor when it refuses [None] (which the class of
    the package does, for want of a tensor to resample), with the object
    otherwise. *)
Theorem generate_without_audio_tokens (self : interface) (text : pystr)
    (speaker : option pyval) (temperature repetition_penalty : Q) (n : Z)
    (additional_gen_config additional_dynamic_generator_config : pyval)
    (output : list token) (b : B) w :
  n <= cfg_max_seq_length (config self) ->
  model_generate D (runtime_of self) (sampler w)
    (prepare_prompt D self text speaker)
    {| gc_temperature := temperature;
       gc_repetition_penalty := repetition_penalty;
       gc_max_length := Some n;
       gc_additional_gen_config := additional_gen_config |}
    (dynamic_of self additional_dynamic_generator_config)
  = (Returns output, b) ->
  extract_audio_from_tokens D
    (completion_of self (prepare_prompt D self text speaker) output) = [] ->
  generate D self text speaker temperature repetition_penalty (Some n)
    additional_gen_config additional_dynamic_generator_config w
  = (match model_output_none D with
     | Some e => Raises e
     | None => Returns {| mo_audio := None; mo_sr := codec_sr D |}
     end,
     {| sampler := b; files := files w;
        trace :=
          trace w ++ announce D self text speaker
          ++ [generate_call D self text speaker temperature
                repetition_penalty (Some n) additional_gen_config
                additional_dynamic_generator_config;
              Log WARNING NoAudioTokens]
          ++ if verbose self then [Log INFO GenerationCompleted] else [] |}).
Proof.
  intros Hn Hmodel Hnone.
  rewrite generate_as_pipeline, generate_pipeline_run. cbv zeta.
  rewrite (check_accepted self n w Hn), encoded_prompt, Hmodel, Hnone.
  reflexivity.
Qed.

(** The Hugging Face backend answers with the prompt followed by the
    completion. [InterfaceHF.generate] leaves out as many tokens as the
    prompt has, whatever they are: audio tokens that stand there, such as
    the codes of the speaker, are not decoded. *)
Theorem generate_hf_skips_prompt (self : interface) (text : pystr)
    (speaker : option pyval) (temperature repetition_penalty : Q) (n : Z)
    (additional_gen_config additional_dynamic_generator_config : pyval)
    (head tail : list token) (b : B) w :
  runtime_of self = HF ->
  n <= cfg_max_seq_length (config self) ->
  model_generate D HF (sampler w) (prepare_prompt D self text speaker)
    {| gc_temperature := temperature;
       gc_repetition_penalty := repetition_penalty;
       gc_max_length := Some n;
       gc_additional_gen_config := additional_gen_config |} None
  = (Returns (head ++ tail), b) ->
  length head
  = length (tokenizer_encode D
              (get_completion_prompt D text (language self) speaker)) ->
  extract_audio_from_tokens D tail <> [] ->
  fst (generate D self text speaker temperature repetition_penalty (Some n)
         additional_gen_config additional_dynamic_generator_config w)
  = Returns
      {| mo_audio :=
           Some (codec_decode D (extract_audio_from_tokens D tail));
         mo_sr := codec_sr D |}.
Proof.
  intros Hr Hn Hmodel Hlen Hsome.
  rewrite generate_as_pipeline, generate_pipeline_run. cbv zeta.
  rewrite (check_accepted self n w Hn), encoded_prompt.
  unfold dynamic_of. rewrite Hr, Hmodel.
  assert (Hcut : completion_of self (prepare_prompt D self text speaker)
                   (head ++ tail) = tail).
  { unfold completion_of, prepare_prompt. rewrite Hr.
    unfold InterfaceHF_prepare_prompt. cbn [input_len]. rewrite <- Hlen.
    apply ChunkFacts.slice_from_app. }
  rewrite Hcut.
  destruct (extract_audio_from_tokens D tail); [contradiction|reflexivity].
Qed.

End WithDeps.

Lemma generate_backend_failure_witness :
  generate demo_failing (InterfaceEXL2 demo_config) (of_string "Hi") None
    0.1%Q 1.1%Q (Some 4096) (PyDict []) (PyDict []) fresh
  = (Raises (BackendError "out of memory"),
     {| sampler := tt; files := files fresh;
        trace :=
          trace fresh
          ++ announce demo_failing (InterfaceEXL2 demo_config)
               (of_string "Hi") None
          ++ [generate_call demo_failing (InterfaceEXL2 demo_config)
                (of_string "Hi") None 0.1%Q 1.1%Q (Some 4096) (PyDict [])
                (PyDict [])] |}).
Proof.
  apply (generate_backend_failure demo_failing (InterfaceEXL2 demo_config)
           (of_string "Hi") None 0.1%Q 1.1%Q 4096 (PyDict []) (PyDict [])
           (BackendError "out of memory") tt fresh).
  - simpl. lia.
  - reflexivity.
Defined.

Lemma generate_without_audio_tokens_witness :
  generate demo_silent (InterfaceGGUF demo_config) (of_string "Hi") None
    0.1%Q 1.1%Q (Some 4096) (PyDict []) (PyDict []) fresh
  = (Raises (AttributeError "'NoneType' object has no attribute 'device'"),
     {| sampler := tt; files := files fresh;
        trace :=
          trace fresh
          ++ announce demo_silent (InterfaceGGUF demo_config)
               (of_string "Hi") None
          ++ [generate_call demo_silent (InterfaceGGUF demo_config)
                (of_string "Hi") None 0.1%Q 1.1%Q (Some 4096) (PyDict [])
                (PyDict []);
              Log WARNING NoAudioTokens]
          ++ [] |}).
Proof.
  apply (generate_without_audio_tokens demo_silent
           (InterfaceGGUF demo_config) (of_string "Hi") None 0.1%Q 1.1%Q
           4096 (PyDict []) (PyDict []) [] tt fresh).
  - simpl. lia.
  - reflexivity.
  - reflexivity.
Defined.

Lemma generate_hf_skips_prompt_witness :
  fst (generate (demo [1005; 1006; 1001; 1002] ([], None) [])
         (InterfaceHF demo_config) (of_string "Hi") None 0.1%Q 1.1%Q
         (Some 4096) (PyDict []) (PyDict []) fresh)
  = Returns {| mo_audio := Some [1; 1; 2; 2]; mo_sr := 24000 |}.
Proof.
  apply (generate_hf_skips_prompt (demo [1005; 1006; 1001; 1002] ([], None) [])
           (InterfaceHF demo_config) (of_string "Hi") None 0.1%Q 1.1%Q 4096
           (PyDict []) (PyDict []) [1005; 1006] [1001; 1002] tt fresh).
  - reflexivity.
  - simpl. lia.
  - reflexivity.
  - reflexivity.
  - discriminate.
Defined.

End GenerateFacts.

(** ** The two threads to the end *)

Module ThreadFacts.
Import MonadFacts Streaming PlaybackFacts.

Section WithDeps.

Context {B : Type} (D : deps B).

Implicit Types w : world B.

(** A call of [generate_stream] that got past the splitting of its text
    cannot deadlock: in every state the calling thread and the player can
    reach, either the call has passed its [join], or one of the two threads
    can take a step. *)
Theorem playback_never_deadlocks (self : interface) (text : pystr)
    (speaker : option pyval) (temperature repetition_penalty : Q)
    (max_length : option Z)
    (additional_gen_config additional_dynamic_generator_config : pyval)
    (chunk_size : Z) (stream_segments : bool) w w' :
  generate_stream D self text speaker temperature repetition_penalty
    max_length additional_gen_config additional_dynamic_generator_config
    chunk_size stream_segments w
  = (Returns tt, w') ->
  exists t,
    trace w' = trace w ++ t
    /\ forall s,
         reachable (caller_ops t) s ->
         pending s = [] \/ exists th s', step th s s'.
Proof.
  intros Hrun.
  destruct (generate_stream_events D self text speaker temperature
              repetition_penalty max_length additional_gen_config
              additional_dynamic_generator_config chunk_size
              stream_segments w w' Hrun) as (t & chunks & Ht & _ & Hops).
  exists t. split; [exact Ht|]. rewrite Hops. apply progress.
Qed.

(** And the two threads come to an end under every schedule: they take at
    most three steps for each chunk, and six more. *)
Theorem playback_ends (self : interface) (text : pystr)
    (speaker : option pyval) (temperature repetition_penalty : Q)
    (max_length : option Z)
    (additional_gen_config additional_dynamic_generator_config : pyval)
    (chunk_size : Z) (stream_segments : bool) w w' :
  generate_stream D self text speaker temperature repetition_penalty
    max_length additional_gen_config additional_dynamic_generator_config
    chunk_size stream_segments w
  = (Returns tt, w') ->
  exists t chunks,
    trace w' = trace w ++ t
    /\ caller_ops t = put_chunks chunks
    /\ forall n s,
         nsteps any_step n (started (caller_ops t)) s ->
         (n <= 3 * (length chunks + 2))%nat.
Proof.
  intros Hrun.
  destruct (generate_stream_events D self text speaker temperature
              repetition_penalty max_length additional_gen_config
              additional_dynamic_generator_config chunk_size
              stream_segments w w' Hrun) as (t & chunks & Ht & _ & Hops).
  exists t, chunks. split; [exact Ht|]. split; [exact Hops|].
  intros n s Hsteps. apply steps_bound in Hsteps.
  rewrite Hops in Hsteps. unfold steps_left, started, put_chunks in Hsteps.
  cbn [pending queue consumer] in Hsteps.
  rewrite List.length_app, length_map in Hsteps. simpl in Hsteps. lia.
Qed.

(** After the failure on a text without segment, the playback thread is
    left behind: it was started, the calling thread has no operation left
    for it, and it waits at [get()] for ever. *)
Theorem playback_left_waiting (self : interface) (text : pystr)
    (speaker : option pyval) (temperature repetition_penalty : Q)
    (max_length : option Z)
    (additional_gen_config additional_dynamic_generator_config : pyval)
    (chunk_size : Z) (stream_segments : bool) w :
  split_text self text None = [] ->
  exists t,
    trace (snd (generate_stream D self text speaker temperature
                  repetition_penalty max_length additional_gen_config
                  additional_dynamic_generator_config chunk_size
                  stream_segments w))
    = trace w ++ t
    /\ List.filter is_thread_start t = [ThreadStart]
    /\ caller_ops t = []
    /\ forall s,
         reachable (caller_ops t) s ->
         consumer s = Waiting /\ played s = [] /\ ~ ended (consumer s).
Proof.
  intros Hnone.
  exists [QueueNew; ThreadStart;
          Log INFO (ProcessingText (Z.of_nat (length text)))].
  split; [|split; [reflexivity|split; [reflexivity|]]].
  - unfold generate_stream. run. rewrite Hnone. simpl.
    rewrite <- !app_assoc. reflexivity.
  - simpl caller_ops. intros s Hreach.
    assert (Hs : s = started []).
    { unfold reachable in Hreach.
      apply rtc_ind_r with (P := fun s => s = started [])
        (x := started []) in Hreach; [exact Hreach|reflexivity|].
      intros s1 s2 _ [th Hstep] ->. inversion Hstep. }
    subst s. simpl. repeat split. intros [H|H]; discriminate.
Qed.

End WithDeps.

Lemma playback_never_deadlocks_witness :
  exists t,
    trace (snd (generate_stream demo_stream (InterfaceHF demo_config)
                  (of_string "Hi. Ho") None 0.1%Q 1.1%Q (Some 4096)
                  (PyDict []) (PyDict []) 8 true fresh))
    = trace fresh ++ t
    /\ forall s,
         reachable (caller_ops t) s ->
         pending s = [] \/ exists th s', step th s s'.
Proof.
  apply (playback_never_deadlocks demo_stream (InterfaceHF demo_config)
           (of_string "Hi. Ho") None 0.1%Q 1.1%Q (Some 4096) (PyDict [])
           (PyDict []) 8 true fresh).
  reflexivity.
Defined.

Lemma playback_ends_witness :
  exists t chunks,
    trace (snd (generate_stream demo_stream (InterfaceHF demo_config)
                  (of_string "Hi. Ho") None 0.1%Q 1.1%Q (Some 4096)
                  (PyDict []) (PyDict []) 8 true fresh))
    = trace fresh ++ t
    /\ caller_ops t = put_chunks chunks
    /\ forall n s,
         nsteps any_step n (started (caller_ops t)) s ->
         (n <= 3 * (length chunks + 2))%nat.
Proof.
  apply (playback_ends demo_stream (InterfaceHF demo_config)
           (of_string "Hi. Ho") None 0.1%Q 1.1%Q (Some 4096) (PyDict [])
           (PyDict []) 8 true fresh).
  reflexivity.
Defined.

Lemma playback_left_waiting_witness :
  exists t,
    trace (snd (generate_stream demo_stream (InterfaceHF demo_config)
                  (of_string ". !") None 0.1%Q 1.1%Q (Some 4096)
                  (PyDict []) (PyDict []) 8 true fresh))
    = trace fresh ++ t
    /\ List.filter is_thread_start t = [ThreadStart]
    /\ caller_ops t = []
    /\ forall s,
         reachable (caller_ops t) s ->
         consumer s = Waiting /\ played s = [] /\ ~ ended (consumer s).
Proof.
  apply (playback_left_waiting demo_stream (InterfaceHF demo_config)
           (of_string ". !") None 0.1%Q 1.1%Q (Some 4096) (PyDict [])
           (PyDict []) 8 true fresh).
  reflexivity.
Defined.

End ThreadFacts.

(** ** More on the segments of a text *)

Module SplitFacts.
Import PyStrFacts SplitText.

Lemma rstrip_nil_spaces (s : pystr) :
  rstrip s = [] -> Forall (fun c => isspace c = true) s.
Proof.
  induction s as [|c r IH]; simpl; intros H; [constructor|].
  destruct (rstrip r) as [|x r'] eqn:E; [|discriminate].
  destruct (isspace c) eqn:Ec; [|discriminate].
  constructor; [exact Ec|apply IH; reflexivity].
Qed.

Lemma lstrip_spaces (s : pystr) :
  Forall (fun c => isspace c = true) (lstrip s) ->
  Forall (fun c => isspace c = true) s.
Proof.
  induction s as [|c r IH]; simpl; intros H; [constructor|].
  destruct (isspace c) eqn:Ec; [|exact H].
  constructor; [exact Ec|apply IH; exact H].
Qed.

Lemma strip_nil_spaces (s : pystr) :
  strip s = [] -> Forall (fun c => isspace c = true) s.
Proof.
  intros H. apply lstrip_spaces, rstrip_nil_spaces. exact H.
Qed.

(** Every code point of the text is consumed by a match or enters a
    piece. *)
Lemma re_split_go_cover (R S : Z -> Prop) alts :
  (forall d, In d alts -> Forall R d) ->
  forall text skip piece,
    Forall R (firstn skip text) ->
    Forall (Forall S) (re_split_go alts text skip piece) ->
    Forall (fun c => R c \/ S c) text.
Proof.
  intros HR. induction text as [|c rest IH]; intros skip piece Hskip Hpieces.
  - constructor.
  - destruct skip as [|k]; simpl in Hpieces.
    + destruct (first_match alts (c :: rest)) as [d|] eqn:E.
      * apply first_match_spec in E as (Hin & Hne & tail & Htext).
        destruct d as [|x d']; [congruence|].
        simpl in Htext. inversion Htext; subst x rest.
        specialize (HR _ Hin). inversion HR as [|? ? Hc Hd']; subst.
        constructor; [left; exact Hc|].
        inversion Hpieces as [|? ? _ Hrest]; subst.
        apply (IH (length (c :: d') - 1)%nat []); [|exact Hrest].
        simpl. rewrite Nat.sub_0_r, firstn_app, Nat.sub_diag, firstn_all.
        simpl. rewrite app_nil_r. exact Hd'.
      * destruct (re_split_go_order alts rest 0 (piece ++ [c]))
          as (q & qs & after & H1 & _ & _).
        constructor.
        -- right. rewrite H1 in Hpieces.
           inversion Hpieces as [|? ? Hp _]; subst.
           rewrite List.Forall_forall in Hp. apply Hp.
           apply in_or_app. left. apply in_or_app. right. left. reflexivity.
        -- apply (IH 0%nat (piece ++ [c])); [constructor|exact Hpieces].
    + simpl in Hskip. inversion Hskip as [|? ? Hc Hk]; subst.
      constructor; [left; exact Hc|]. apply (IH k piece); assumption.
Qed.

Lemma default_delimiter_chars d :
  In d default_delimiters ->
  Forall (fun c => is_delimiter_char c = true) d.
Proof.
  intros Hd. apply List.Forall_forall. intros c Hc.
  unfold is_delimiter_char. apply existsb_exists. exists d.
  split; [exact Hd|]. apply existsb_exists. exists c.
  split; [exact Hc|apply Z.eqb_refl].
Qed.

Lemma filter_nil_all {A : Type} (f : A -> bool) (l : list A) :
  List.filter f l = [] -> Forall (fun x => f x = false) l.
Proof.
  induction l as [|x l IH]; simpl; intros H; [constructor|].
  destruct (f x) eqn:E; [discriminate|]. constructor; auto.
Qed.

(** [split_text] returns no segment for the blank texts and for no other
    text: so these are the texts on which [generate_stream] fails at
    [segments[0]]. *)
Theorem split_text_empty_iff_blank (self : interface) (text : pystr) :
  split_text self text None = [] <-> blank text.
Proof.
  split; [|apply split_text_blank].
  unfold split_text, blank, re_split. intros H.
  apply filter_nil_all in H.
  assert (Hpieces : Forall (Forall (fun c => isspace c = true))
                      (re_split_go default_delimiters text 0 [])).
  { rewrite List.Forall_forall in H. apply List.Forall_forall.
    intros p Hp. apply strip_nil_spaces.
    specialize (H (strip p) (in_map strip _ _ Hp)). simpl in H.
    destruct (strip p); [reflexivity|discriminate]. }
  pose proof (re_split_go_cover (fun c => is_delimiter_char c = true)
                (fun c => isspace c = true) default_delimiters
                default_delimiter_chars text 0%nat [] (List.Forall_nil _) Hpieces)
    as Hcover.
  eapply List.Forall_impl; [|exact Hcover]. simpl. intros c [Hc|Hc]; auto.
Qed.

Lemma first_match_free c rest :
  delimiter_free c -> first_match default_delimiters (c :: rest) = None.
Proof.
  intros Hfree.
  destruct (first_match default_delimiters (c :: rest)) as [d|] eqn:E;
    [|reflexivity].
  apply first_match_spec in E as (Hin & Hne & tail & Htext).
  destruct d as [|x d']; [congruence|].
  simpl in Htext. inversion Htext; subst.
  destruct (Hfree _ Hin). left. reflexivity.
Qed.

Lemma re_split_go_free (s piece : pystr) :
  Forall delimiter_free s ->
  re_split_go default_delimiters s 0 piece = [piece ++ s].
Proof.
  revert piece. induction s as [|c r IH]; intros piece H; simpl.
  - rewrite app_nil_r. reflexivity.
  - inversion H as [|? ? Hc Hr]; subst.
    change (re_split_go default_delimiters (c :: r) 0 piece
            = [piece ++ c :: r]).
    cbn [re_split_go]. rewrite (first_match_free c r Hc).
    rewrite (IH _ Hr), <- app_assoc. reflexivity.
Qed.

(** Splitting is idempotent: a segment [split_text] returned is, when it is
    split again, its own single segment. *)
Theorem split_text_idempotent (self : interface) (text : pystr) :
  Forall (fun s => split_text self s None = [s]) (split_text self text None).
Proof.
  apply List.Forall_forall. intros s Hs. unfold split_text in Hs.
  apply filter_In in Hs as [Hs Hne].
  apply in_map_iff in Hs as (r & <- & Hr).
  assert (Hclean : Forall (Forall delimiter_free)
                     (re_split default_delimiters text)).
  { apply (re_split_go_pieces (fun _ => True));
      [|apply List.Forall_forall; auto|constructor].
    intros c' rest _. apply default_no_match. }
  rewrite List.Forall_forall in Hclean. specialize (Hclean _ Hr).
  assert (Hfree : Forall delimiter_free (strip r)).
  { rewrite List.Forall_forall in Hclean. apply List.Forall_forall.
    intros c Hc. apply Hclean, strip_incl, Hc. }
  unfold split_text, re_split. rewrite (re_split_go_free _ [] Hfree).
  simpl. rewrite strip_idem. simpl in Hne. rewrite Hne. reflexivity.
Qed.

(** No alternative matches at a code point of [q], read with what follows
    it in the text. *)
Lemma starts_with_self (d rest : pystr) : starts_with d (d ++ rest) = true.
Proof.
  induction d as [|x d IH]; simpl; [reflexivity|].
  rewrite Z.eqb_refl. exact IH.
Qed.

Lemma re_split_go_unmatched alts text skip piece :
  exists q qs after,
    re_split_go alts text skip piece = (piece ++ q) :: qs
    /\ skipn skip text = q ++ after
    /\ (forall q1 q2, q = q1 ++ q2 -> q2 <> [] ->
         first_match alts (q2 ++ after) = None)
    /\ Forall
         (fun p =>
            exists after,
              forall q1 q2, p = q1 ++ q2 -> q2 <> [] ->
                first_match alts (q2 ++ after) = None) qs.
Proof.
  revert skip piece. induction text as [|c rest IH]; intros skip piece.
  - exists [], [], []. simpl. rewrite app_nil_r, skipn_nil.
    repeat split; [|constructor].
    intros q1 q2 H Hne. symmetry in H. apply app_eq_nil in H as [_ ->].
    congruence.
  - destruct skip as [|k]; simpl.
    + destruct (first_match alts (c :: rest)) as [d|] eqn:E.
      * destruct (IH (length d - 1)%nat [])
          as (q & qs & after & H1 & H2 & H3 & H4).
        exists [], (q :: qs), (c :: rest). rewrite app_nil_r, H1.
        repeat split.
        -- intros q1 q2 H Hne. symmetry in H.
           apply app_eq_nil in H as [_ ->]. congruence.
        -- constructor; [|exact H4]. exists after. exact H3.
      * destruct (IH 0%nat (piece ++ [c]))
          as (q & qs & after & H1 & H2 & H3 & H4).
        change (drop 0 rest) with rest in H2.
        exists (c :: q), qs, after. rewrite H1, <- app_assoc.
        split; [reflexivity|]. split; [simpl; congruence|].
        split; [|exact H4].
        intros q1 q2 H Hne. destruct q1 as [|x q1]; simpl in H.
        -- subst q2. simpl. rewrite <- H2. exact E.
        -- inversion H; subst. apply (H3 q1 q2); [reflexivity|exact Hne].
    + destruct (IH k piece) as (q & qs & after & H1 & H2 & H3 & H4).
      exists q, qs, after. repeat split; assumption.
Qed.

Lemma unmatched_no_occurrence alts (p after : pystr) :
  (forall q1 q2, p = q1 ++ q2 -> q2 <> [] ->
     first_match alts (q2 ++ after) = None) ->
  forall d, In d alts -> d <> [] -> ~ occurs d p.
Proof.
  intros H d Hd Hne (before & rest & Hp).
  specialize (H before (d ++ rest) Hp).
  assert (Hq : d ++ rest <> []) by (destruct d; [congruence|discriminate]).
  specialize (H Hq). unfold first_match in H.
  pose proof (find_none _ _ H d Hd) as Hn. simpl in Hn.
  rewrite <- app_assoc, starts_with_self, andb_true_r in Hn.
  destruct d; [congruence|discriminate].
Qed.

Lemma occurs_strip (d s : pystr) : occurs d (strip s) -> occurs d s.
Proof.
  intros (before & after & H). destruct (strip_infix s) as (pre & post & Hs).
  exists (pre ++ before), (after ++ post). rewrite Hs at 1. rewrite H.
  rewrite <- !app_assoc. reflexivity.
Qed.

(** With delimiters of the caller, at least one and none of them empty (an
    empty list and an empty delimiter give a pattern that matches the empty
    string, which [re.split] treats by other rules): every segment is
    non-empty and stripped, no delimiter occurs in a segment, and the
    segments lie in the text in the order of the list. *)
Theorem split_text_custom_delimiters (self : interface) (text : pystr)
    (delimiters : list pystr) :
  delimiters <> [] ->
  Forall (fun d => d <> []) delimiters ->
  Forall
    (fun s =>
       s <> []
       /\ strip s = s
       /\ forall d, In d delimiters -> ~ occurs d s)
    (split_text self text (Some delimiters))
  /\ occur_in_order (split_text self text (Some delimiters)) text.
Proof.
  intros _ Hliterals. unfold split_text. split.
  - apply List.Forall_forall. intros s Hs.
    apply filter_In in Hs as [Hs Hne].
    apply in_map_iff in Hs as (r & <- & Hr).
    split; [|split].
    + intros E. rewrite E in Hne. discriminate.
    + apply strip_idem.
    + intros d Hd Hocc. apply occurs_strip in Hocc.
      rewrite List.Forall_forall in Hliterals.
      unfold re_split in Hr.
      destruct (re_split_go_unmatched delimiters text 0 [])
        as (q & qs & after & H1 & _ & H3 & H4).
      rewrite H1 in Hr. destruct Hr as [<-|Hr].
      * exact (unmatched_no_occurrence delimiters q after H3 d Hd
                 (Hliterals d Hd) Hocc).
      * rewrite List.Forall_forall in H4.
        destruct (H4 _ Hr) as (after' & H5).
        exact (unmatched_no_occurrence delimiters r after' H5 d Hd
                 (Hliterals d Hd) Hocc).
  - apply occur_in_order_filter, occur_in_order_strip, re_split_order.
Qed.

Lemma split_text_custom_delimiters_witness :
  Forall
    (fun s =>
       s <> []
       /\ strip s = s
       /\ forall d, In d [of_string ","; of_string " - "] -> ~ occurs d s)
    (split_text (InterfaceHF demo_config) (of_string "a, b - c,, d")
       (Some [of_string ","; of_string " - "]))
  /\ occur_in_order
       (split_text (InterfaceHF demo_config) (of_string "a, b - c,, d")
          (Some [of_string ","; of_string " - "]))
       (of_string "a, b - c,, d").
Proof.
  apply (split_text_custom_delimiters (InterfaceHF demo_config)
           (of_string "a, b - c,, d") [of_string ","; of_string " - "]).
  - discriminate.
  - repeat constructor; discriminate.
Defined.

End SplitFacts.

(** ** Files of profiles *)

Module FileFacts.
Import MonadFacts Profiles.












Section WithDeps.

Context {B : Type} (D : deps B).

Implicit Types w : world B.


End WithDeps.


End FileFacts.

(** ** More on the profile of a speaker *)

Module SpeakerFacts.
Import MonadFacts Speakers.

Lemma ints_of_ints (codes : list Z) : ints_of (PyList (map PyInt codes)) = codes.
Proof.
  simpl. induction codes as [|c codes IH]; simpl; [reflexivity|].
  rewrite IH. reflexivity.
Qed.

Lemma clamp_index_in_range {A : Type} (l : list A) (i : Z) :
  0 <= i <= Z.of_nat (length l) -> clamp_index l i = Z.to_nat i.
Proof.
  intros H. unfold clamp_index.
  destruct (Z.ltb_spec i 0); [lia|]. f_equal. lia.
Qed.

Lemma firstn_plus {A : Type} (n k : nat) (l : list A) :
  firstn (n + k) l = firstn n l ++ firstn k (skipn n l).
Proof.
  revert l. induction n as [|n IH]; intros l; [reflexivity|].
  destruct l as [|x l]; simpl.
  - rewrite firstn_nil. reflexivity.
  - rewrite IH. reflexivity.
Qed.

(** Two slices that meet make one slice. *)
Lemma slice_slice {A : Type} (l : list A) (a b c : Z) :
  0 <= a <= b -> b <= c <= Z.of_nat (length l) ->
  slice l a b ++ slice l b c = slice l a c.
Proof.
  intros Hab Hbc. unfold slice.
  rewrite !clamp_index_in_range by lia.
  replace (Z.to_nat c - Z.to_nat a)%nat
    with ((Z.to_nat b - Z.to_nat a) + (Z.to_nat c - Z.to_nat b))%nat by lia.
  rewrite firstn_plus. f_equal. f_equal.
  rewrite skipn_skipn. f_equal. lia.
Qed.

Lemma slice_length {A : Type} (l : list A) (a b : Z) :
  0 <= a <= b -> b <= Z.of_nat (length l) ->
  length (slice l a b) = Z.to_nat (b - a).
Proof.
  intros Hab Hb. unfold slice.
  rewrite !clamp_index_in_range by lia.
  rewrite firstn_length_le; [lia|]. rewrite length_skipn. lia.
Qed.

Section WithDeps.

Context {B : Type} (D : deps B).

Implicit Types w : world B.

Lemma speaker_words_codes full_codes words :
  forall start,
    0 <= start <= Z.of_nat (length full_codes) ->
    frames_increase D words start (Z.of_nat (length full_codes)) ->
    start <= last_frame D words start <= Z.of_nat (length full_codes)
    /\ flat_map codes_of_entry (speaker_words D full_codes words start)
       = slice full_codes start (last_frame D words start).
Proof.
  induction words as [|word words IH]; intros start Hstart Hinc; simpl.
  - split; [lia|]. unfold slice. rewrite Nat.sub_diag. reflexivity.
  - destruct Hinc as [Hword Hinc].
    destruct (IH (frame_index D (aw_x1 word))) as [Hlast Hcodes];
      [lia|exact Hinc|].
    split; [lia|]. rewrite Hcodes.
    pose proof (slice_length full_codes start (frame_index D (aw_x1 word)))
      as Hlen.
    destruct (slice full_codes start (frame_index D (aw_x1 word)))
      as [|c sl] eqn:E.
    { simpl in Hlen. lia. }
    change (codes_of_entry _)
      with (ints_of (PyList (map PyInt (c :: sl)))).
    rewrite ints_of_ints, <- E. apply slice_slice; lia.
Qed.

(** When every aligned word ends in a later frame than the word before it,
    within the frames of the recording, the codes of the entries of the
    profile, taken together, are the codes of the recording up to the end
    of the last word: no code is lost or repeated between two words, no
    placeholder is inserted, and what follows the last word is left out. *)
Theorem create_speaker_keeps_codes (self : interface) (audio_path : pystr)
    (transcript : option pystr) (whisper_model : pystr)
    (whisper_device : option pystr) w d w' :
  let t :=
    effective_transcript D audio_path transcript whisper_model
      whisper_device in
  let words := aligned_words D self audio_path t in
  let full_codes := codes_of_words D words in
  create_speaker D self audio_path transcript whisper_model whisper_device w
  = (Returns d, w') ->
  frames_increase D words 0 (Z.of_nat (length full_codes)) ->
  profile_codes d
  = firstn (Z.to_nat (last_frame D words 0)) full_codes.
Proof.
  intros t words full_codes. rewrite create_speaker_run. cbv zeta.
  fold t. fold words. fold full_codes.
  destruct t as [|c t']; [discriminate|].
  destruct words as [|word more] eqn:E; [discriminate|].
  intros [= <- _] Hinc.
  change (profile_codes _)
    with (flat_map codes_of_entry
            (speaker_words D full_codes (word :: more) 0)).
  destruct (speaker_words_codes full_codes (word :: more) 0) as [Hlast ->];
    [lia|exact Hinc|].
  unfold slice. rewrite !clamp_index_in_range by lia.
  simpl. rewrite Nat.sub_0_r. reflexivity.
Qed.

Lemma speaker_words_nonempty full_codes words :
  forall start,
    Forall
      (fun e =>
         codes_of_entry e <> []
         /\ exists q,
              item e "duration" = Some (PyFloat q) /\ (1 # 100 <= q)%Q)
      (speaker_words D full_codes words start).
Proof.
  induction words as [|word words IH]; intros start; simpl;
    constructor; [|apply IH].
  set (tokens :=
         match slice full_codes start (frame_index D (aw_x1 word)) with
         | [] => [1]
         | _ :: _ => slice full_codes start (frame_index D (aw_x1 word))
         end).
  assert (Hne : tokens <> []).
  { unfold tokens.
    destruct (slice full_codes start (frame_index D (aw_x1 word)));
      discriminate. }
  split.
  - change (codes_of_entry _) with (ints_of (PyList (map PyInt tokens))).
    rewrite ints_of_ints. exact Hne.
  - exists (round_duration (Z.of_nat (length tokens))).
    split; [reflexivity|].
    unfold round_duration, Qle. simpl.
    assert (Hlen : 1 <= Z.of_nat (length tokens)).
    { destruct tokens; [congruence|simpl; lia]. }
    assert (1 <= (8 * Z.of_nat (length tokens) + 3) / 6)
      by (apply Z.div_le_lower_bound; lia).
    lia.
Qed.

(** Every profile [create_speaker] returns has at least one word, and each
    of its words carries at least one code and a duration of [0.01] at
    least. *)
Theorem create_speaker_words_nonempty (self : interface)
    (audio_path : pystr) (transcript : option pystr)
    (whisper_model : pystr) (whisper_device : option pystr) w d w' :
  create_speaker D self audio_path transcript whisper_model whisper_device w
  = (Returns d, w') ->
  exists entries,
    item d "words" = Some (PyList entries)
    /\ entries <> []
    /\ Forall
         (fun e =>
            codes_of_entry e <> []
            /\ exists q,
                 item e "duration" = Some (PyFloat q) /\ (1 # 100 <= q)%Q)
         entries.
Proof.
  rewrite create_speaker_run. cbv zeta.
  destruct (effective_transcript D _ _ _ _) as [|c t]; [discriminate|].
  destruct (aligned_words D _ _ _) as [|word more] eqn:E; [discriminate|].
  intros [= <- _].
  exists (speaker_words D (codes_of_words D (word :: more)) (word :: more) 0).
  split; [reflexivity|].
  split; [simpl; discriminate|]. apply speaker_words_nonempty.
Qed.

(** What [create_speaker] calls: whisper when no transcript is passed and
    only then; the aligner when the transcript is not empty and only then;
    the encoder of the codec when it returns a profile and only then. Each
    of them is called once at most. *)
Theorem create_speaker_calls (self : interface) (audio_path : pystr)
    (transcript : option pystr) (whisper_model : pystr)
    (whisper_device : option pystr) w :
  let t :=
    effective_transcript D audio_path transcript whisper_model
      whisper_device in
  exists events,
    trace (snd (create_speaker D self audio_path transcript whisper_model
                  whisper_device w))
    = trace w ++ events
    /\ List.filter is_transcribe events
       = match transcript with
         | None => [Transcribe audio_path whisper_model whisper_device]
         | Some _ => []
         end
    /\ List.filter is_align events
       = match t with
         | [] => []
         | _ => [Align audio_path t (language self)]
         end
    /\ (length (List.filter is_encode events) <= 1)%nat
    /\ (List.filter is_encode events <> []
        <-> exists d,
              fst (create_speaker D self audio_path transcript whisper_model
                     whisper_device w)
              = Returns d).
Proof.
  intros t. rewrite create_speaker_run. cbv zeta. fold t.
  unfold transcription_events.
  destruct t as [|c t'] eqn:Et.
  - eexists. split; [reflexivity|].
    destruct transcript; simpl; repeat split; try lia; try congruence;
      intros [d Hd]; discriminate.
  - destruct (aligned_words D self audio_path (c :: t')) as [|word more].
    + eexists. split; [reflexivity|].
      destruct transcript; simpl; repeat split; try lia; try congruence;
        intros [d Hd]; discriminate.
    + eexists. split; [reflexivity|].
      destruct transcript; simpl; repeat split; try lia; try discriminate;
        intros _; eexists; reflexivity.
Qed.

End WithDeps.

Lemma create_speaker_keeps_codes_witness :
  exists d w',
    create_speaker (demo [] ([], None) spoken_words)
      (InterfaceHF demo_config) (of_string "a.wav") (Some (of_string "so a"))
      (of_string "turbo") None fresh
    = (Returns d, w')
    /\ profile_codes d = [5; 6; 7].
Proof.
  destruct (create_speaker (demo [] ([], None) spoken_words)
              (InterfaceHF demo_config) (of_string "a.wav")
              (Some (of_string "so a")) (of_string "turbo") None fresh)
    as [[d|e] w'] eqn:E; [|rewrite create_speaker_run in E; discriminate].
  exists d, w'. split; [reflexivity|].
  rewrite (create_speaker_keeps_codes (demo [] ([], None) spoken_words)
             (InterfaceHF demo_config) (of_string "a.wav")
             (Some (of_string "so a")) (of_string "turbo") None fresh d w' E).
  - reflexivity.
  - vm_compute. repeat split; congruence.
Defined.

Lemma create_speaker_words_nonempty_witness :
  exists d w' entries,
    create_speaker (demo [] ([], None) two_words) (InterfaceHF demo_config)
      (of_string "a.wav") (Some (of_string "so a")) (of_string "turbo")
      None fresh
    = (Returns d, w')
    /\ item d "words" = Some (PyList entries)
    /\ entries <> []
    /\ Forall
         (fun e =>
            codes_of_entry e <> []
            /\ exists q,
                 item e "duration" = Some (PyFloat q) /\ (1 # 100 <= q)%Q)
         entries.
Proof.
  destruct (create_speaker (demo [] ([], None) two_words)
              (InterfaceHF demo_config) (of_string "a.wav")
              (Some (of_string "so a")) (of_string "turbo") None fresh)
    as [[d|e] w'] eqn:E; [|rewrite create_speaker_run in E; discriminate].
  destruct (create_speaker_words_nonempty (demo [] ([], None) two_words)
              (InterfaceHF demo_config) (of_string "a.wav")
              (Some (of_string "so a")) (of_string "turbo") None fresh d w'
              E) as (entries & H).
  exists d, w', entries. split; [reflexivity|exact H].
Defined.

End SpeakerFacts.

(** ** The current language and the default speakers *)

Module LanguageFacts.
Import PyStrFacts MonadFacts.

Lemma ascii_lower_space (c : Z) : isspace (ascii_lower c) = isspace c.
Proof.
  unfold ascii_lower.
  destruct ((65 <=? c) && (c <=? 90)) eqn:E; [|reflexivity].
  apply andb_prop in E as [H1 H2].
  apply Z.leb_le in H1. apply Z.leb_le in H2.
  assert (Hfalse : forall x, 65 <= x <= 122 -> isspace x = false).
  { intros x Hx. apply not_true_is_false. intros H. unfold isspace in H.
    rewrite !orb_true_iff, !andb_true_iff, !Z.leb_le, !Z.eqb_eq in H. lia. }
  rewrite !Hfalse by lia. reflexivity.
Qed.

Lemma ascii_lower_idem (c : Z) : ascii_lower (ascii_lower c) = ascii_lower c.
Proof.
  unfold ascii_lower.
  destruct ((65 <=? c) && (c <=? 90)) eqn:E.
  - apply andb_prop in E as [H1 H2].
    apply Z.leb_le in H1. apply Z.leb_le in H2.
    destruct (Z.leb_spec (c + 32) 90); [lia|].
    rewrite andb_false_r. reflexivity.
  - rewrite E. reflexivity.
Qed.

Lemma lstrip_lower (s : pystr) :
  lstrip (map ascii_lower s) = map ascii_lower (lstrip s).
Proof.
  induction s as [|c r IH]; simpl; [reflexivity|].
  rewrite ascii_lower_space. destruct (isspace c); [exact IH|reflexivity].
Qed.

Lemma rstrip_lower (s : pystr) :
  rstrip (map ascii_lower s) = map ascii_lower (rstrip s).
Proof.
  induction s as [|c r IH]; simpl; [reflexivity|].
  rewrite IH, ascii_lower_space.
  destruct (rstrip r); simpl; [destruct (isspace c)|]; reflexivity.
Qed.

Lemma strip_lower (s : pystr) :
  strip (map ascii_lower s) = map ascii_lower (strip s).
Proof. unfold strip. rewrite lstrip_lower, rstrip_lower. reflexivity. Qed.

Lemma is_ascii_lower (s : pystr) :
  is_ascii s = true -> is_ascii (map ascii_lower s) = true.
Proof.
  unfold is_ascii. rewrite !forallb_forall. intros H c Hc.
  apply in_map_iff in Hc as (x & <- & Hx). specialize (H x Hx).
  apply andb_prop in H as [H1 H2].
  apply Z.leb_le in H1. apply Z.ltb_lt in H2.
  unfold ascii_lower.
  destruct ((65 <=? x) && (x <=? 90)) eqn:E.
  - apply andb_prop in E as [H3 H4].
    apply Z.leb_le in H3. apply Z.leb_le in H4.
    apply andb_true_intro. split; [apply Z.leb_le|apply Z.ltb_lt]; lia.
  - apply andb_true_intro. split; [apply Z.leb_le|apply Z.ltb_lt]; lia.
Qed.

Lemma is_ascii_strip (s : pystr) :
  is_ascii s = true -> is_ascii (strip s) = true.
Proof.
  unfold is_ascii. rewrite !forallb_forall. intros H c Hc.
  apply H, strip_incl, Hc.
Qed.

Lemma dict_lookup_in {A : Type} (d : list (pystr * A)) (k : pystr) (v : A) :
  dict_lookup d k = Some v -> In (k, v) d.
Proof.
  induction d as [|[k' v'] d IH]; simpl; [discriminate|].
  unfold pystr_eqb. destruct (bool_decide_reflect (k' = k)) as [->|Hne].
  - intros [= ->]. left. reflexivity.
  - intros H. right. apply IH, H.
Qed.

Lemma existsb_pystr_eqb (x : pystr) (l : list pystr) :
  existsb (pystr_eqb x) l = true <-> In x l.
Proof.
  rewrite existsb_exists. unfold pystr_eqb. split.
  - intros (y & Hy & H). apply bool_decide_eq_true in H. subst y. exact Hy.
  - intros H. exists x. split; [exact H|]. apply bool_decide_eq_true.
    reflexivity.
Qed.

Section WithPlatform.

Variable unicode_lower : pystr -> pystr.
Variable BASE_DIR : pystr.
Variable os_path_join : pystr -> pystr -> pystr.

(** On ASCII, to put a name in lower case and strip it a second time
    changes nothing. *)
Lemma normal_form_idem (s : pystr) :
  is_ascii s = true ->
  strip (lower unicode_lower (strip (lower unicode_lower s)))
  = strip (lower unicode_lower s).
Proof.
  intros Hs.
  assert (Hl : lower unicode_lower s = map ascii_lower s)
    by (unfold lower; rewrite Hs; reflexivity).
  rewrite Hl. unfold lower.
  rewrite (is_ascii_strip _ (is_ascii_lower _ Hs)).
  rewrite (strip_lower (strip (map ascii_lower s))), strip_idem.
  rewrite (strip_lower s), map_map.
  apply map_ext. intros c. apply ascii_lower_idem.
Qed.

(** [change_language] returns if and only if the name, in lower case and
    stripped, is one of the languages of the model; the interface then has
    this name as its language, one of its languages, and is otherwise as it
    was. *)
Theorem change_language_supported (self : interface) (language : pystr) :
  ((exists self', change_language unicode_lower self language = Returns self')
   <-> In (strip (lower unicode_lower language)) (languages self))
  /\ forall self',
       change_language unicode_lower self language = Returns self' ->
       Data.language self' = strip (lower unicode_lower language)
       /\ In (Data.language self') (languages self')
       /\ languages self' = languages self
       /\ config self' = config self
       /\ runtime_of self' = runtime_of self
       /\ _device self' = _device self
       /\ verbose self' = verbose self.
Proof.
  unfold change_language.
  destruct (existsb (pystr_eqb (strip (lower unicode_lower language)))
              (languages self)) eqn:E; simpl.
  - apply existsb_pystr_eqb in E. split.
    + split; [intros _; exact E|intros _; eexists; reflexivity].
    + intros self' [= <-]. simpl. repeat split. exact E.
  - split; [|discriminate]. split; [intros [self' H]; discriminate|].
    intros H. apply existsb_pystr_eqb in H. congruence.
Qed.

(** The language [change_language] selects, given a name in ASCII, is in
    lower case and stripped: to select it again changes nothing. *)
Theorem change_language_normal_form (self self' : interface)
    (language : pystr) :
  is_ascii language = true ->
  change_language unicode_lower self language = Returns self' ->
  strip (lower unicode_lower (Data.language self')) = Data.language self'
  /\ change_language unicode_lower self' (Data.language self')
     = Returns self'.
Proof.
  intros Hascii. unfold change_language.
  destruct (existsb (pystr_eqb (strip (lower unicode_lower language)))
              (languages self)) eqn:E; simpl; [|discriminate].
  intros [= <-]. simpl. rewrite (normal_form_idem language Hascii).
  split; [reflexivity|]. rewrite E. reflexivity.
Qed.

(** So a language the model lists in another form cannot be selected: when
    none of the languages of the interface is in lower case and stripped,
    [change_language] raises for every name in ASCII, the names of the list
    included. *)
Theorem change_language_needs_normal_form (self : interface)
    (language : pystr) :
  Forall (fun l => strip (lower unicode_lower l) <> l) (languages self) ->
  is_ascii language = true ->
  change_language unicode_lower self language
  = Raises
      (ValueError
         ("Language " +:+ message_of (strip (lower unicode_lower language))
          +:+ " is not supported by the current model")).
Proof.
  intros Hforms Hascii. unfold change_language.
  destruct (existsb (pystr_eqb (strip (lower unicode_lower language)))
              (languages self)) eqn:E; simpl; [|reflexivity].
  apply existsb_pystr_eqb in E. rewrite List.Forall_forall in Hforms.
  destruct (Hforms _ E). apply normal_form_idem. exact Hascii.
Qed.

(** The file [load_default_speaker] reads is the one named after the
    language of the interface and the name of the speaker, both in lower
    case and stripped: [<language>_<name>.json] in the directory of the
    default speakers, for one of the four languages that have speakers. In
    every other case it raises [ValueError] and reads no file. *)
Theorem load_default_speaker_file {B : Type} (self : interface)
    (name : pystr) (w : world B) :
  let name' := strip (lower unicode_lower name) in
  let language' := strip (lower unicode_lower (Data.language self)) in
  (In language'
     [of_string "en"; of_string "ja"; of_string "ko"; of_string "zh"]
   /\ load_default_speaker unicode_lower BASE_DIR os_path_join self name w
      = load_speaker self
          (get_speaker_path BASE_DIR os_path_join
             (language' ++ of_string "_" ++ name')) w)
  \/ exists msg,
       load_default_speaker unicode_lower BASE_DIR os_path_join self name w
       = (Raises (ValueError msg), w).
Proof.
  intros name' language'. unfold load_default_speaker.
  fold name'. fold language'.
  destruct (dict_lookup (_DEFAULT_SPEAKERS BASE_DIR os_path_join) language')
    as [speakers|] eqn:El; [|right; eexists; reflexivity].
  destruct (dict_lookup speakers name') as [path|] eqn:En;
    [|right; eexists; reflexivity].
  left. apply dict_lookup_in in El. apply dict_lookup_in in En.
  generalize dependent name'. generalize dependent language'.
  intros language' El name' En.
  unfold _DEFAULT_SPEAKERS in El. simpl in El.
  repeat (destruct El as [El|El]); try contradiction;
    injection El as <- <-; simpl in En;
    repeat (destruct En as [En|En]); try contradiction;
    injection En as <- <-;
    (split; [simpl; tauto|reflexivity]).
Qed.

End WithPlatform.

Lemma change_language_supported_witness :
  exists self',
    change_language (fun s => s) (InterfaceHF demo_config)
      (of_string " EN ") = Returns self'
    /\ language self' = of_string "en"
    /\ In (language self') (languages self').
Proof.
  destruct (proj2 (proj1 (change_language_supported (fun s => s)
                            (InterfaceHF demo_config) (of_string " EN "))))
    as [self' H].
  { vm_compute. left. reflexivity. }
  exists self'. split; [exact H|].
  destruct (proj2 (change_language_supported (fun s => s)
                     (InterfaceHF demo_config) (of_string " EN ")) self' H)
    as (H1 & H2 & _).
  split; [rewrite H1; reflexivity|exact H2].
Defined.

Lemma change_language_normal_form_witness :
  exists self',
    change_language (fun s => s) (InterfaceHF demo_config)
      (of_string " EN ") = Returns self'
    /\ strip (lower (fun s => s) (language self')) = language self'
    /\ change_language (fun s => s) self' (language self') = Returns self'.
Proof.
  eexists. split; [reflexivity|].
  apply (change_language_normal_form (fun s => s) (InterfaceHF demo_config)
           _ (of_string " EN ")); reflexivity.
Defined.

Lemma change_language_needs_normal_form_witness :
  change_language (fun s => s) (InterfaceHF upper_case_config)
    (of_string "JA")
  = Raises
      (ValueError
         ("Language "
          +:+ message_of (strip (lower (fun s => s) (of_string "JA")))
          +:+ " is not supported by the current model")).
Proof.
  apply (change_language_needs_normal_form (fun s => s)
           (InterfaceHF upper_case_config) (of_string "JA")).
  - repeat constructor; discriminate.
  - reflexivity.
Defined.

End LanguageFacts.

(** ** A chunk size below four *)

Module ChunkSizeFacts.
Import MonadFacts Generation Streaming Chunks.

Section WithDeps.

Context {B : Type} (D : deps B).

Implicit Types w : world B.

(** With a [chunk_size] below 4, [generate_stream] synthesises nothing on
    any text that has a segment: the first segment is refused before the
    backend is called, the [ValueError] is logged, and the call returns
    after the sentinel and the join, no chunk having been put on the queue.
    This holds with [stream_segments] as well, after the log entry that
    says that [chunk_size] will be ignored. *)
Theorem generate_stream_small_chunk_size (self : interface) (text : pystr)
    (speaker : option pyval) (temperature repetition_penalty : Q)
    (max_length : option Z)
    (additional_gen_config additional_dynamic_generator_config : pyval)
    (chunk_size : Z) (stream_segments : bool) w :
  chunk_size < 4 ->
  split_text self text None <> [] ->
  generate_stream D self text speaker temperature repetition_penalty
    max_length additional_gen_config additional_dynamic_generator_config
    chunk_size stream_segments w
  = (Returns tt,
     note (at_try self text stream_segments w)
       [Log INFO
          (ProcessingSegment 1
             (Z.of_nat (length (split_text self text None))));
        Log ERROR (Exception (ValueError "chunk_size must be at least 4."));
        QueuePut None; ThreadJoin; QueueDel]).
Proof.
  intros Hsize Hne. rewrite (generate_stream_run D) by exact Hne.
  unfold try_body.
  destruct (split_text self text None) as [|segment rest] eqn:E;
    [contradiction|].
  cbn [segments_loop]. run.
  rewrite (_generate_stream_small_chunk_size D) by exact Hsize.
  cbn [fst snd after_try app]. rewrite note_note. reflexivity.
Qed.

End WithDeps.

Lemma generate_stream_small_chunk_size_witness :
  generate_stream demo_stream (InterfaceHF demo_config)
    (of_string "Hi. Ho") None 0.1%Q 1.1%Q (Some 4096) (PyDict [])
    (PyDict []) 3 true fresh
  = (Returns tt,
     note (at_try (InterfaceHF demo_config) (of_string "Hi. Ho") true fresh)
       [Log INFO
          (ProcessingSegment 1
             (Z.of_nat
                (length
                   (split_text (InterfaceHF demo_config)
                      (of_string "Hi. Ho") None))));
        Log ERROR (Exception (ValueError "chunk_size must be at least 4."));
        QueuePut None; ThreadJoin; QueueDel]).
Proof.
  apply (generate_stream_small_chunk_size demo_stream
           (InterfaceHF demo_config) (of_string "Hi. Ho") None 0.1%Q 1.1%Q
           (Some 4096) (PyDict []) (PyDict []) 3 true fresh).
  - lia.
  - discriminate.
Defined.

End ChunkSizeFacts.

(** ** The verbose mode *)

Module VerboseFacts.
Import MonadFacts Generation Runtimes GenerateFacts.

Section WithDeps.

Context {B : Type} (D : deps B).

Implicit Types w : world B.

(** [verbose] only adds to the log: with it and without it, [generate]
    has the same outcome, leaves the sampler of the backend in the same
    state, and does the same things in the same order; what it does without
    [verbose] is what it does with it, less the entries of the log at the
    level [INFO]. *)
Theorem generate_verbose_only_logs (self : interface) (text : pystr)
    (speaker : option pyval) (temperature repetition_penalty : Q)
    (max_length : option Z)
    (additional_gen_config additional_dynamic_generator_config : pyval) w :
  let loud :=
    generate D (with_verbose self true) text speaker temperature
      repetition_penalty max_length additional_gen_config
      additional_dynamic_generator_config w in
  let silent :=
    generate D (with_verbose self false) text speaker temperature
      repetition_penalty max_length additional_gen_config
      additional_dynamic_generator_config w in
  fst loud = fst silent
  /\ sampler (snd loud) = sampler (snd silent)
  /\ exists t,
       trace (snd loud) = trace w ++ t
       /\ trace (snd silent) = trace w ++ List.filter not_info t.
Proof.
  cbv zeta. rewrite !generate_as_pipeline, !generate_pipeline_run.
  cbv zeta.
  change (runtime_of (with_verbose self true)) with (runtime_of self).
  change (runtime_of (with_verbose self false)) with (runtime_of self).
  change (language (with_verbose self true)) with (language self).
  change (language (with_verbose self false)) with (language self).
  change (verbose (with_verbose self true)) with true.
  change (verbose (with_verbose self false)) with false.
  change (check_generation_max_length (with_verbose self true) max_length w)
    with (check_generation_max_length self max_length w).
  change (check_generation_max_length (with_verbose self false) max_length w)
    with (check_generation_max_length self max_length w).
  change (completion_of (with_verbose self true))
    with (completion_of self).
  change (completion_of (with_verbose self false))
    with (completion_of self).
  change (dynamic_of (with_verbose self true)
            additional_dynamic_generator_config)
    with (dynamic_of self additional_dynamic_generator_config).
  change (dynamic_of (with_verbose self false)
            additional_dynamic_generator_config)
    with (dynamic_of self additional_dynamic_generator_config).
  destruct (check_generation_max_length self max_length w) as [[[]|e] w0].
  - destruct (model_generate D _ _ _ _ _) as [[output|e] b].
    + destruct (extract_audio_from_tokens D _) as [|c codes];
        (split; [reflexivity|]); (split; [reflexivity|]);
        eexists; (split; [reflexivity|]); reflexivity.
    + split; [reflexivity|]. split; [reflexivity|].
      eexists. split; [reflexivity|]. reflexivity.
  - split; [reflexivity|]. split; [reflexivity|].
    eexists. split; [reflexivity|]. unfold note. simpl.
    rewrite app_nil_r. reflexivity.
Qed.

End WithDeps.

End VerboseFacts.
